(** * Timeline reconciliation of the pilgrim travel journal

    A shallow embedding of [app/trip/[id]/TimelineSection.tsx]: the
    [entries], [grouped] and [dayKeys] memos and the per-day sort of the
    render, together with the helpers [ms] and [dayKey] and the host
    functions they call (ECMAScript numbers as far as the component uses
    them, [Date], [Array.prototype.sort], [Map], [Set]).

    With it, the state of the component, its load and its render; the
    markers, the centre and the bounds of [MapSection.tsx]; and the
    helpers and handlers of [MomentsSection.tsx], as programs over the
    state of the component and the calls they make. *)

From Stdlib Require Import ZArith List String Ascii Bool Lia QArith.
From Stdlib Require Import Permutation Sorted.
From stdpp Require Import gmap strings.
Import ListNotations.

#[local] Open Scope string_scope.
#[local] Open Scope Z_scope.

(** Lists are those of the Standard Library. *)
#[local] Abbreviation NoDup := List.NoDup.

(* ===================================================================== *)
(** ** ECMAScript numbers, as far as the component uses them *)
(* ===================================================================== *)

(** Every number the component computes is a time value, a difference of
    two time values, [Infinity] or [NaN].  Time values are integers of
    magnitude at most 8.64e15 ([TimeClip]), so the only arithmetic that
    can round is a difference of magnitude above 2^53; such a difference
    keeps its sign and stays far above [MATCH_WINDOW_MS], which is all the
    component observes of it.  Integers are therefore modelled exactly. *)
Inductive number : Type :=
  | Num (z : Z)
  | PInf
  | NInf
  | NaN.

#[global] Instance number_eq_dec : EqDecision number.
Proof. solve_decision. Defined.

(** [a - b] *)
Definition num_sub (a b : number) : number :=
  match a, b with
  | NaN, _ | _, NaN => NaN
  | Num x, Num y => Num (x - y)
  | PInf, PInf | NInf, NInf => NaN
  | PInf, _ | _, NInf => PInf
  | NInf, _ | _, PInf => NInf
  end.

(** [a + b] *)
Definition num_add (a b : number) : number :=
  match a, b with
  | NaN, _ | _, NaN => NaN
  | Num x, Num y => Num (x + y)
  | PInf, NInf | NInf, PInf => NaN
  | PInf, _ | _, PInf => PInf
  | NInf, _ | _, NInf => NInf
  end.

(** [Math.abs(a)] *)
Definition Math_abs (a : number) : number :=
  match a with
  | Num x => Num (Z.abs x)
  | PInf | NInf => PInf
  | NaN => NaN
  end.

(** [a < b]: false as soon as one side is [NaN]. *)
Definition num_ltb (a b : number) : bool :=
  match a, b with
  | NaN, _ | _, NaN => false
  | Num x, Num y => x <? y
  | NInf, (Num _ | PInf) => true
  | Num _, PInf => true
  | _, _ => false
  end.

(** [a <= b]: false as soon as one side is [NaN]. *)
Definition num_leb (a b : number) : bool :=
  match a, b with
  | NaN, _ | _, NaN => false
  | Num x, Num y => x <=? y
  | NInf, _ => true
  | _, PInf => true
  | _, _ => false
  end.

(** [Number.POSITIVE_INFINITY] *)
Definition POSITIVE_INFINITY : number := PInf.

(* ===================================================================== *)
(** ** Strings of numbers *)
(* ===================================================================== *)

Definition digit_char (d : Z) : ascii := ascii_of_N (48 + Z.to_N d).

Fixpoint digits_aux (fuel : nat) (n : Z) (acc : string) : string :=
  match fuel with
  | O => acc
  | S k =>
      let acc' := String (digit_char (n mod 10)) acc in
      if n / 10 =? 0 then acc' else digits_aux k (n / 10) acc'
  end.

(** The decimal digits of a natural number, most significant first. *)
Definition digits (n : Z) : string :=
  digits_aux (S (Z.to_nat (Z.log2 n))) n EmptyString.

(** [String(n)] and [`${n}`] for the numbers of the model; integers are
    written in full, as ECMAScript does below 1e21, far above any year
    of a time value. *)
Definition Number_toString (a : number) : string :=
  match a with
  | NaN => "NaN"
  | PInf => "Infinity"
  | NInf => "-Infinity"
  | Num z => if z <? 0 then String.append "-" (digits (- z)) else digits z
  end.

Fixpoint repeat_string (n : nat) (fill : string) : string :=
  match n with
  | O => EmptyString
  | S k => String.append fill (repeat_string k fill)
  end.

(** [s.padStart(targetLength, fill)] for a one-character [fill]. *)
Definition padStart (targetLength : nat) (fill : string) (s : string) : string :=
  String.append (repeat_string (targetLength - String.length s) fill) s.

(** [a > b] on strings: comparison by code units. *)
Definition string_gtb (a b : string) : bool :=
  match String.compare a b with
  | Gt => true
  | _ => false
  end.

(* ===================================================================== *)
(** ** Dates (ECMA-262, 21.4.1) *)
(* ===================================================================== *)

Definition msPerDay : Z := 86400000.

Definition Day (t : Z) : Z := t / msPerDay.

Definition DaysInYear (y : Z) : Z :=
  if (y mod 4 =? 0) && (negb (y mod 100 =? 0) || (y mod 400 =? 0))
  then 366 else 365.

Definition DayFromYear (y : Z) : Z :=
  365 * (y - 1970) + (y - 1969) / 4 - (y - 1901) / 100 + (y - 1601) / 400.

(** The largest [y] with [DayFromYear y <= Day t]: an estimate from the
    mean length of a year, corrected by at most one. *)
Definition YearFromTime (t : Z) : Z :=
  let d := Day t in
  let y := 1970 + d * 400 / 146097 in
  if d <? DayFromYear y then y - 1
  else if DayFromYear (y + 1) <=? d then y + 1
  else y.

Definition InLeapYear (t : Z) : Z :=
  if DaysInYear (YearFromTime t) =? 366 then 1 else 0.

Definition DayWithinYear (t : Z) : Z := Day t - DayFromYear (YearFromTime t).

Definition MonthFromTime (t : Z) : Z :=
  let d := DayWithinYear t in
  let L := InLeapYear t in
  if d <? 31 then 0
  else if d <? 59 + L then 1
  else if d <? 90 + L then 2
  else if d <? 120 + L then 3
  else if d <? 151 + L then 4
  else if d <? 181 + L then 5
  else if d <? 212 + L then 6
  else if d <? 243 + L then 7
  else if d <? 273 + L then 8
  else if d <? 304 + L then 9
  else if d <? 334 + L then 10
  else 11.

Definition DateFromTime (t : Z) : Z :=
  let d := DayWithinYear t in
  let L := InLeapYear t in
  match MonthFromTime t with
  | 0 => d + 1
  | 1 => d - 30
  | 2 => d - 58 - L
  | 3 => d - 89 - L
  | 4 => d - 119 - L
  | 5 => d - 150 - L
  | 6 => d - 180 - L
  | 7 => d - 211 - L
  | 8 => d - 242 - L
  | 9 => d - 272 - L
  | 10 => d - 303 - L
  | _ => d - 333 - L
  end.

(** [TimeClip]: a time value beyond 8.64e15 ms is no time value. *)
Definition TimeClip (a : number) : number :=
  match a with
  | Num t => if Z.abs t <=? 8640000000000000 then Num t else NaN
  | _ => NaN
  end.

(** A [Date] object is its time value: a clipped integer or [NaN]. *)
Definition Date : Type := number.

(** [d.getTime()] *)
Definition getTime (d : Date) : number := d.

(* --------------------------------------------------------------------- *)
(** *** The date-time string format (ECMA-262, 21.4.1.32)

    [Date.parse] is fixed by the standard on this format only and is
    implementation-defined elsewhere, so the component is modelled over an
    arbitrary parser (section [Host] below).  [Date_parse_iso] reads the
    UTC forms [YYYY-MM-DDTHH:mm:ssZ] and [YYYY-MM-DDTHH:mm:ss.sssZ], which
    is what the examples use, and answers [NaN] on anything else. *)

Definition digit_val (c : ascii) : option Z :=
  let n := Z.of_N (N_of_ascii c) in
  if (48 <=? n) && (n <=? 57) then Some (n - 48) else None.

Fixpoint read_digits (k : nat) (s : string) (acc : Z) : option (Z * string) :=
  match k with
  | O => Some (acc, s)
  | S k' =>
      match s with
      | String c s' =>
          match digit_val c with
          | Some d => read_digits k' s' (acc * 10 + d)
          | None => None
          end
      | EmptyString => None
      end
  end.

Definition expect (c : ascii) (s : string) : option string :=
  match s with
  | String c' s' => if Ascii.eqb c c' then Some s' else None
  | EmptyString => None
  end.

Definition DaysInMonth (y m : Z) : Z :=
  match m with
  | 2 => DaysInYear y - 337
  | 4 | 6 | 9 | 11 => 30
  | _ => 31
  end.

(** Days from the start of the year to the first of month [m] (1..12). *)
Definition month_start (y m : Z) : Z :=
  let L := DaysInYear y - 365 in
  match m with
  | 1 => 0
  | 2 => 31
  | 3 => 59 + L
  | 4 => 90 + L
  | 5 => 120 + L
  | 6 => 151 + L
  | 7 => 181 + L
  | 8 => 212 + L
  | 9 => 243 + L
  | 10 => 273 + L
  | 11 => 304 + L
  | _ => 334 + L
  end.

Definition MakeDay (y m d : Z) : Z := DayFromYear y + month_start y m + (d - 1).

Definition MakeTime (h mi s milli : Z) : Z :=
  h * 3600000 + mi * 60000 + s * 1000 + milli.

Definition MakeDate (day time : Z) : Z := day * msPerDay + time.

#[local] Notation "'let?' p := e 'in' k" :=
  (match e with Some p => k | None => NaN end)
  (at level 10, p pattern, e at level 200, k at level 200, only parsing).

Definition parse_fraction (s : string) : option (Z * string) :=
  match expect "." s with
  | Some s' => read_digits 3 s' 0
  | None => Some (0, s)
  end.

Definition Date_parse_iso (s : string) : number :=
  let? (y, s) := read_digits 4 s 0 in
  let? s := expect "-" s in
  let? (m, s) := read_digits 2 s 0 in
  let? s := expect "-" s in
  let? (d, s) := read_digits 2 s 0 in
  let? s := expect "T" s in
  let? (h, s) := read_digits 2 s 0 in
  let? s := expect ":" s in
  let? (mi, s) := read_digits 2 s 0 in
  let? s := expect ":" s in
  let? (sec, s) := read_digits 2 s 0 in
  let? (milli, s) := parse_fraction s in
  let? s := expect "Z" s in
  match s with
  | EmptyString =>
      if (1 <=? m) && (m <=? 12) && (1 <=? d) && (d <=? DaysInMonth y m)
         && (h <=? 23) && (mi <=? 59) && (sec <=? 59)
      then Num (MakeDate (MakeDay y m d) (MakeTime h mi sec milli))
      else NaN
  | _ => NaN
  end.

(* ===================================================================== *)
(** ** The data of the component *)
(* ===================================================================== *)

(** The reconciliation reads [id] and [created_at] only; coordinates are
    kept as rationals. *)
Record Footprint : Type := {
  f_id : string;
  f_trip_id : string;
  f_type : string;
  f_lat : Q;
  f_lng : Q;
  f_accuracy_m : Q;
  f_place_text : option string;
  f_created_at : string;
}.

Record Moment : Type := {
  m_id : string;
  m_trip_id : string;
  m_user_id : string;
  m_text : string;
  m_photo_path : option string;
  m_created_at : string;
}.

(** The tagged union [TimelineEntry]; each constructor is one [kind]. *)
Inductive TimelineEntry : Type :=
  | kind_combined (created_at : string) (moment : Moment) (footprint : Footprint)
  | kind_moment (created_at : string) (moment : Moment)
  | kind_footprint (created_at : string) (footprint : Footprint).

Definition created_at (it : TimelineEntry) : string :=
  match it with
  | kind_combined c _ _ | kind_moment c _ | kind_footprint c _ => c
  end.

(** The moment an entry shows, if any. *)
Definition entry_moment (it : TimelineEntry) : option Moment :=
  match it with
  | kind_combined _ m _ | kind_moment _ m => Some m
  | kind_footprint _ _ => None
  end.

(** The footprint an entry shows, if any. *)
Definition entry_footprint (it : TimelineEntry) : option Footprint :=
  match it with
  | kind_combined _ _ f | kind_footprint _ f => Some f
  | kind_moment _ _ => None
  end.

(* ===================================================================== *)
(** ** [Array.prototype.sort] *)
(* ===================================================================== *)

Section ArraySort.
Context {A : Type}.
Variable comparefn : A -> A -> number.

(** [SortCompare]: the comparator's answer as a sign; [NaN] counts as
    [+0]. *)
Definition SortCompare (a b : A) : Z :=
  match comparefn a b with
  | Num v => v
  | PInf => 1
  | NInf => -1
  | NaN => 0
  end.

(** [x] precedes the elements of [l] in the array; it moves past those
    it is strictly greater than, up to the first it is not. *)
Fixpoint sort_insert (x : A) (l : list A) : list A :=
  match l with
  | [] => [x]
  | y :: l' => if 0 <? SortCompare x y then y :: sort_insert x l' else x :: l
  end.

(** The sort is stable (ECMA-262, 23.1.3.30).  With a consistent
    comparator every conforming engine returns this list; with an
    inconsistent one the order is implementation-defined and this
    insertion sort is one such implementation. *)
Definition Array_sort (l : list A) : list A := fold_right sort_insert [] l.
End ArraySort.

(* ===================================================================== *)
(** ** [Map<string, TimelineEntry[]>], in insertion order *)
(* ===================================================================== *)

Section JSMap.
Context {V : Type}.

(** [map.has(key)] *)
Fixpoint Map_has (key : string) (map : list (string * V)) : bool :=
  match map with
  | [] => false
  | (k, _) :: rest => if String.eqb k key then true else Map_has key rest
  end.

(** [map.get(key)] *)
Fixpoint Map_get (key : string) (map : list (string * V)) : option V :=
  match map with
  | [] => None
  | (k, v) :: rest => if String.eqb k key then Some v else Map_get key rest
  end.

(** [map.set(key, v)]: a present key keeps its place, a new one goes
    last. *)
Fixpoint Map_set (key : string) (v : V) (map : list (string * V)) : list (string * V) :=
  match map with
  | [] => [(key, v)]
  | (k, w) :: rest =>
      if String.eqb k key then (k, v) :: rest else (k, w) :: Map_set key v rest
  end.

(** [Array.from(map.keys())] *)
Definition Map_keys (map : list (string * V)) : list string := List.map fst map.
End JSMap.

(** [map.get(key)!.push(it)]: the array stored under [key] grows in
    place; under a key the map does not hold, [get] answers [undefined]
    and the call of [push] throws a [TypeError], which is [None]. *)
Fixpoint Map_push {A : Type} (key : string) (it : A) (map : list (string * list A))
  : option (list (string * list A)) :=
  match map with
  | [] => None
  | (k, items) :: rest =>
      if String.eqb k key then Some ((k, (items ++ [it])%list) :: rest)
      else option_map (cons (k, items)) (Map_push key it rest)
  end.

(* ===================================================================== *)
(** ** The arrays as objects

    [moments] and [footprints] reach the component as references to
    arrays, [sort] sorts the array it is called on, and [push] grows
    it.  The memo [entries], the only code that names the two arrays, is
    given a second time over a store of arrays, with every array it
    touches as a cell of that store.  The set [usedFootprints] and the
    variables [best] and [bestDelta] are locals that no other code can
    reach and stay values; so do the elements of the arrays, since the
    component assigns to no field of a moment, a footprint or an entry.
    [grouped], [dayKeys] and the render read [entries] and write to
    arrays of their own making only ([[]] in [grouped], [[...dayItems]]
    in the render); they stay functions of the value of [entries]. *)
(* ===================================================================== *)

Definition loc : Type := positive.

Inductive array : Type :=
  | MomentArray (l : list Moment)
  | FootprintArray (l : list Footprint)
  | EntryArray (l : list TimelineEntry).

Definition M (A : Type) : Type := gmap loc array -> A * gmap loc array.

Definition ret {A : Type} (a : A) : M A := fun h => (a, h).

Definition bind {A B : Type} (c : M A) (k : A -> M B) : M B :=
  fun h => let (a, h') := c h in k a h'.

#[local] Notation "x <- c ;; k" := (bind c (fun x => k))
  (at level 100, c at next level, right associativity).
#[local] Notation "c ;;; k" := (bind c (fun _ => k))
  (at level 100, right associativity).

Definition moments_at (h : gmap loc array) (r : loc) : list Moment :=
  match h !! r with
  | Some (MomentArray l) => l
  | _ => []
  end.

Definition footprints_at (h : gmap loc array) (r : loc) : list Footprint :=
  match h !! r with
  | Some (FootprintArray l) => l
  | _ => []
  end.

Definition entries_at (h : gmap loc array) (r : loc) : list TimelineEntry :=
  match h !! r with
  | Some (EntryArray l) => l
  | _ => []
  end.

(** The elements of an array, as an iteration reads them. *)
Definition read_moments (r : loc) : M (list Moment) :=
  fun h => (moments_at h r, h).

Definition read_footprints (r : loc) : M (list Footprint) :=
  fun h => (footprints_at h r, h).

(** An array literal or a spread: a new array with the given elements. *)
Definition new_array (a : array) : M loc :=
  fun h => let r := fresh (dom h) in (r, <[r := a]> h).

(** [[...a]] on an array of footprints *)
Definition spread_footprints (r : loc) : M loc :=
  l <- read_footprints r ;; new_array (FootprintArray l).

(** [a.sort(comparefn)] on an array of footprints: sorts [a] itself and
    returns it.  The types of the component let [r] be nothing but an
    array of footprints; elsewhere the store stays as it is. *)
Definition sort_footprints (comparefn : Footprint -> Footprint -> number)
    (r : loc) : M loc :=
  fun h =>
    (r, match h !! r with
        | Some (FootprintArray l) => <[r := FootprintArray (Array_sort comparefn l)]> h
        | _ => h
        end).

(** [a.sort(comparefn)] on an array of entries *)
Definition sort_entries (comparefn : TimelineEntry -> TimelineEntry -> number)
    (r : loc) : M loc :=
  fun h =>
    (r, match h !! r with
        | Some (EntryArray l) => <[r := EntryArray (Array_sort comparefn l)]> h
        | _ => h
        end).

(** [a.push(it)] on an array of entries *)
Definition push_entry (r : loc) (it : TimelineEntry) : M unit :=
  fun h =>
    (tt, match h !! r with
         | Some (EntryArray l) => <[r := EntryArray (l ++ [it])%list]> h
         | _ => h
         end).

(** [for (const x of xs)] with the loop's locals in [s].  The two loops
    of [entries] write to [out] only, which is not the array they run
    over, so a loop meets the elements its array had when it began. *)
Fixpoint for_of {A S : Type} (xs : list A) (body : S -> A -> M S) (s : S) : M S :=
  match xs with
  | [] => ret s
  | x :: xs' => s' <- body s x ;; for_of xs' body s'
  end.

(* ===================================================================== *)
(** ** Values that may be missing, answers of the data base *)
(* ===================================================================== *)

(** [ToBoolean] of a value of type [string | null | undefined]: the
    missing value and the empty string are false. *)
Definition truthy (s : option string) : bool :=
  match s with
  | Some s => negb (String.eqb s "")
  | None => false
  end.

(** [a || b] on such values. *)
Definition or_else (a b : option string) : option string :=
  if truthy a then a else b.

(** What a query of the data base resolves to: [data], an array or
    [null], and [error], [null] or an object with a [message]. *)
Record Response (A : Type) : Type := {
  res_data : option (list A);
  res_error : option string;
}.
Arguments res_data {A} _.
Arguments res_error {A} _.

(* ===================================================================== *)
(** ** The map of the journey ([MapSection.tsx]) *)
(* ===================================================================== *)

Module MapSection.

Record Post : Type := {
  p_id : string;
  p_trip_id : string;
  p_type : string;
  p_lat : Q;
  p_lng : Q;
  p_accuracy_m : option Q;
  p_created_at : string;
  p_place_text : option string;
  p_moment_id : option string;
}.

(** The moments of the map; [text] may be [null] here. *)
Record Moment : Type := {
  m_id : string;
  m_trip_id : string;
  m_user_id : string;
  m_text : option string;
  m_photo_path : option string;
  m_created_at : string;
}.

Record MomentMarker : Type := {
  moment : Moment;
  post : Post;
}.

Definition LatLng : Type := (Q * Q)%type.

Definition position (p : Post) : LatLng := (p_lat p, p_lng p).

Definition routeLatLngs (posts : list Post) : list LatLng := List.map position posts.

(** [new Map(moments.map((m) => [m.id, m]))]: the entries are set in
    their order, a later one replacing an earlier one of the same key. *)
Definition momentsById (moments : list Moment) : list (string * Moment) :=
  fold_left (fun map m => Map_set (m_id m) m map) moments [].

Definition linkedPosts (posts : list Post) : list Post :=
  List.filter (fun p => truthy (p_moment_id p)) posts.

(** One turn of the loop over [linkedPosts]. *)
Definition marker_step (momentsById : list (string * Moment))
    (markers : list MomentMarker) (p : Post) : list MomentMarker :=
  let m :=
    if truthy (p_moment_id p)
    then match p_moment_id p with
         | Some id => Map_get id momentsById
         | None => None
         end
    else None in
  match m with
  | Some m => (markers ++ [{| moment := m; post := p |}])%list
  | None => markers
  end.

(** The memo [momentMarkers]. *)
Definition momentMarkers (posts : list Post) (moments : list Moment)
    : list MomentMarker :=
  fold_left (marker_step (momentsById moments)) (linkedPosts posts) [].

Definition hasAnyPoints (posts : list Post) (momentMarkers : list MomentMarker) : bool :=
  (0 <? length posts)%nat || (0 <? length momentMarkers)%nat.

(** [routeLatLngs[0] ?? [51.5072, -0.1276]] *)
Definition fallbackCentre (routeLatLngs : list LatLng) : LatLng :=
  match routeLatLngs with
  | pt :: _ => pt
  | [] => (515072 # 10000, - 1276 # 10000)%Q
  end.

(** The effect of [FitToPoints]: the points handed to [fitBounds], or
    nothing when there is no point. *)
Definition FitToPoints (posts : list Post) (momentMarkers : list MomentMarker)
    : option (list LatLng) :=
  let points :=
    (List.map position posts ++ List.map (fun mm => position (post mm)) momentMarkers)%list in
  if (length points =? 0)%nat then None else Some points.

(** The state of the component. *)
Record State : Type := {
  loading : bool;
  errorText : option string;
  posts : list Post;
  moments : list Moment;
}.

Definition initial : State :=
  {| loading := true; errorText := None; posts := []; moments := [] |}.

Definition setLoading (v : bool) (st : State) : State :=
  {| loading := v; errorText := errorText st; posts := posts st; moments := moments st |}.

Definition setErrorText (v : option string) (st : State) : State :=
  {| loading := loading st; errorText := v; posts := posts st; moments := moments st |}.

Definition setPosts (v : list Post) (st : State) : State :=
  {| loading := loading st; errorText := errorText st; posts := v; moments := moments st |}.

Definition setMoments (v : list Moment) (st : State) : State :=
  {| loading := loading st; errorText := errorText st; posts := posts st; moments := v |}.

(** The state while [load] waits for the data base. *)
Definition load_pending (st : State) : State := setErrorText None (setLoading true st).

(** One run of [load] to its end, from the answers of the two queries;
    [cancelled] is the flag as [load] finds it after waiting.  The
    moments are asked for only when the posts have come. *)
Definition load (postsRes : Response Post) (momentsRes : Response Moment)
    (cancelled : bool) (st : State) : State :=
  let st := load_pending st in
  match res_error postsRes with
  | Some message =>
      if negb cancelled
      then setLoading false
             (setErrorText
                (Some (String.append "Could not load map locations: " message)) st)
      else st
  | None =>
      match res_error momentsRes with
      | Some message =>
          if negb cancelled
          then setLoading false
                 (setErrorText (Some (String.append "Could not load moments: " message)) st)
          else st
      | None =>
          if negb cancelled
          then setLoading false
                 (setMoments (default [] (res_data momentsRes))
                    (setPosts (default [] (res_data postsRes)) st))
          else st
      end
  end.

(** What the component returns. *)
Inductive View : Type :=
  | view_loading
  | view_error (errorText : string)
  | view_no_locations
  | view_map (center : LatLng) (dots : list LatLng) (route : option (list LatLng))
      (markers : list MomentMarker) (fitBounds : option (list LatLng)).

Definition render (st : State) : View :=
  let routeLatLngs := routeLatLngs (posts st) in
  let momentMarkers := momentMarkers (posts st) (moments st) in
  if loading st then view_loading
  else if truthy (errorText st) then view_error (default "" (errorText st))
  else if negb (hasAnyPoints (posts st) momentMarkers) then view_no_locations
  else
    view_map (fallbackCentre routeLatLngs)
      (List.map position (posts st))
      (if (2 <=? length routeLatLngs)%nat then Some routeLatLngs else None)
      momentMarkers
      (FitToPoints (posts st) momentMarkers).

End MapSection.

(** The moment a post is linked to, as one turn of the loop finds it. *)
Definition linked_moment (moments : list MapSection.Moment) (p : MapSection.Post)
    : option MapSection.Moment :=
  if truthy (MapSection.p_moment_id p)
  then match MapSection.p_moment_id p with
       | Some id => Map_get id (MapSection.momentsById moments)
       | None => None
       end
  else None.

(* ===================================================================== *)
(** ** Writing and keeping moments ([MomentsSection.tsx]) *)
(* ===================================================================== *)

(** How a promise settles: resolved with a value, or rejected with a
    thrown value, of which the code reads [e?.message] only. *)
Inductive Settled (A : Type) : Type :=
  | resolved (a : A)
  | rejected (message : option string).
Arguments resolved {A} _.
Arguments rejected {A} _.

(** [s.includes(needle)] *)
Fixpoint String_includes (needle s : string) : bool :=
  String.prefix needle s ||
  match s with
  | EmptyString => false
  | String _ s' => String_includes needle s'
  end.

(** [s.split(sep)] for a separator of one character. *)
Fixpoint String_split (sep : ascii) (s : string) : list string :=
  match s with
  | EmptyString => [EmptyString]
  | String c s' =>
      if Ascii.eqb c sep then EmptyString :: String_split sep s'
      else match String_split sep s' with
           | h :: t => String c h :: t
           | [] => [String c EmptyString]
           end
  end.

(** [parts.join(sep)] *)
Fixpoint Array_join (sep : string) (parts : list string) : string :=
  match parts with
  | [] => EmptyString
  | [p] => p
  | p :: rest => String.append p (String.append sep (Array_join sep rest))
  end.

Declare Scope flow_scope.
Delimit Scope flow_scope with flow.

Module MomentsSection.

Inductive SaveStatus : Type := idle | saving | saved | error.

Inductive Mode : Type := mode_compose | mode_list | mode_both.

(** Of a [File] the code reads the [name]. *)
Record File : Type := { name : string }.

(** The props; [onSaved] tells whether a callback is given. *)
Record Props : Type := {
  tripId : string;
  mode : Mode;
  onSaved : bool;
  disabled : bool;
}.

Definition showCompose (props : Props) : bool :=
  match mode props with
  | mode_compose | mode_both => true
  | mode_list => false
  end.

Definition showList (props : Props) : bool :=
  match mode props with
  | mode_list | mode_both => true
  | mode_compose => false
  end.

(** The state of the component, with its two refs: [savedTimerRef]
    holds the id of a timer or [null], [fileInputRef] tells whether the
    file input is mounted. *)
Record State : Type := {
  moments : list Moment;
  loading : bool;
  listError : string;
  text : string;
  file : option File;
  uploadedPhotoUrl : option string;
  previewUrl : option string;
  saveStatus : SaveStatus;
  saveMessage : string;
  deletingId : option string;
  editingId : option string;
  editText : string;
  savingEdit : bool;
  savedTimerRef : option Z;
  fileInputRef : bool;
}.

Definition setMoments (v : list Moment) (st : State) : State :=
  {| moments := v; loading := loading st; listError := listError st; text := text st;
     file := file st; uploadedPhotoUrl := uploadedPhotoUrl st;
     previewUrl := previewUrl st; saveStatus := saveStatus st;
     saveMessage := saveMessage st; deletingId := deletingId st;
     editingId := editingId st; editText := editText st; savingEdit := savingEdit st;
     savedTimerRef := savedTimerRef st; fileInputRef := fileInputRef st |}.

Definition setLoading (v : bool) (st : State) : State :=
  {| moments := moments st; loading := v; listError := listError st; text := text st;
     file := file st; uploadedPhotoUrl := uploadedPhotoUrl st;
     previewUrl := previewUrl st; saveStatus := saveStatus st;
     saveMessage := saveMessage st; deletingId := deletingId st;
     editingId := editingId st; editText := editText st; savingEdit := savingEdit st;
     savedTimerRef := savedTimerRef st; fileInputRef := fileInputRef st |}.

Definition setListError (v : string) (st : State) : State :=
  {| moments := moments st; loading := loading st; listError := v; text := text st;
     file := file st; uploadedPhotoUrl := uploadedPhotoUrl st;
     previewUrl := previewUrl st; saveStatus := saveStatus st;
     saveMessage := saveMessage st; deletingId := deletingId st;
     editingId := editingId st; editText := editText st; savingEdit := savingEdit st;
     savedTimerRef := savedTimerRef st; fileInputRef := fileInputRef st |}.

Definition setText (v : string) (st : State) : State :=
  {| moments := moments st; loading := loading st; listError := listError st;
     text := v; file := file st; uploadedPhotoUrl := uploadedPhotoUrl st;
     previewUrl := previewUrl st; saveStatus := saveStatus st;
     saveMessage := saveMessage st; deletingId := deletingId st;
     editingId := editingId st; editText := editText st; savingEdit := savingEdit st;
     savedTimerRef := savedTimerRef st; fileInputRef := fileInputRef st |}.

Definition setFile (v : option File) (st : State) : State :=
  {| moments := moments st; loading := loading st; listError := listError st;
     text := text st; file := v; uploadedPhotoUrl := uploadedPhotoUrl st;
     previewUrl := previewUrl st; saveStatus := saveStatus st;
     saveMessage := saveMessage st; deletingId := deletingId st;
     editingId := editingId st; editText := editText st; savingEdit := savingEdit st;
     savedTimerRef := savedTimerRef st; fileInputRef := fileInputRef st |}.

Definition setUploadedPhotoUrl (v : option string) (st : State) : State :=
  {| moments := moments st; loading := loading st; listError := listError st;
     text := text st; file := file st; uploadedPhotoUrl := v;
     previewUrl := previewUrl st; saveStatus := saveStatus st;
     saveMessage := saveMessage st; deletingId := deletingId st;
     editingId := editingId st; editText := editText st; savingEdit := savingEdit st;
     savedTimerRef := savedTimerRef st; fileInputRef := fileInputRef st |}.

Definition setPreviewUrl (v : option string) (st : State) : State :=
  {| moments := moments st; loading := loading st; listError := listError st;
     text := text st; file := file st; uploadedPhotoUrl := uploadedPhotoUrl st;
     previewUrl := v; saveStatus := saveStatus st; saveMessage := saveMessage st;
     deletingId := deletingId st; editingId := editingId st; editText := editText st;
     savingEdit := savingEdit st; savedTimerRef := savedTimerRef st;
     fileInputRef := fileInputRef st |}.

Definition setSaveStatus (v : SaveStatus) (st : State) : State :=
  {| moments := moments st; loading := loading st; listError := listError st;
     text := text st; file := file st; uploadedPhotoUrl := uploadedPhotoUrl st;
     previewUrl := previewUrl st; saveStatus := v; saveMessage := saveMessage st;
     deletingId := deletingId st; editingId := editingId st; editText := editText st;
     savingEdit := savingEdit st; savedTimerRef := savedTimerRef st;
     fileInputRef := fileInputRef st |}.

Definition setSaveMessage (v : string) (st : State) : State :=
  {| moments := moments st; loading := loading st; listError := listError st;
     text := text st; file := file st; uploadedPhotoUrl := uploadedPhotoUrl st;
     previewUrl := previewUrl st; saveStatus := saveStatus st; saveMessage := v;
     deletingId := deletingId st; editingId := editingId st; editText := editText st;
     savingEdit := savingEdit st; savedTimerRef := savedTimerRef st;
     fileInputRef := fileInputRef st |}.

Definition setDeletingId (v : option string) (st : State) : State :=
  {| moments := moments st; loading := loading st; listError := listError st;
     text := text st; file := file st; uploadedPhotoUrl := uploadedPhotoUrl st;
     previewUrl := previewUrl st; saveStatus := saveStatus st;
     saveMessage := saveMessage st; deletingId := v; editingId := editingId st;
     editText := editText st; savingEdit := savingEdit st;
     savedTimerRef := savedTimerRef st; fileInputRef := fileInputRef st |}.

Definition setEditingId (v : option string) (st : State) : State :=
  {| moments := moments st; loading := loading st; listError := listError st;
     text := text st; file := file st; uploadedPhotoUrl := uploadedPhotoUrl st;
     previewUrl := previewUrl st; saveStatus := saveStatus st;
     saveMessage := saveMessage st; deletingId := deletingId st; editingId := v;
     editText := editText st; savingEdit := savingEdit st;
     savedTimerRef := savedTimerRef st; fileInputRef := fileInputRef st |}.

Definition setEditText (v : string) (st : State) : State :=
  {| moments := moments st; loading := loading st; listError := listError st;
     text := text st; file := file st; uploadedPhotoUrl := uploadedPhotoUrl st;
     previewUrl := previewUrl st; saveStatus := saveStatus st;
     saveMessage := saveMessage st; deletingId := deletingId st;
     editingId := editingId st; editText := v; savingEdit := savingEdit st;
     savedTimerRef := savedTimerRef st; fileInputRef := fileInputRef st |}.

Definition setSavingEdit (v : bool) (st : State) : State :=
  {| moments := moments st; loading := loading st; listError := listError st;
     text := text st; file := file st; uploadedPhotoUrl := uploadedPhotoUrl st;
     previewUrl := previewUrl st; saveStatus := saveStatus st;
     saveMessage := saveMessage st; deletingId := deletingId st;
     editingId := editingId st; editText := editText st; savingEdit := v;
     savedTimerRef := savedTimerRef st; fileInputRef := fileInputRef st |}.

Definition setSavedTimerRef (v : option Z) (st : State) : State :=
  {| moments := moments st; loading := loading st; listError := listError st;
     text := text st; file := file st; uploadedPhotoUrl := uploadedPhotoUrl st;
     previewUrl := previewUrl st; saveStatus := saveStatus st;
     saveMessage := saveMessage st; deletingId := deletingId st;
     editingId := editingId st; editText := editText st; savingEdit := savingEdit st;
     savedTimerRef := v; fileInputRef := fileInputRef st |}.

(** *** The place of a position *)

(** The [address] of an answer of the geocoder, as far as it is read. *)
Record Address : Type := {
  suburb : option string;
  neighbourhood : option string;
  village : option string;
  town : option string;
  city_district : option string;
  hamlet : option string;
  city : option string;
  county : option string;
  state : option string;
}.

Record Geocoded : Type := {
  address : option Address;
  display_name : option string;
}.

(** [{}] *)
Definition no_address : Address :=
  {| suburb := None; neighbourhood := None; village := None; town := None;
     city_district := None; hamlet := None; city := None; county := None;
     state := None |}.

(** The array [parts] after the four conditional pushes. *)
Definition parts_of (a : Address) : list string :=
  let locality :=
    or_else (or_else (or_else (or_else (or_else (suburb a) (neighbourhood a)) (village a))
                        (town a)) (city_district a)) (hamlet a) in
  let city := or_else (or_else (city a) (town a)) (village a) in
  let county := county a in
  let state := state a in
  let parts := if truthy locality then [default "" locality] else [] in
  if truthy city && negb (bool_decide (city = locality))
  then (parts ++ [default "" city])%list
  else if negb (truthy city) && truthy county
  then (parts ++ [default "" county])%list
  else if negb (truthy city) && negb (truthy county) && truthy state
  then (parts ++ [default "" state])%list
  else parts.

(** What [reverseGeocode] makes of the parsed answer [json]. *)
Definition label_of (json : option Geocoded) : option string :=
  let a := default no_address (mbind address json) in
  let parts := parts_of a in
  let label := Array_join ", " (List.filter (fun s => negb (String.eqb s "")) parts) in
  or_else (or_else (Some label) (mbind display_name json)) None.

(** How [fetch] and [res.json()] come out: [fetch] throws, or answers
    with [res.ok] and a body that parses to a value or throws. *)
Inductive Fetched : Type :=
  | fetch_rejected
  | fetch_resolved (ok : bool) (json : Settled (option Geocoded)).

Definition reverseGeocode (r : Fetched) : option string :=
  match r with
  | fetch_rejected => None
  | fetch_resolved false _ => None
  | fetch_resolved true (rejected _) => None
  | fetch_resolved true (resolved json) => label_of json
  end.

(** *** The calls of the component and their answers *)

Record Coords : Type := {
  lat : Q;
  lng : Q;
  accuracy : Q;
}.

(** The calls that leave the component, in the order they are made, and
    beside them the run of the callback of a timer, which the window
    starts while the handler waits. *)
Inductive Effect : Type :=
  | auth_getUser
  | crypto_randomUUID
  | storage_upload (path : string) (file : File)
  | storage_getPublicUrl (path : string)
  | moments_insert (trip_id user_id text : string) (photo_path : option string)
  | getBrowserLocation
  | fetch_reverse (lat lng : Q)
  | posts_insert (trip_id : string) (lat lng accuracy_m : Q)
      (place_text : option string) (moment_id : string)
  | moments_select (trip_id : string)
  | moments_update (id text : string)
  | posts_delete (moment_id : string)
  | moments_delete (id : string)
  | window_confirm
  | call_onSaved
  | URL_revokeObjectURL (url : string)
  | fileInput_clear
  | window_clearTimeout (id : Z)
  | window_setTimeout (id : Z) (delay : Z)
  | timer_callback (id : Z).

(** What the world answers during one run of a handler; every call is
    made at most once in a run.  A call of the data base resolves to its
    data beside its [error], which is [null] or has a [message], or it
    is rejected.  An answer may take any time: [ans_timer] says of each
    awaited call whether a pending timer of the saved message runs out
    before the answer is there. *)
Record Answers : Type := {
  (* window.confirm *)
  ans_confirm : bool;
  (* auth.getUser: [data.user?.id] and [error?.message] *)
  ans_getUser : Settled (option string * option string);
  (* crypto.randomUUID *)
  ans_randomUUID : string;
  (* storage upload: [error?.message] *)
  ans_upload : Settled (option string);
  (* storage getPublicUrl: [data.publicUrl] *)
  ans_publicUrl : string;
  (* insert into moments: [data.id] and [error?.message] *)
  ans_insert : Settled (string * option string);
  (* getBrowserLocation: the position or [null] *)
  ans_position : Settled (option Coords);
  (* fetch of the geocoder *)
  ans_fetch : Fetched;
  (* insert into posts; the code does not read its answer *)
  ans_insertPost : Settled unit;
  (* select from moments *)
  ans_select : Settled (Response Moment);
  (* update of moments, delete from posts, delete from moments:
     [error?.message] *)
  ans_update : Settled (option string);
  ans_deletePosts : Settled (option string);
  ans_deleteMoment : Settled (option string);
  (* window.setTimeout: the id of the timer *)
  ans_setTimeout : Z;
  (* the 2500 ms of the timer are over before the call is answered *)
  ans_timer : Effect -> bool;
}.

(** *** Handlers as programs

    A handler runs on the state and the list of the calls made so far,
    and completes normally or by a throw. *)
Inductive Completion (A : Type) : Type :=
  | normal (a : A)
  | abrupt (message : option string).
Arguments normal {A} _.
Arguments abrupt {A} _.

Definition World : Type := (State * list Effect)%type.

Definition F (A : Type) : Type := Answers -> World -> Completion A * World.

Definition ret {A : Type} (a : A) : F A := fun _ w => (normal a, w).

Definition bind {A B : Type} (c : F A) (k : A -> F B) : F B :=
  fun ans w =>
    match c ans w with
    | (normal a, w') => k a ans w'
    | (abrupt m, w') => (abrupt m, w')
    end.

#[local] Notation "x <- c ;; k" := (bind c (fun x => k))
  (at level 100, c at next level, right associativity) : flow_scope.
#[local] Notation "c ;;; k" := (bind c (fun _ => k))
  (at level 100, right associativity) : flow_scope.
#[local] Open Scope flow_scope.

Definition throw {A : Type} (m : option string) : F A := fun _ w => (abrupt m, w).

(** [try { body } catch (e) { handler }] *)
Definition try_catch {A : Type} (body : F A) (handler : option string -> F A) : F A :=
  fun ans w =>
    match body ans w with
    | (abrupt m, w') => handler m ans w'
    | r => r
    end.

(** [try { body } finally { final }] *)
Definition try_finally {A : Type} (body : F A) (final : F unit) : F A :=
  fun ans w =>
    match body ans w with
    | (r, w') =>
        match final ans w' with
        | (normal _, w'') => (r, w'')
        | (abrupt m, w'') => (abrupt m, w'')
        end
    end.

(** A setter of the state. *)
Definition set (f : State -> State) : F unit :=
  fun _ w => (normal tt, (f (fst w), snd w)).

(** The current value of a ref. *)
Definition current {A : Type} (f : State -> A) : F A :=
  fun _ w => (normal (f (fst w)), w).

Definition perform (e : Effect) : F unit :=
  fun _ w => (normal tt, (fst w, (snd w ++ [e])%list)).

Definition answer {A : Type} (f : Answers -> A) : F A :=
  fun ans w => (normal (f ans), w).

(** What the timer of [showSavedBriefly] does when it fires. *)
Definition savedTimerFired (st : State) : State :=
  setSavedTimerRef None (setSaveMessage "" (setSaveStatus idle st)).

(** The handler waits for the answer to the call [e]: the timer that
    [savedTimerRef] names, if there is one, fires meanwhile when the
    answer is slow enough. *)
Definition timer_may_fire (e : Effect) : F unit :=
  cur <- current savedTimerRef ;;
  fires <- answer (fun ans => ans_timer ans e) ;;
  match cur with
  | Some id =>
      if fires then perform (timer_callback id) ;;; set savedTimerFired
      else ret tt
  | None => ret tt
  end.

(** [await] of a call. *)
Definition await {A : Type} (e : Effect) (f : Answers -> Settled A) : F A :=
  perform e ;;;
  timer_may_fire e ;;;
  r <- answer f ;;
  match r with
  | resolved a => ret a
  | rejected m => throw m
  end.

(** [if (error) throw error] *)
Definition throw_if (error : option string) : F unit :=
  match error with
  | Some message => throw (Some message)
  | None => ret tt
  end.

Section Strings.
(** [String.prototype.toLowerCase] and [String.prototype.trim]. *)
Variable toLowerCase : string -> string.
Variable trim : string -> string.

Definition calmErrorMessage (e : option string) : string :=
  let raw := default "" e in
  let msg := toLowerCase raw in
  if String_includes "failed to fetch" msg ||
     String_includes "load failed" msg ||
     String_includes "network" msg ||
     String_includes "fetcherror" msg ||
     String_includes "the internet connection appears to be offline" msg
  then "Couldn’t reach the network. Your moment is still here — try again when you have signal."
  else if String.eqb raw "" then "Something went wrong while saving." else raw.

Definition clearSavedTimer : F unit :=
  cur <- current savedTimerRef ;;
  match cur with
  | Some id =>
      if id =? 0 then ret tt
      else perform (window_clearTimeout id) ;;; set (setSavedTimerRef None)
  | None => ret tt
  end.

Definition showSavedBriefly : F unit :=
  clearSavedTimer ;;;
  id <- answer ans_setTimeout ;;
  perform (window_setTimeout id 2500) ;;;
  set (setSavedTimerRef (Some id)).

Definition loadMoments (currentTripId : string) : F unit :=
  set (setLoading true) ;;;
  set (setListError "") ;;;
  r <- await (moments_select currentTripId) ans_select ;;
  match res_error r with
  | Some message => set (setListError message) ;;; set (setMoments [])
  | None => set (setMoments (default [] (res_data r)))
  end ;;;
  set (setLoading false).

(** The handlers read the state of the render they were made in,
    [snap], and write through the setters. *)
Definition removeSelectedPhoto (snap : State) : F unit :=
  set (setFile None) ;;;
  set (setUploadedPhotoUrl None) ;;;
  (if truthy (previewUrl snap)
   then perform (URL_revokeObjectURL (default "" (previewUrl snap))) ;;;
        set (setPreviewUrl None)
   else ret tt) ;;;
  isMounted <- current fileInputRef ;;
  if isMounted then perform fileInput_clear else ret tt.

Definition uploadPhotoIfAny (props : Props) (snap : State) (userId : string)
    : F (option string) :=
  if truthy (uploadedPhotoUrl snap) then ret (uploadedPhotoUrl snap)
  else
    match file snap with
    | None => ret None
    | Some file =>
        let popped := toLowerCase (List.last (String_split "." (name file)) EmptyString) in
        let ext := if String.eqb popped "" then "jpg" else popped in
        perform crypto_randomUUID ;;;
        uuid <- answer ans_randomUUID ;;
        let path :=
          String.append userId
            (String.append "/" (String.append (tripId props)
               (String.append "/" (String.append uuid (String.append "." ext))))) in
        uploadError <- await (storage_upload path file) ans_upload ;;
        throw_if uploadError ;;;
        perform (storage_getPublicUrl path) ;;;
        publicUrl <- answer ans_publicUrl ;;
        set (setUploadedPhotoUrl (Some publicUrl)) ;;;
        ret (Some publicUrl)
    end.

(** The footprint of a new moment, inside its own [try]. *)
Definition footprint_of_moment (props : Props) (newMomentId : string) : F unit :=
  try_catch
    (loc <- await getBrowserLocation ans_position ;;
     match loc with
     | Some loc =>
         perform (fetch_reverse (lat loc) (lng loc)) ;;;
         timer_may_fire (fetch_reverse (lat loc) (lng loc)) ;;;
         fetched <- answer ans_fetch ;;
         let placeText := reverseGeocode fetched in
         await (posts_insert (tripId props) (lat loc) (lng loc) (accuracy loc)
                  placeText newMomentId) ans_insertPost
     | None => ret tt
     end)
    (fun _ => ret tt).

Definition addMoment (props : Props) (snap : State) : F unit :=
  if disabled props then ret tt
  else
    let trimmed := trim (text snap) in
    set (setListError "") ;;;
    set (setSaveMessage "") ;;;
    if String.eqb trimmed "" && negb (bool_decide (is_Some (file snap))) &&
       negb (truthy (uploadedPhotoUrl snap))
    then
      set (setSaveStatus error) ;;;
      set (setSaveMessage "Add a few words or a photo.")
    else
      set (setSaveStatus saving) ;;;
      set (setSaveMessage "Saving…") ;;;
      try_catch
        (user <- await auth_getUser ans_getUser ;;
         throw_if (snd user) ;;;
         let userId := fst user in
         if negb (truthy userId)
         then
           set (setSaveStatus error) ;;;
           set (setSaveMessage "Please sign in to add a moment.")
         else
           photoUrl <- uploadPhotoIfAny props snap (default "" userId) ;;
           inserted <- await (moments_insert (tripId props) (default "" userId)
                                trimmed photoUrl) ans_insert ;;
           throw_if (snd inserted) ;;;
           let newMomentId := fst inserted in
           footprint_of_moment props newMomentId ;;;
           set (setText "") ;;;
           removeSelectedPhoto snap ;;;
           set (setSaveStatus saved) ;;;
           set (setSaveMessage "Saved ✓") ;;;
           showSavedBriefly ;;;
           (if showList props then loadMoments (tripId props) else ret tt) ;;;
           (if onSaved props then perform call_onSaved else ret tt))
        (fun e =>
           set (setSaveStatus error) ;;;
           set (setSaveMessage (calmErrorMessage e))).

Definition startEdit (m : Moment) : F unit :=
  set (setListError "") ;;;
  set (setEditingId (Some (m_id m))) ;;;
  set (setEditText (m_text m)).

Definition cancelEdit : F unit :=
  set (setEditingId None) ;;;
  set (setEditText "").

Definition saveEdit (props : Props) (snap : State) (m : Moment) : F unit :=
  let trimmed := trim (editText snap) in
  if String.eqb trimmed "" then set (setListError "Moment text cannot be empty.")
  else
    set (setSavingEdit true) ;;;
    set (setListError "") ;;;
    try_finally
      (try_catch
         (updErr <- await (moments_update (m_id m) trimmed) ans_update ;;
          throw_if updErr ;;;
          cancelEdit ;;;
          (if showList props then loadMoments (tripId props) else ret tt) ;;;
          (if onSaved props then perform call_onSaved else ret tt))
         (fun e => set (setListError (default "Edit failed." e))))
      (set (setSavingEdit false)).

Definition deleteMoment (props : Props) (snap : State) (m : Moment) : F unit :=
  perform window_confirm ;;;
  ok <- answer ans_confirm ;;
  if negb ok then ret tt
  else
    set (setDeletingId (Some (m_id m))) ;;;
    set (setListError "") ;;;
    try_finally
      (try_catch
         (fpErr <- await (posts_delete (m_id m)) ans_deletePosts ;;
          throw_if fpErr ;;;
          mErr <- await (moments_delete (m_id m)) ans_deleteMoment ;;
          throw_if mErr ;;;
          (if bool_decide (editingId snap = Some (m_id m)) then cancelEdit else ret tt) ;;;
          (if showList props then loadMoments (tripId props) else ret tt) ;;;
          (if onSaved props then perform call_onSaved else ret tt))
         (fun e => set (setListError (default "Delete failed." e))))
      (set (setDeletingId None)).

(** One run of a handler from the state [st] of a render, to its end:
    the state and the calls it leaves.  The answers say how each call
    comes out and which of them outlasts the timer of the saved
    message. *)
Definition run (handler : State -> F unit) (ans : Answers) (st : State) : World :=
  snd (handler st ans (st, [])).

End Strings.

End MomentsSection.

(** *** Vocabulary of the properties of the handlers *)

(** The calls of [clearSavedTimer], from the value of the ref. *)
Definition clear_calls (r : option Z) : list MomentsSection.Effect :=
  match r with
  | Some id => if id =? 0 then [] else [MomentsSection.window_clearTimeout id]
  | None => []
  end.

(** The calls of [removeSelectedPhoto], from the preview of the render
    and the ref of the file input. *)
Definition remove_calls (snap : MomentsSection.State) (isMounted : bool)
    : list MomentsSection.Effect :=
  ((if truthy (MomentsSection.previewUrl snap)
    then [MomentsSection.URL_revokeObjectURL (default "" (MomentsSection.previewUrl snap))]
    else []) ++
   (if isMounted then [MomentsSection.fileInput_clear] else []))%list.

(** The calls awaited for the footprint of a new moment. *)
Definition footprint_calls (props : MomentsSection.Props) (newMomentId : string)
    (ans : MomentsSection.Answers) : list MomentsSection.Effect :=
  MomentsSection.getBrowserLocation ::
  match MomentsSection.ans_position ans with
  | resolved (Some loc) =>
      [MomentsSection.fetch_reverse (MomentsSection.lat loc) (MomentsSection.lng loc);
       MomentsSection.posts_insert (MomentsSection.tripId props)
         (MomentsSection.lat loc) (MomentsSection.lng loc) (MomentsSection.accuracy loc)
         (MomentsSection.reverseGeocode (MomentsSection.ans_fetch ans)) newMomentId]
  | _ => []
  end.

(** The state when a call is answered, from the state when it was made:
    the timer that the ref names has fired meanwhile, or not. *)
Definition waited (fires : bool) (st : MomentsSection.State) : MomentsSection.State :=
  let fired :=
    match MomentsSection.savedTimerRef st with
    | Some _ => fires
    | None => false
    end in
  {| MomentsSection.moments := MomentsSection.moments st;
     MomentsSection.loading := MomentsSection.loading st;
     MomentsSection.listError := MomentsSection.listError st;
     MomentsSection.text := MomentsSection.text st;
     MomentsSection.file := MomentsSection.file st;
     MomentsSection.uploadedPhotoUrl := MomentsSection.uploadedPhotoUrl st;
     MomentsSection.previewUrl := MomentsSection.previewUrl st;
     MomentsSection.saveStatus :=
       if fired then MomentsSection.idle else MomentsSection.saveStatus st;
     MomentsSection.saveMessage := if fired then "" else MomentsSection.saveMessage st;
     MomentsSection.deletingId := MomentsSection.deletingId st;
     MomentsSection.editingId := MomentsSection.editingId st;
     MomentsSection.editText := MomentsSection.editText st;
     MomentsSection.savingEdit := MomentsSection.savingEdit st;
     MomentsSection.savedTimerRef :=
       if fired then None else MomentsSection.savedTimerRef st;
     MomentsSection.fileInputRef := MomentsSection.fileInputRef st |}.

(** The run of the callback of the timer during a wait, from the value
    of the ref. *)
Definition wait_calls (fires : bool) (r : option Z) : list MomentsSection.Effect :=
  match r with
  | Some id => if fires then [MomentsSection.timer_callback id] else []
  | None => []
  end.

(** The state after the calls [es], each awaited in its turn, and what
    they leave in the list of the calls. *)
Definition awaited (ans : MomentsSection.Answers) (es : list MomentsSection.Effect)
    (st : MomentsSection.State) : MomentsSection.State :=
  fold_left (fun st e => waited (MomentsSection.ans_timer ans e) st) es st.

Fixpoint await_calls (ans : MomentsSection.Answers) (es : list MomentsSection.Effect)
    (st : MomentsSection.State) : list MomentsSection.Effect :=
  match es with
  | [] => []
  | e :: es =>
      e :: (wait_calls (MomentsSection.ans_timer ans e) (MomentsSection.savedTimerRef st) ++
            await_calls ans es (waited (MomentsSection.ans_timer ans e) st))%list
  end.

(** The state [loadMoments] leaves when the query is answered. *)
Definition loaded (r : Response Moment) (fires : bool) (st : MomentsSection.State)
    : MomentsSection.State :=
  let st :=
    waited fires (MomentsSection.setListError "" (MomentsSection.setLoading true st)) in
  MomentsSection.setLoading false
    match res_error r with
    | Some message => MomentsSection.setMoments [] (MomentsSection.setListError message st)
    | None => MomentsSection.setMoments (default [] (res_data r)) st
    end.

(** The timers of the window that are pending after a call. *)
Definition timers_after (pending : gset Z) (e : MomentsSection.Effect) : gset Z :=
  match e with
  | MomentsSection.window_clearTimeout id => difference pending (singleton id)
  | MomentsSection.window_setTimeout id _ => union pending (singleton id)
  | MomentsSection.timer_callback id => difference pending (singleton id)
  | _ => pending
  end.

(** The ref names the one timer that is pending, if any. *)
Definition one_timer (st : MomentsSection.State) (pending : gset Z) : Prop :=
  match MomentsSection.savedTimerRef st with
  | Some id => id <> 0 /\ pending = singleton id
  | None => pending = empty
  end.

(** A program keeps the ref in step with the timers of the window, of
    which [pending] were there before the first call of the run. *)
Definition keeps_one_timer {A : Type} (pending : gset Z) (c : MomentsSection.F A) : Prop :=
  forall ans w,
    MomentsSection.ans_setTimeout ans <> 0 ->
    one_timer (fst w) (fold_left timers_after (snd w) pending) ->
    one_timer (fst (snd (c ans w))) (fold_left timers_after (snd (snd (c ans w))) pending).

(* ===================================================================== *)
(** ** The host and the data of the examples *)
(* ===================================================================== *)

(** The ISO parser serves as [Date.parse], and local time is UTC. *)
Definition UTC (t : Z) : Z := 0.

Definition mk_moment (id iso : string) : Moment :=
  {| m_id := id; m_trip_id := "trip"; m_user_id := "user"; m_text := id;
     m_photo_path := None; m_created_at := iso |}.

Definition mk_footprint (id iso : string) : Footprint :=
  {| f_id := id; f_trip_id := "trip"; f_type := "breadcrumb";
     f_lat := 0%Q; f_lng := 0%Q; f_accuracy_m := 10%Q;
     f_place_text := None; f_created_at := iso |}.

(** Moments and footprints of the first of June 2024, and some others. *)
Definition m_1000 : Moment := mk_moment "m1" "2024-06-01T10:00:00Z".
Definition m_1030 : Moment := mk_moment "m2" "2024-06-01T10:00:30Z".
Definition m_1000_again : Moment := mk_moment "m3" "2024-06-01T10:00:00Z".
Definition m_next_day : Moment := mk_moment "m4" "2024-06-02T09:00:00Z".
Definition m_bad : Moment := mk_moment "m5" "not a date".
Definition f_1001 : Footprint := mk_footprint "f1" "2024-06-01T10:01:00Z".
Definition f_1015 : Footprint := mk_footprint "f2" "2024-06-01T10:00:15Z".
Definition f_1005 : Footprint := mk_footprint "f3" "2024-06-01T10:05:00Z".
Definition f_bad : Footprint := mk_footprint "f4" "not a date".
Definition f_bad_same_id : Footprint := mk_footprint "f1" "not a date".
Definition f_1000 : Footprint := mk_footprint "f0" "2024-06-01T10:00:00Z".

(** Inputs in no order, in a store that holds a third array. *)
Definition store_1 : gmap loc array :=
  <[1%positive := MomentArray [m_1030; m_1000]]>
    (<[2%positive := FootprintArray [f_1015; f_1005; f_1001]]>
       (<[3%positive := EntryArray []]> empty)).

(** The same contents elsewhere, in a store that holds nothing else. *)
Definition store_2 : gmap loc array :=
  <[5%positive := FootprintArray [f_1015; f_1005; f_1001]]>
    (<[7%positive := MomentArray [m_1030; m_1000]]> empty).

(** [toLowerCase] and [trim] on strings of ASCII characters. *)
Definition lower_char (c : ascii) : ascii :=
  let n := N_of_ascii c in
  if ((65 <=? n) && (n <=? 90))%N then ascii_of_N (n + 32) else c.

Fixpoint lower_ascii (s : string) : string :=
  match s with
  | EmptyString => EmptyString
  | String c s' => String (lower_char c) (lower_ascii s')
  end.

Definition is_space (c : ascii) : bool :=
  let n := N_of_ascii c in
  ((9 <=? n) && (n <=? 13) || (n =? 32))%N.

Fixpoint trim_start (s : string) : string :=
  match s with
  | EmptyString => EmptyString
  | String c s' => if is_space c then trim_start s' else s
  end.

Definition reverse (s : string) : string :=
  string_of_list_ascii (rev (list_ascii_of_string s)).

Definition trim_ascii (s : string) : string :=
  reverse (trim_start (reverse (trim_start s))).

(** A trip with a moment in the draft, signed in at Lourdes. *)
Definition props_1 : MomentsSection.Props :=
  {| MomentsSection.tripId := "t1"; MomentsSection.mode := MomentsSection.mode_both;
     MomentsSection.onSaved := true; MomentsSection.disabled := false |}.

Definition state_1 : MomentsSection.State :=
  {| MomentsSection.moments := []; MomentsSection.loading := false;
     MomentsSection.listError := ""; MomentsSection.text := "  Grotto at dusk ";
     MomentsSection.file := Some {| MomentsSection.name := "Grotto.JPG" |};
     MomentsSection.uploadedPhotoUrl := None; MomentsSection.previewUrl := Some "blob:1";
     MomentsSection.saveStatus := MomentsSection.idle; MomentsSection.saveMessage := "";
     MomentsSection.deletingId := None; MomentsSection.editingId := None;
     MomentsSection.editText := ""; MomentsSection.savingEdit := false;
     MomentsSection.savedTimerRef := Some 4; MomentsSection.fileInputRef := true |}.

Definition lourdes : MomentsSection.Geocoded :=
  {| MomentsSection.address :=
       Some {| MomentsSection.suburb := None; MomentsSection.neighbourhood := None;
               MomentsSection.village := None; MomentsSection.town := Some "Lourdes";
               MomentsSection.city_district := None; MomentsSection.hamlet := None;
               MomentsSection.city := None;
               MomentsSection.county := Some "Hautes-Pyrenees";
               MomentsSection.state := Some "Occitanie" |};
     MomentsSection.display_name := Some "Lourdes, Argeles-Gazost, France" |}.

Definition answers_1 : MomentsSection.Answers :=
  {| MomentsSection.ans_confirm := true;
     MomentsSection.ans_getUser := resolved (Some "u1", None);
     MomentsSection.ans_randomUUID := "r1";
     MomentsSection.ans_upload := resolved None;
     MomentsSection.ans_publicUrl := "https://cdn/u1/t1/r1.jpg";
     MomentsSection.ans_insert := resolved ("mo1", None);
     MomentsSection.ans_position :=
       resolved (Some {| MomentsSection.lat := 43 # 1; MomentsSection.lng := 0 # 1;
                         MomentsSection.accuracy := 12 # 1 |});
     MomentsSection.ans_fetch := MomentsSection.fetch_resolved true (resolved (Some lourdes));
     MomentsSection.ans_insertPost := rejected None;
     MomentsSection.ans_select :=
       resolved {| res_data := Some [mk_moment "mo1" "2024-06-01T10:00:00Z"];
                   res_error := None |};
     MomentsSection.ans_update := resolved None;
     MomentsSection.ans_deletePosts := resolved None;
     MomentsSection.ans_deleteMoment := resolved None;
     MomentsSection.ans_setTimeout := 5;
     MomentsSection.ans_timer := fun _ => false |}.

(** The same, the insert of the moment refused. *)
Definition answers_2 : MomentsSection.Answers :=
  {| MomentsSection.ans_confirm := true;
     MomentsSection.ans_getUser := resolved (Some "u1", None);
     MomentsSection.ans_randomUUID := "r1";
     MomentsSection.ans_upload := resolved None;
     MomentsSection.ans_publicUrl := "https://cdn/u1/t1/r1.jpg";
     MomentsSection.ans_insert := rejected (Some "Failed to fetch");
     MomentsSection.ans_position := resolved None;
     MomentsSection.ans_fetch := MomentsSection.fetch_rejected;
     MomentsSection.ans_insertPost := resolved tt;
     MomentsSection.ans_select := rejected None;
     MomentsSection.ans_update := resolved None;
     MomentsSection.ans_deletePosts := resolved None;
     MomentsSection.ans_deleteMoment := resolved None;
     MomentsSection.ans_setTimeout := 6;
     MomentsSection.ans_timer := fun _ => false |}.

(** The answers of [answers_1], the reload of the list taking longer
    than the 2500 ms of the timer. *)
Definition answers_3 : MomentsSection.Answers :=
  {| MomentsSection.ans_confirm := MomentsSection.ans_confirm answers_1;
     MomentsSection.ans_getUser := MomentsSection.ans_getUser answers_1;
     MomentsSection.ans_randomUUID := MomentsSection.ans_randomUUID answers_1;
     MomentsSection.ans_upload := MomentsSection.ans_upload answers_1;
     MomentsSection.ans_publicUrl := MomentsSection.ans_publicUrl answers_1;
     MomentsSection.ans_insert := MomentsSection.ans_insert answers_1;
     MomentsSection.ans_position := MomentsSection.ans_position answers_1;
     MomentsSection.ans_fetch := MomentsSection.ans_fetch answers_1;
     MomentsSection.ans_insertPost := MomentsSection.ans_insertPost answers_1;
     MomentsSection.ans_select := MomentsSection.ans_select answers_1;
     MomentsSection.ans_update := MomentsSection.ans_update answers_1;
     MomentsSection.ans_deletePosts := MomentsSection.ans_deletePosts answers_1;
     MomentsSection.ans_deleteMoment := MomentsSection.ans_deleteMoment answers_1;
     MomentsSection.ans_setTimeout := MomentsSection.ans_setTimeout answers_1;
     MomentsSection.ans_timer := fun e =>
       match e with
       | MomentsSection.moments_select _ => true
       | _ => false
       end |}.

(** Two posts, the first left with the moment [mo1]. *)
Definition post_1 : MapSection.Post :=
  {| MapSection.p_id := "p1"; MapSection.p_trip_id := "t1";
     MapSection.p_type := "breadcrumb"; MapSection.p_lat := 43 # 1;
     MapSection.p_lng := 0 # 1; MapSection.p_accuracy_m := Some (12 # 1);
     MapSection.p_created_at := "2024-06-01T10:00:05Z";
     MapSection.p_place_text := Some "Lourdes"; MapSection.p_moment_id := Some "mo1" |}.

Definition post_2 : MapSection.Post :=
  {| MapSection.p_id := "p2"; MapSection.p_trip_id := "t1";
     MapSection.p_type := "breadcrumb"; MapSection.p_lat := 44 # 1;
     MapSection.p_lng := 1 # 1; MapSection.p_accuracy_m := None;
     MapSection.p_created_at := "2024-06-01T11:00:00Z";
     MapSection.p_place_text := None; MapSection.p_moment_id := None |}.

Definition map_moment_1 : MapSection.Moment :=
  {| MapSection.m_id := "mo1"; MapSection.m_trip_id := "t1";
     MapSection.m_user_id := "u1"; MapSection.m_text := Some "Grotto at dusk";
     MapSection.m_photo_path := None;
     MapSection.m_created_at := "2024-06-01T10:00:00Z" |}.

Definition map_state_1 : MapSection.State :=
  {| MapSection.loading := false; MapSection.errorText := None;
     MapSection.posts := [post_1; post_2]; MapSection.moments := [map_moment_1] |}.

(* ===================================================================== *)
(** ** The component *)
(* ===================================================================== *)

Section Host.
(** [Date.parse] of the engine and the offset of local time from UTC at
    an instant ([LocalTZA]). *)
Variable Date_parse : string -> number.
Variable LocalTZA : Z -> Z.

#[local] Set Default Proof Using "Type".

(** [new Date(iso)] *)
Definition new_Date (iso : string) : Date := TimeClip (Date_parse iso).

Definition LocalTime (t : Z) : Z := t + LocalTZA t.

(** [d.getFullYear()] *)
Definition getFullYear (d : Date) : number :=
  match d with
  | Num t => Num (YearFromTime (LocalTime t))
  | _ => NaN
  end.

(** [d.getMonth()] *)
Definition getMonth (d : Date) : number :=
  match d with
  | Num t => Num (MonthFromTime (LocalTime t))
  | _ => NaN
  end.

(** [d.getDate()] *)
Definition getDate (d : Date) : number :=
  match d with
  | Num t => Num (DateFromTime (LocalTime t))
  | _ => NaN
  end.

Definition dayKey (iso : string) : string :=
  let d := new_Date iso in
  let yyyy := getFullYear d in
  let mm := padStart 2 "0" (Number_toString (num_add (getMonth d) (Num 1))) in
  let dd := padStart 2 "0" (Number_toString (getDate d)) in
  String.append (Number_toString yyyy)
    (String.append "-" (String.append mm (String.append "-" dd))).

Definition ms (iso : string) : number := getTime (new_Date iso).

Definition MATCH_WINDOW_MS : number := Num (2 * 60 * 1000).

(** The comparator of [fpsForMatching]: newest first. *)
Definition newest_first (a b : Footprint) : number :=
  num_sub (ms (f_created_at b)) (ms (f_created_at a)).

Definition fpsForMatching (footprints : list Footprint) : list Footprint :=
  Array_sort newest_first footprints.

(** One turn of the inner loop, on [(best, bestDelta)]. *)
Definition scan_step (usedFootprints : gset string) (t : number)
    (acc : option Footprint * number) (f : Footprint) : option Footprint * number :=
  if bool_decide (elem_of (f_id f) usedFootprints) then acc
  else
    let dt := Math_abs (num_sub (ms (f_created_at f)) t) in
    if num_leb dt MATCH_WINDOW_MS && num_ltb dt (snd acc) then (Some f, dt) else acc.

(** The inner loop: the closest footprint within the window that has not
    been used yet. *)
Definition find_best (usedFootprints : gset string) (t : number)
    (fps : list Footprint) : option Footprint :=
  fst (fold_left (scan_step usedFootprints t) fps (None, POSITIVE_INFINITY)).

(** One turn of the loop over [moments], on [(usedFootprints, out)]. *)
Definition match_step (fps : list Footprint)
    (st : gset string * list TimelineEntry) (m : Moment)
    : gset string * list TimelineEntry :=
  let t := ms (m_created_at m) in
  match find_best (fst st) t fps with
  | Some best =>
      (union (singleton (f_id best)) (fst st),
       (snd st ++ [kind_combined (m_created_at m) m best])%list)
  | None => (fst st, (snd st ++ [kind_moment (m_created_at m) m])%list)
  end.

(** One turn of the loop that adds the remaining footprints. *)
Definition residual_step (usedFootprints : gset string)
    (out : list TimelineEntry) (f : Footprint) : list TimelineEntry :=
  if bool_decide (elem_of (f_id f) usedFootprints) then out
  else (out ++ [kind_footprint (f_created_at f) f])%list.

(** The comparator of the final sort and of the per-day sort. *)
Definition by_time (isEnded : bool) (a b : TimelineEntry) : number :=
  if isEnded then num_sub (ms (created_at a)) (ms (created_at b))
  else num_sub (ms (created_at b)) (ms (created_at a)).

(** [out] as it stands before the final sort. *)
Definition matched (moments : list Moment) (footprints : list Footprint)
    : list TimelineEntry :=
  let fps := fpsForMatching footprints in
  let st := fold_left (match_step fps) moments (empty, []) in
  fold_left (residual_step (fst st)) fps (snd st).

(** The memo [entries]. *)
Definition entries (moments : list Moment) (footprints : list Footprint)
    (isEnded : bool) : list TimelineEntry :=
  Array_sort (by_time isEnded) (matched moments footprints).

(** One turn of the loop of [grouped]. *)
Definition grouped_step (map : list (string * list TimelineEntry))
    (it : TimelineEntry) : option (list (string * list TimelineEntry)) :=
  let key := dayKey (created_at it) in
  let map := if Map_has key map then map else Map_set key [] map in
  Map_push key it map.

(** The memo [grouped]; an exception ends the loop. *)
Definition grouped (entries : list TimelineEntry)
    : option (list (string * list TimelineEntry)) :=
  fold_left
    (fun acc it => match acc with Some map => grouped_step map it | None => None end)
    entries (Some []).

(** The comparator of [dayKeys]. *)
Definition by_key (isEnded : bool) (a b : string) : number :=
  if String.eqb a b then Num 0
  else if isEnded then (if string_gtb a b then Num 1 else Num (-1))
  else (if string_gtb a b then Num (-1) else Num 1).

(** The memo [dayKeys]. *)
Definition dayKeys (grouped : list (string * list TimelineEntry))
    (isEnded : bool) : list string :=
  Array_sort (by_key isEnded) (Map_keys grouped).

(** What the component renders from [entries]: each day key of
    [dayKeys] with [[...dayItems].sort(...)], its entries in display
    order. *)
Definition sections (entries : list TimelineEntry) (isEnded : bool)
    : option (list (string * list TimelineEntry)) :=
  match grouped entries with
  | Some grouped =>
      Some (List.map
              (fun dk =>
                 let dayItems := default [] (Map_get dk grouped) in
                 (dk, Array_sort (by_time isEnded) dayItems))
              (dayKeys grouped isEnded))
  | None => None
  end.

(** The reconciliation: from the two lists and the flag to the rendered
    sections, or to an exception. *)
Definition timeline (moments : list Moment) (footprints : list Footprint)
    (isEnded : bool) : option (list (string * list TimelineEntry)) :=
  sections (entries moments footprints isEnded) isEnded.

(** All entries of the rendered sections, in display order. *)
Definition shown (tl : list (string * list TimelineEntry)) : list TimelineEntry :=
  concat (List.map snd tl).

(* ------------------------------------------------------------------- *)
(** *** The state of the component and what it renders *)

Record TimelineState : Type := {
  st_moments : list Moment;
  st_footprints : list Footprint;
  st_loading : bool;
  st_error : string;
}.

Definition setMoments (v : list Moment) (st : TimelineState) : TimelineState :=
  {| st_moments := v; st_footprints := st_footprints st;
     st_loading := st_loading st; st_error := st_error st |}.

Definition setFootprints (v : list Footprint) (st : TimelineState) : TimelineState :=
  {| st_moments := st_moments st; st_footprints := v;
     st_loading := st_loading st; st_error := st_error st |}.

Definition setLoading (v : bool) (st : TimelineState) : TimelineState :=
  {| st_moments := st_moments st; st_footprints := st_footprints st;
     st_loading := v; st_error := st_error st |}.

Definition setError (v : string) (st : TimelineState) : TimelineState :=
  {| st_moments := st_moments st; st_footprints := st_footprints st;
     st_loading := st_loading st; st_error := v |}.

(** One run of [loadTimeline] to its end, from what the two queries
    resolve to; the setters act in the order of the calls. *)
Definition loadTimeline (momentsRes : Response Moment) (footprintsRes : Response Footprint)
    (st : TimelineState) : TimelineState :=
  let st := setError "" (setLoading true st) in
  match res_error momentsRes with
  | Some message => setLoading false (setError message st)
  | None =>
      match res_error footprintsRes with
      | Some message => setLoading false (setError message st)
      | None =>
          setLoading false
            (setFootprints (default [] (res_data footprintsRes))
               (setMoments (default [] (res_data momentsRes)) st))
      end
  end.

(** The children of the fragment the component returns. *)
Inductive TimelinePart : Type :=
  | part_loading
  | part_error (error : string)
  | part_nothing_yet
  | part_sections (tl : list (string * list TimelineEntry)).

(** One render: the memos are computed first, an exception in them
    ends the render, then the four conditional children. *)
Definition render (st : TimelineState) (isEnded : bool) : option (list TimelinePart) :=
  let entries := entries (st_moments st) (st_footprints st) isEnded in
  match sections entries isEnded with
  | None => None
  | Some tl =>
      let quiet := negb (st_loading st) && String.eqb (st_error st) "" in
      Some ((if st_loading st then [part_loading] else []) ++
            (if String.eqb (st_error st) "" then [] else [part_error (st_error st)]) ++
            (if quiet && (length entries =? 0)%nat then [part_nothing_yet] else []) ++
            (if quiet && (0 <? length entries)%nat then [part_sections tl] else []))%list
  end.

(* ------------------------------------------------------------------- *)
(** *** The memo [entries] on the store of arrays *)

(** The body of the loop over [moments]; the local it carries is
    [usedFootprints]. *)
Definition match_body (fpsForMatching out : loc) (usedFootprints : gset string)
    (m : Moment) : M (gset string) :=
  let t := ms (m_created_at m) in
  fps <- read_footprints fpsForMatching ;;
  match find_best usedFootprints t fps with
  | Some best =>
      push_entry out (kind_combined (m_created_at m) m best) ;;;
      ret (union (singleton (f_id best)) usedFootprints)
  | None =>
      push_entry out (kind_moment (m_created_at m) m) ;;;
      ret usedFootprints
  end.

(** The body of the loop over the remaining footprints. *)
Definition residual_body (out : loc) (usedFootprints : gset string)
    (_ : unit) (f : Footprint) : M unit :=
  if bool_decide (elem_of (f_id f) usedFootprints) then ret tt
  else push_entry out (kind_footprint (f_created_at f) f).

(** The memo [entries] on references: it answers the reference of
    [out]. *)
Definition entries_memo (moments footprints : loc) (isEnded : bool) : M loc :=
  copy <- spread_footprints footprints ;;
  fpsForMatching <- sort_footprints newest_first copy ;;
  out <- new_array (EntryArray []) ;;
  ms_ <- read_moments moments ;;
  usedFootprints <- for_of ms_ (match_body fpsForMatching out) empty ;;
  fps <- read_footprints fpsForMatching ;;
  for_of fps (residual_body out usedFootprints) tt ;;;
  sort_entries (by_time isEnded) out.

(** One invocation of the reconciliation in a store: the rendered
    sections and the store it leaves. *)
Definition reconcile (moments footprints : loc) (isEnded : bool)
    (h : gmap loc array)
    : option (list (string * list TimelineEntry)) * gmap loc array :=
  let (out, h') := entries_memo moments footprints isEnded h in
  (sections (entries_at h' out) isEnded, h').

(* ------------------------------------------------------------------- *)
(** *** Vocabulary of the properties *)

(** The footprints and the moments a list of entries shows, with
    repetitions. *)
Definition shown_footprints (l : list TimelineEntry) : list Footprint :=
  flat_map (fun it => match entry_footprint it with Some f => [f] | None => [] end) l.

Definition shown_moments (l : list TimelineEntry) : list Moment :=
  flat_map (fun it => match entry_moment it with Some m => [m] | None => [] end) l.

(** Entries are told apart by the ids they carry. *)
Definition shows_footprint (id : string) (it : TimelineEntry) : bool :=
  match entry_footprint it with
  | Some f => String.eqb (f_id f) id
  | None => false
  end.

Definition shows_moment (id : string) (it : TimelineEntry) : bool :=
  match entry_moment it with
  | Some m => String.eqb (m_id m) id
  | None => false
  end.

(** The distance in time between a footprint and the instant [t]. *)
Definition delta (t : number) (f : Footprint) : number :=
  Math_abs (num_sub (ms (f_created_at f)) t).

(** [f] is open to a moment at [t], at distance [d]: it has not been
    used yet and lies within the window. *)
Definition candidate (used : gset string) (t : number) (f : Footprint) (d : Z) : Prop :=
  ~ elem_of (f_id f) used /\ delta t f = Num d /\ d <= 120000.

(** What the search of one moment must answer on the scan order [scan]:
    nothing when no footprint is open, else an open footprint at the
    least distance, and of those at that distance the one the scan meets
    first. *)
Definition nearest_unused (used : gset string) (t : number)
    (scan : list Footprint) (r : option Footprint) : Prop :=
  match r with
  | None => forall f d, In f scan -> ~ candidate used t f d
  | Some f =>
      exists pre post d,
        scan = (pre ++ f :: post)%list /\ candidate used t f d /\
        (forall g e, In g pre -> candidate used t g e -> d < e) /\
        (forall g e, In g post -> candidate used t g e -> d <= e)
  end.

(** The greedy matching in words: the moments are taken in their order,
    each gets the answer of [nearest_unused] for the footprints used so
    far, and a footprint it gets is used from then on. *)
Inductive greedy (scan : list Footprint)
    : gset string -> list Moment -> list TimelineEntry -> gset string -> Prop :=
  | greedy_done used : greedy scan used [] [] used
  | greedy_pair used m f rest out used' :
      nearest_unused used (ms (m_created_at m)) scan (Some f) ->
      greedy scan (union (singleton (f_id f)) used) rest out used' ->
      greedy scan used (m :: rest)
        (kind_combined (m_created_at m) m f :: out) used'
  | greedy_alone used m rest out used' :
      nearest_unused used (ms (m_created_at m)) scan None ->
      greedy scan used rest out used' ->
      greedy scan used (m :: rest) (kind_moment (m_created_at m) m :: out) used'.

(** The footprints left over, as entries, in scan order. *)
Definition residual (used : gset string) (scan : list Footprint) : list TimelineEntry :=
  List.map (fun f => kind_footprint (f_created_at f) f)
    (List.filter (fun f => negb (bool_decide (elem_of (f_id f) used))) scan).

(** The map, the sections and the timeline where no exception occurs,
    which is everywhere ([grouped_total], [sections_total],
    [timeline_total]). *)
Definition groups (es : list TimelineEntry) : list (string * list TimelineEntry) :=
  default [] (grouped es).

Definition sections_of (es : list TimelineEntry) (isEnded : bool)
    : list (string * list TimelineEntry) :=
  default [] (sections es isEnded).

Definition rendered (moments : list Moment) (footprints : list Footprint)
    (isEnded : bool) : list (string * list TimelineEntry) :=
  default [] (timeline moments footprints isEnded).

(** The day an entry is filed under. *)
Definition day_of (it : TimelineEntry) : string := dayKey (created_at it).

(** The entries of [l] filed under [key], in the order of [l]. *)
Definition of_day (key : string) (l : list TimelineEntry) : list TimelineEntry :=
  List.filter (fun it => String.eqb (day_of it) key) l.

(** The state of the inner loop after a scan of [scan]. *)
Definition scan_state (used : gset string) (t : number)
    (scan : list Footprint) (acc : option Footprint * number) : Prop :=
  match fst acc with
  | None => snd acc = PInf /\ nearest_unused used t scan None
  | Some f =>
      exists pre post d,
        snd acc = Num d /\
        scan = (pre ++ f :: post)%list /\ candidate used t f d /\
        (forall g e, In g pre -> candidate used t g e -> d < e) /\
        (forall g e, In g post -> candidate used t g e -> d <= e)
  end.

(** The key of the entries whose timestamp does not parse. *)
Definition NaN_key : string := "NaN-NaN-NaN".

(** The order of the keys. *)
Definition key_lt (a b : string) : Prop := String.compare a b = Lt.

(** Keys in the direction of the flag: ascending when ended. *)
Definition key_before (isEnded : bool) (a b : string) : Prop :=
  if isEnded then key_lt a b else key_lt b a.

(** The sort key of an entry. *)
Definition stamp (it : TimelineEntry) : number := ms (created_at it).

(** [a] is not later than [b]; both timestamps parse. *)
Definition time_le (a b : TimelineEntry) : Prop :=
  exists ta tb, stamp a = Num ta /\ stamp b = Num tb /\ ta <= tb.

(** [a] is earlier than [b]; both timestamps parse. *)
Definition time_lt (a b : TimelineEntry) : Prop :=
  exists ta tb, stamp a = Num ta /\ stamp b = Num tb /\ ta < tb.

(** Entries in the direction of the flag: oldest first when ended. *)
Definition shown_before (isEnded : bool) (a b : TimelineEntry) : Prop :=
  if isEnded then time_le a b else time_le b a.

(** The same, for entries at different times. *)
Definition strictly_before (isEnded : bool) (a b : TimelineEntry) : Prop :=
  if isEnded then time_lt a b else time_lt b a.

(** [a] is not older than [b]; both timestamps parse. *)
Definition not_older (a b : Footprint) : Prop :=
  exists ta tb, ms (f_created_at a) = Num ta /\ ms (f_created_at b) = Num tb /\ tb <= ta.

(** A number below 100 in two digits. *)
Definition two_digits (n : Z) : string :=
  String (digit_char (n / 10)) (String (digit_char (n mod 10)) EmptyString).

(** The local calendar date of a timestamp: year, month (1..12), day. *)
Definition local_date (iso : string) : option (Z * Z * Z) :=
  match new_Date iso with
  | Num t =>
      Some (YearFromTime (LocalTime t), MonthFromTime (LocalTime t) + 1,
            DateFromTime (LocalTime t))
  | _ => None
  end.

(** The order of the calendar. *)
Definition date_compare (a b : Z * Z * Z) : comparison :=
  match fst (fst a) ?= fst (fst b) with
  | Eq => match snd (fst a) ?= snd (fst b) with
          | Eq => snd a ?= snd b
          | r => r
          end
  | r => r
  end.

(** The timestamp parses and its local year has four digits. *)
Definition four_digit_year (iso : string) : Prop :=
  exists date, local_date iso = Some date /\ 1000 <= fst (fst date) <= 9999.

(** [a] is of an earlier calendar day than [b]. *)
Definition earlier_day (a b : TimelineEntry) : Prop :=
  exists da db,
    local_date (created_at a) = Some da /\ local_date (created_at b) = Some db /\
    date_compare da db = Lt.

(** Days in the direction of the flag: oldest first when ended. *)
Definition day_before (isEnded : bool) (a b : TimelineEntry) : Prop :=
  if isEnded then earlier_day a b else earlier_day b a.

(** The references [entries] allocates in a store. *)
Definition copy_ref (h : gmap loc array) : loc := fresh (dom h).

(** [out] is allocated after the copy. *)
Definition out_ref (h : gmap loc array) : loc :=
  fresh (dom (<[copy_ref h := FootprintArray []]> h)).

(** The timestamp printed with an entry: the argument of [timeLabel]
    where the entry is rendered, the moment's for [combined] and
    [moment], the footprint's for [footprint]. *)
Definition labelled_time (it : TimelineEntry) : string :=
  match it with
  | kind_combined _ m _ | kind_moment _ m => m_created_at m
  | kind_footprint _ f => f_created_at f
  end.

(** [it.kind === 'combined'] *)
Definition is_combined (it : TimelineEntry) : bool :=
  match it with
  | kind_combined _ _ _ => true
  | _ => false
  end.

(** [dayItems[0]?.created_at ?? dk], the argument of [dayLabel] in the
    heading of a section. *)
Definition firstIso (dk : string) (dayItems : list TimelineEntry) : string :=
  match dayItems with
  | it :: _ => created_at it
  | [] => dk
  end.

(** The entries at the instant [t]. *)
Definition at_time (t : Z) (it : TimelineEntry) : bool :=
  match stamp it with
  | Num z => z =? t
  | _ => false
  end.

(** The number a string of decimal digits writes, after the digits
    read so far have given [a]. *)
Fixpoint decimal_value (s : string) (a : Z) : Z :=
  match s with
  | EmptyString => a
  | String c s' => decimal_value s' (10 * a + (Z.of_N (N_of_ascii c) - 48))
  end.

(* =================================================================== *)
(** ** Facts on [Array.prototype.sort] *)
(* =================================================================== *)

Section ArraySortFacts.
Context {A : Type}.
Variable comparefn : A -> A -> number.

Lemma sort_insert_perm (x : A) (l : list A) :
  Permutation (sort_insert comparefn x l) (x :: l).
Proof.
  induction l as [|y l IH]; simpl.
  - apply Permutation_refl.
  - destruct (0 <? SortCompare comparefn x y).
    + apply Permutation_trans with (y :: x :: l).
      * now apply perm_skip.
      * apply perm_swap.
    + apply Permutation_refl.
Qed.

Lemma Array_sort_perm (l : list A) : Permutation (Array_sort comparefn l) l.
Proof.
  induction l as [|x l IH]; simpl.
  - apply Permutation_refl.
  - apply Permutation_trans with (x :: Array_sort comparefn l).
    + apply sort_insert_perm.
    + now apply perm_skip.
Qed.

Lemma Array_sort_In (l : list A) (x : A) :
  In x (Array_sort comparefn l) <-> In x l.
Proof.
  split; apply Permutation_in;
    [apply Array_sort_perm | apply Permutation_sym, Array_sort_perm].
Qed.

(** A comparator that decides an order [R] on the elements satisfying
    [P] sorts them by [R]. *)
Variable R : A -> A -> Prop.
Variable P : A -> Prop.
Hypothesis R_trans :
  forall a b c, P a -> P b -> P c -> R a b -> R b c -> R a c.
Hypothesis compare_le :
  forall a b, P a -> P b -> SortCompare comparefn a b <= 0 -> R a b.
Hypothesis compare_gt :
  forall a b, P a -> P b -> 0 < SortCompare comparefn a b -> R b a.

Lemma sort_insert_sorted (x : A) (l : list A) :
  P x -> Forall P l -> StronglySorted R l ->
  StronglySorted R (sort_insert comparefn x l).
Proof using R_trans compare_le compare_gt.
  intros Px Pl Hs. induction l as [|y l IH]; simpl.
  - constructor; constructor.
  - inversion Pl as [|? ? Py Pl']; subst.
    inversion Hs as [|? ? Hs' Hy]; subst.
    destruct (0 <? SortCompare comparefn x y) eqn:E.
    + apply Z.ltb_lt in E. constructor; [now apply IH|].
      apply (Permutation_Forall (Permutation_sym (sort_insert_perm x l))).
      constructor; [now apply compare_gt | exact Hy].
    + apply Z.ltb_ge in E. constructor; [exact Hs|].
      assert (Rxy : R x y) by now apply compare_le.
      constructor; [exact Rxy|].
      rewrite List.Forall_forall in *. intros z Hz.
      apply (R_trans x y z); auto.
Qed.

Lemma Array_sort_sorted (l : list A) :
  Forall P l -> StronglySorted R (Array_sort comparefn l).
Proof using R_trans compare_le compare_gt.
  induction l as [|x l IH]; simpl; intros Pl.
  - constructor.
  - inversion Pl; subst. apply sort_insert_sorted; auto.
    apply (Permutation_Forall (Permutation_sym (Array_sort_perm l))); auto.
Qed.
End ArraySortFacts.

(** The sort is stable: under a comparator that ranks by a key, the
    elements of one key keep the order they had. *)
Lemma sort_insert_stable {A : Type} (comparefn : A -> A -> number) (key : A -> Z)
    (x : A) (l : list A) (k : Z) :
  (forall b, In b l -> (0 <? SortCompare comparefn x b) = (key b <? key x)) ->
  List.filter (fun a => key a =? k) (sort_insert comparefn x l) =
  List.filter (fun a => key a =? k) (x :: l).
Proof.
  induction l as [|y l IH]; intros Hcmp; [reflexivity|].
  cbn [sort_insert]. rewrite (Hcmp y) by now left.
  destruct (Z.ltb_spec (key y) (key x)) as [Hlt|Hge]; [|reflexivity].
  cbn [List.filter]. rewrite IH by (intros b Hb; apply Hcmp; now right).
  cbn [List.filter].
  destruct (Z.eqb_spec (key y) k) as [Ey|Ey], (Z.eqb_spec (key x) k) as [Ex|Ex];
    try reflexivity. lia.
Qed.

Lemma Array_sort_stable {A : Type} (comparefn : A -> A -> number) (key : A -> Z)
    (l : list A) (k : Z) :
  (forall a b, In a l -> In b l ->
     (0 <? SortCompare comparefn a b) = (key b <? key a)) ->
  List.filter (fun a => key a =? k) (Array_sort comparefn l) =
  List.filter (fun a => key a =? k) l.
Proof.
  induction l as [|x l IH]; intros Hcmp; [reflexivity|].
  cbn [Array_sort fold_right]. fold (Array_sort comparefn l).
  rewrite sort_insert_stable.
  - cbn [List.filter]. rewrite IH by (intros a b Ha Hb; apply Hcmp; now right).
    reflexivity.
  - intros b Hb. apply Hcmp; [now left|]. right.
    exact (proj1 (Array_sort_In comparefn l b) Hb).
Qed.

(** A list has at most one arrangement sorted by a strict order. *)
Lemma sorted_perm_unique {A : Type} (R : A -> A -> Prop) (l1 l2 : list A) :
  (forall a b, R a b -> R b a -> False) ->
  StronglySorted R l1 -> StronglySorted R l2 -> Permutation l1 l2 -> l1 = l2.
Proof.
  intros asym. revert l2.
  induction l1 as [|a l1 IH]; intros l2 H1 H2 Hp.
  - apply Permutation_nil in Hp. now subst.
  - destruct l2 as [|b l2].
    + apply Permutation_sym, Permutation_nil in Hp. discriminate.
    + inversion H1 as [|? ? S1 F1]; subst. inversion H2 as [|? ? S2 F2]; subst.
      rewrite List.Forall_forall in F1, F2.
      assert (a = b) as ->.
      { assert (Ha : In a (b :: l2))
          by (apply (Permutation_in _ Hp); now left).
        assert (Hb : In b (a :: l1))
          by (apply (Permutation_in _ (Permutation_sym Hp)); now left).
        destruct Ha as [Ha|Ha]; [now symmetry|].
        destruct Hb as [Hb|Hb]; [assumption|].
        exfalso. apply (asym a b); [now apply F1 | now apply F2]. }
      f_equal. apply IH; auto. now apply Permutation_cons_inv in Hp.
Qed.

Lemma StronglySorted_rev {A : Type} (R : A -> A -> Prop) (l : list A) :
  StronglySorted R l -> StronglySorted (fun a b => R b a) (rev l).
Proof.
  induction 1 as [|a l Hs IH Ha]; simpl.
  - constructor.
  - assert (G : forall l', StronglySorted (fun a b => R b a) l' ->
                Forall (fun z => R a z) l' ->
                StronglySorted (fun a b => R b a) (l' ++ [a])%list).
    { induction l' as [|z l' IH']; simpl; intros Hs' Hf.
      - constructor; constructor.
      - inversion Hs'; subst. inversion Hf; subst.
        constructor; [now apply IH'|].
        apply Forall_app. split; [assumption|]. constructor; [assumption|constructor]. }
    apply G; [exact IH|].
    apply (Permutation_Forall (Permutation_rev l)). exact Ha.
Qed.

(* =================================================================== *)
(** ** The search of one moment *)
(* =================================================================== *)

Lemma Math_abs_cases (a : number) :
  Math_abs a = NaN \/ Math_abs a = PInf \/ exists d, Math_abs a = Num d /\ 0 <= d.
Proof.
  destruct a as [z| | |]; simpl; auto.
  right; right. exists (Z.abs z). split; [reflexivity | apply Z.abs_nonneg].
Qed.

Lemma within_window (t : number) (f : Footprint) :
  num_leb (delta t f) MATCH_WINDOW_MS = true <->
  exists d, delta t f = Num d /\ d <= 120000.
Proof.
  unfold delta. destruct (Math_abs_cases (num_sub (ms (f_created_at f)) t))
    as [E|[E|[d [E Hd]]]]; rewrite E; simpl.
  - split; [discriminate | intros [d [? _]]; discriminate].
  - split; [discriminate | intros [d [? _]]; discriminate].
  - unfold MATCH_WINDOW_MS. simpl. rewrite Z.leb_le. split.
    + intros H. exists d. split; [reflexivity | lia].
    + intros [d' [[= ->] H]]. lia.
Qed.

Lemma scan_step_state used t scan acc f :
  scan_state used t scan acc ->
  scan_state used t (scan ++ [f])%list (scan_step used t acc f).
Proof.
  intros Hacc. unfold scan_step.
  assert (Hkeep : (forall e, candidate used t f e ->
                     match fst acc with
                     | None => False
                     | Some _ => exists d, snd acc = Num d /\ d <= e
                     end) ->
                  scan_state used t (scan ++ [f])%list acc).
  { intros Hf. unfold scan_state in *. destruct (fst acc) as [b|].
    - destruct Hacc as (pre & post & d & Hd & Hs & Hc & Hpre & Hpost).
      exists pre, (post ++ [f])%list, d. repeat split; try assumption.
      + rewrite Hs, <- app_assoc. reflexivity.
      + apply Hc.
      + apply Hc.
      + apply Hc.
      + intros g e Hg Hcg. apply in_app_or in Hg. destruct Hg as [Hg|[<-|[]]].
        * now apply (Hpost g).
        * destruct (Hf e Hcg) as (d' & Hd' & Hle). congruence.
    - destruct Hacc as [Hinf Hnone]. split; [assumption|].
      intros g e Hg Hcg. apply in_app_or in Hg. destruct Hg as [Hg|[<-|[]]].
      + now apply (Hnone g e).
      + exact (Hf e Hcg). }
  case_bool_decide as Hused.
  { apply Hkeep. intros e (Hn & _). contradiction. }
  cbv zeta. fold (delta t f).
  destruct (num_leb (delta t f) MATCH_WINDOW_MS) eqn:Hw; simpl.
  2:{ apply Hkeep. intros e (_ & He & Hle).
      assert (num_leb (delta t f) MATCH_WINDOW_MS = true)
        by (apply within_window; eauto).
      congruence. }
  apply within_window in Hw. destruct Hw as (e & He & Hle).
  rewrite He.
  destruct (num_ltb (Num e) (snd acc)) eqn:Hlt.
  - unfold scan_state in *. simpl.
    exists scan, [], e. repeat split; try assumption.
    + intros g e' Hg Hcg. destruct (fst acc) as [b|].
      * destruct Hacc as (pre & post & d & Hd & Hs & Hc & Hpre & Hpost).
        rewrite Hd in Hlt. simpl in Hlt. apply Z.ltb_lt in Hlt.
        subst scan. apply in_app_or in Hg. destruct Hg as [Hg|[<-|Hg]].
        -- specialize (Hpre g e' Hg Hcg). lia.
        -- destruct Hc as (_ & Hb & _), Hcg as (_ & Hb' & _).
           rewrite Hb in Hb'. injection Hb' as <-. lia.
        -- specialize (Hpost g e' Hg Hcg). lia.
      * destruct Hacc as [_ Hnone]. exfalso. exact (Hnone g e' Hg Hcg).
    + intros g e' [].
  - apply Hkeep. intros e' (_ & He' & _).
    rewrite He in He'. injection He' as <-.
    unfold scan_state in Hacc. destruct (fst acc) as [b|].
    + destruct Hacc as (pre & post & d & Hd & _). exists d. split; [assumption|].
      rewrite Hd in Hlt. simpl in Hlt. apply Z.ltb_ge in Hlt. lia.
    + destruct Hacc as [Hinf _]. rewrite Hinf in Hlt. discriminate.
Qed.

Lemma fold_scan_state used t scan :
  scan_state used t scan
    (fold_left (scan_step used t) scan (None, POSITIVE_INFINITY)).
Proof.
  induction scan as [|f scan IH] using rev_ind.
  - simpl. split; [reflexivity|]. intros f d [].
  - rewrite fold_left_app. simpl. now apply scan_step_state.
Qed.

(** The inner loop answers what [nearest_unused] asks for. *)
Lemma find_best_nearest used t scan :
  nearest_unused used t scan (find_best used t scan).
Proof.
  unfold find_best. pose proof (fold_scan_state used t scan) as H.
  unfold scan_state in H.
  destruct (fst (fold_left (scan_step used t) scan (None, POSITIVE_INFINITY))) as [f|].
  - destruct H as (pre & post & d & _ & H). exists pre, post, d. exact H.
  - apply H.
Qed.

(* =================================================================== *)
(** ** The two loops of [entries] *)
(* =================================================================== *)

Lemma fold_match_greedy scan moments used out :
  exists es used',
    fold_left (match_step scan) moments (used, out) = (used', (out ++ es)%list) /\
    greedy scan used moments es used'.
Proof.
  revert used out. induction moments as [|m rest IH]; intros used out; simpl.
  - exists [], used. rewrite app_nil_r. split; [reflexivity | constructor].
  - unfold match_step at 2. simpl.
    pose proof (find_best_nearest used (ms (m_created_at m)) scan) as Hn.
    destruct (find_best used (ms (m_created_at m)) scan) as [f|].
    + destruct (IH (union (singleton (f_id f)) used)
                  (out ++ [kind_combined (m_created_at m) m f])%list)
        as (es & used' & Hfold & Hg).
      exists (kind_combined (m_created_at m) m f :: es), used'.
      rewrite Hfold, <- app_assoc. split; [reflexivity|].
      now apply greedy_pair.
    + destruct (IH used (out ++ [kind_moment (m_created_at m) m])%list)
        as (es & used' & Hfold & Hg).
      exists (kind_moment (m_created_at m) m :: es), used'.
      rewrite Hfold, <- app_assoc. split; [reflexivity|].
      now apply greedy_alone.
Qed.

Lemma fold_residual used scan out :
  fold_left (residual_step used) scan out = (out ++ residual used scan)%list.
Proof.
  unfold residual. revert out. induction scan as [|f scan IH]; intros out; simpl.
  - now rewrite app_nil_r.
  - rewrite IH. unfold residual_step. case_bool_decide; simpl.
    + reflexivity.
    + now rewrite <- app_assoc.
Qed.

(** [out] before the final sort: the entries of the moments, in the
    order of the moments, then the footprints left over. *)
Lemma matched_greedy moments footprints :
  exists es used,
    greedy (fpsForMatching footprints) empty moments es used /\
    matched moments footprints =
      (es ++ residual used (fpsForMatching footprints))%list.
Proof.
  unfold matched.
  destruct (fold_match_greedy (fpsForMatching footprints) moments empty [])
    as (es & used & Hfold & Hg).
  exists es, used. split; [exact Hg|].
  cbv zeta. rewrite Hfold. simpl. apply fold_residual.
Qed.

(** What a greedy run leaves behind. *)
Lemma greedy_moments scan used moments es used' :
  greedy scan used moments es used' -> shown_moments es = moments.
Proof.
  induction 1; simpl; [reflexivity | now f_equal | now f_equal].
Qed.

Lemma greedy_used scan used moments es used' :
  greedy scan used moments es used' ->
  forall id, elem_of id used' <->
             elem_of id used \/ In id (List.map f_id (shown_footprints es)).
Proof.
  induction 1 as [used|used m f rest out used' Hn Hg IH|used m rest out used' Hn Hg IH];
    intros id; simpl.
  - tauto.
  - rewrite IH. rewrite elem_of_union, elem_of_singleton.
    split; [intros [[->|?]|?]|intros [?|[<-|?]]]; auto.
  - apply IH.
Qed.

Lemma greedy_fresh scan used moments es used' :
  greedy scan used moments es used' ->
  NoDup (List.map f_id (shown_footprints es)) /\
  (forall f, In f (shown_footprints es) -> ~ elem_of (f_id f) used) /\
  (forall f, In f (shown_footprints es) -> In f scan).
Proof.
  induction 1 as [used|used m f rest out used' Hn Hg IH|used m rest out used' Hn Hg IH];
    simpl.
  - repeat split; [constructor | intros f [] | intros f []].
  - destruct IH as (Hnd & Hfresh & Hin).
    destruct Hn as (pre & post & d & Hscan & (Hf & _) & _).
    repeat split.
    + constructor; [|exact Hnd].
      intros Hid. apply in_map_iff in Hid. destruct Hid as (g & Hid & Hg').
      apply (Hfresh g Hg'). rewrite Hid. clear LocalTZA. set_solver.
    + intros g [<-|Hg']; [exact Hf|].
      intros Hu. apply (Hfresh g Hg'). clear LocalTZA. set_solver.
    + intros g [<-|Hg']; [|now apply Hin].
      rewrite Hscan. apply in_or_app. right. now left.
  - exact IH.
Qed.

Lemma greedy_window scan used moments es used' :
  greedy scan used moments es used' ->
  forall c m f, In (kind_combined c m f) es ->
    c = m_created_at m /\ In m moments /\ In f scan /\
    exists d, delta (ms (m_created_at m)) f = Num d /\ d <= 120000.
Proof.
  induction 1 as [used|used m f rest out used' Hn Hg IH|used m rest out used' Hn Hg IH];
    intros c m' f' Hin; simpl in Hin.
  - destruct Hin.
  - destruct Hin as [[= <- <- <-]|Hin].
    + destruct Hn as (pre & post & d & Hscan & (_ & Hd & Hle) & _).
      repeat split; [now left | | eauto].
      rewrite Hscan. apply in_or_app. right. now left.
    + destruct (IH c m' f' Hin) as (? & ? & ? & ?). repeat split; auto. now right.
  - destruct Hin as [[=]|Hin].
    destruct (IH c m' f' Hin) as (? & ? & ? & ?). repeat split; auto. now right.
Qed.

Lemma shown_footprints_app l1 l2 :
  shown_footprints (l1 ++ l2) = (shown_footprints l1 ++ shown_footprints l2)%list.
Proof. apply flat_map_app. Qed.

Lemma shown_moments_app l1 l2 :
  shown_moments (l1 ++ l2) = (shown_moments l1 ++ shown_moments l2)%list.
Proof. apply flat_map_app. Qed.

Lemma shown_footprints_residual used scan :
  shown_footprints (residual used scan) =
  List.filter (fun f => negb (bool_decide (elem_of (f_id f) used))) scan.
Proof.
  unfold residual.
  induction (List.filter (fun f => negb (bool_decide (elem_of (f_id f) used))) scan)
    as [|f l IH]; simpl; [reflexivity | now f_equal].
Qed.

Lemma shown_moments_residual used scan : shown_moments (residual used scan) = [].
Proof.
  unfold residual.
  induction (List.filter (fun f => negb (bool_decide (elem_of (f_id f) used))) scan)
    as [|f l IH]; simpl; [reflexivity | exact IH].
Qed.

Lemma NoDup_map_injective {A B : Type} (f : A -> B) (l : list A) (x y : A) :
  NoDup (List.map f l) -> In x l -> In y l -> f x = f y -> x = y.
Proof.
  induction l as [|a l IH]; simpl; intros Hnd Hx Hy E; [destruct Hx|].
  inversion Hnd as [|? ? Hna Hnd']; subst.
  destruct Hx as [<-|Hx], Hy as [<-|Hy]; auto.
  - exfalso. apply Hna. rewrite E. now apply in_map.
  - exfalso. apply Hna. rewrite <- E. now apply in_map.
Qed.

(** With distinct ids, the footprints [out] shows are the footprints
    given, each once. *)
Lemma matched_footprints moments footprints :
  NoDup (List.map f_id footprints) ->
  Permutation (shown_footprints (matched moments footprints)) footprints.
Proof.
  intros Hids.
  destruct (matched_greedy moments footprints) as (es & used & Hg & ->).
  set (scan := fpsForMatching footprints) in *.
  assert (Hperm : Permutation scan footprints) by apply Array_sort_perm.
  assert (Hscan : NoDup (List.map f_id scan)).
  { apply (Permutation_NoDup (l := List.map f_id footprints)); [|exact Hids].
    apply Permutation_map, Permutation_sym, Hperm. }
  apply Permutation_trans with scan; [|exact Hperm].
  rewrite shown_footprints_app, shown_footprints_residual.
  destruct (greedy_fresh _ _ _ _ _ Hg) as (Hnd & Hfresh & Hin).
  pose proof (greedy_used _ _ _ _ _ Hg) as Hused.
  apply Permutation.NoDup_Permutation.
  - apply List.NoDup_app.
    + now apply NoDup_map_inv in Hnd.
    + apply List.NoDup_filter. now apply NoDup_map_inv in Hscan.
    + intros f Hf Hf'. apply filter_In in Hf'. destruct Hf' as [_ Hf'].
      apply negb_true_iff, bool_decide_eq_false in Hf'. apply Hf'.
      apply Hused. right. now apply in_map.
  - now apply NoDup_map_inv in Hscan.
  - intros f. rewrite in_app_iff, filter_In. split.
    + intros [Hf|[Hf _]]; auto.
    + intros Hf. destruct (decide (elem_of (f_id f) used)) as [Hu|Hu].
      * left. apply Hused in Hu. destruct Hu as [Hu|Hu]; [clear LocalTZA; set_solver|].
        apply in_map_iff in Hu. destruct Hu as (g & Hid & Hg').
        assert (g = f) as <-; [|exact Hg'].
        apply (NoDup_map_injective f_id scan); auto.
      * right. split; [exact Hf|].
        apply negb_true_iff, bool_decide_eq_false. exact Hu.
Qed.

(** The moments [out] shows are the moments given, in their order. *)
Lemma matched_moments moments footprints :
  shown_moments (matched moments footprints) = moments.
Proof.
  destruct (matched_greedy moments footprints) as (es & used & Hg & ->).
  rewrite shown_moments_app, shown_moments_residual, app_nil_r.
  exact (greedy_moments _ _ _ _ _ Hg).
Qed.

(* =================================================================== *)
(** ** The map of [grouped] *)
(* =================================================================== *)

Section JSMapFacts.
Context {V : Type}.
Implicit Types (map : list (string * V)) (key k : string).

Lemma Map_has_keys key map : Map_has key map = true <-> In key (Map_keys map).
Proof.
  induction map as [|[k v] map IH]; simpl.
  - split; [discriminate | intros []].
  - destruct (String.eqb_spec k key) as [->|Hne].
    + split; auto.
    + rewrite IH. split; [auto | intros [?|?]; [contradiction | assumption]].
Qed.

Lemma Map_keys_set key (v : V) map :
  Map_keys (Map_set key v map) =
  if Map_has key map then Map_keys map else (Map_keys map ++ [key])%list.
Proof.
  induction map as [|[k w] map IH]; simpl; [reflexivity|].
  destruct (String.eqb k key); simpl; [reflexivity|].
  rewrite IH. now destruct (Map_has key map).
Qed.

Lemma Map_get_set key k (v : V) map :
  Map_get k (Map_set key v map) =
  if String.eqb key k then Some v else Map_get k map.
Proof.
  induction map as [|[k0 w] map IH]; simpl.
  - rewrite String.eqb_sym. reflexivity.
  - destruct (String.eqb_spec k0 key) as [->|Hne]; simpl.
    + now destruct (String.eqb key k).
    + rewrite IH. destruct (String.eqb_spec k0 k) as [->|Hne'].
      * destruct (String.eqb_spec key k) as [->|]; [contradiction | reflexivity].
      * reflexivity.
Qed.

End JSMapFacts.

(** Under a key the map holds, [push] does not throw: the keys stay,
    and the array under the key grows by one. *)
Lemma Map_push_some {A : Type} key (it : A) (map : list (string * list A)) :
  In key (Map_keys map) ->
  exists map',
    Map_push key it map = Some map' /\
    Map_keys map' = Map_keys map /\
    forall k, Map_get k map' =
              if String.eqb key k
              then option_map (fun items => (items ++ [it])%list) (Map_get k map)
              else Map_get k map.
Proof.
  induction map as [|[k0 w] map IH]; simpl; [intros []|].
  intros Hin. destruct (String.eqb_spec k0 key) as [->|Hne].
  - eexists. split; [reflexivity|]. split; [reflexivity|].
    intros k. simpl. now destruct (String.eqb key k).
  - destruct Hin as [Hin|Hin]; [contradiction|].
    destruct (IH Hin) as (map' & -> & Hkeys & Hget).
    eexists. split; [reflexivity|]. split; [simpl; now f_equal|].
    intros k. simpl. rewrite Hget.
    destruct (String.eqb_spec k0 k) as [->|Hne']; [|reflexivity].
    destruct (String.eqb_spec key k) as [->|]; [contradiction | reflexivity].
Qed.

Lemma of_day_app key l1 l2 :
  of_day key (l1 ++ l2) = (of_day key l1 ++ of_day key l2)%list.
Proof. apply List.filter_app. Qed.

(** [grouped] does not throw and files every entry under its day: the
    keys are the days that occur, each once, and a key holds the entries
    of its day in the order of [entries]. *)
Lemma grouped_some (es : list TimelineEntry) :
  exists g,
    grouped es = Some g /\
    NoDup (Map_keys g) /\
    (forall key, In key (Map_keys g) <-> In key (List.map day_of es)) /\
    (forall key, In key (Map_keys g) -> Map_get key g = Some (of_day key es)).
Proof.
  unfold grouped. induction es as [|it es IH] using rev_ind.
  - exists []. simpl. split; [reflexivity|]. split; [constructor|].
    split; [tauto | intros key []].
  - rewrite fold_left_app. simpl.
    destruct IH as (map & -> & Hnd & Hkeys & Hget).
    unfold grouped_step. fold (day_of it). set (key := day_of it).
    set (map1 := if Map_has key map then map else Map_set key [] map).
    assert (Hk : Map_keys map1 =
                 if Map_has key map then Map_keys map else (Map_keys map ++ [key])%list).
    { unfold map1. destruct (Map_has key map) eqn:E; [reflexivity|].
      rewrite Map_keys_set, E. reflexivity. }
    assert (Hin1 : In key (Map_keys map1)).
    { rewrite Hk. destruct (Map_has key map) eqn:E.
      - now apply Map_has_keys.
      - apply in_or_app. right. now left. }
    destruct (Map_push_some key it map1 Hin1) as (g & -> & Hkg & Hgg).
    exists g. split; [reflexivity|].
    rewrite Hkg, Hk, map_app. simpl. fold key.
    destruct (Map_has key map) eqn:E.
    + assert (Hin : In key (List.map day_of es)) by now apply Hkeys, Map_has_keys.
      split; [exact Hnd|]. split.
      * intros k. rewrite in_app_iff, Hkeys. simpl.
        split; [auto | intros [?|[<-|[]]]; assumption].
      * intros k Hk'. rewrite Hgg, of_day_app. unfold map1. rewrite (Hget k Hk').
        unfold of_day at 2. simpl. fold key.
        destruct (String.eqb key k); simpl; [reflexivity | now rewrite app_nil_r].
    + assert (Hnin : ~ In key (Map_keys map)).
      { intros Hin. apply Map_has_keys in Hin. congruence. }
      split; [|split].
      * apply List.NoDup_app; [exact Hnd | repeat constructor; intros [] |].
        intros k Hin [<-|[]]. contradiction.
      * intros k. rewrite !in_app_iff, Hkeys. reflexivity.
      * intros k Hk'. rewrite Hgg, of_day_app. unfold map1. rewrite Map_get_set.
        unfold of_day at 2. simpl. fold key.
        destruct (String.eqb_spec key k) as [<-|Hne]; simpl.
        -- f_equal. assert (of_day key es = []) as ->; [|reflexivity].
           unfold of_day. destruct (List.filter _ es) as [|x l] eqn:F; [reflexivity|].
           exfalso. assert (Hx : In x (x :: l)) by now left.
           rewrite <- F in Hx. apply filter_In in Hx. destruct Hx as [Hx Hd].
           apply String.eqb_eq in Hd. apply Hnin, Hkeys. rewrite <- Hd.
           now apply in_map.
        -- rewrite app_nil_r. apply in_app_or in Hk'.
           destruct Hk' as [Hin|[?|[]]]; [now apply Hget | contradiction].
Qed.

Lemma grouped_total (es : list TimelineEntry) : grouped es = Some (groups es).
Proof.
  unfold groups. destruct (grouped_some es) as (g & -> & _). reflexivity.
Qed.

Lemma grouped_spec (es : list TimelineEntry) :
  NoDup (Map_keys (groups es)) /\
  (forall key, In key (Map_keys (groups es)) <-> In key (List.map day_of es)) /\
  (forall key, In key (Map_keys (groups es)) ->
               Map_get key (groups es) = Some (of_day key es)).
Proof.
  unfold groups. destruct (grouped_some es) as (g & -> & H). exact H.
Qed.

(* =================================================================== *)
(** ** The rendered sections *)
(* =================================================================== *)

Lemma filter_split_perm {A : Type} (p : A -> bool) (l : list A) :
  Permutation (List.filter p l ++ List.filter (fun x => negb (p x)) l) l.
Proof.
  induction l as [|x l IH]; simpl; [constructor|].
  destruct (p x); simpl.
  - now apply perm_skip.
  - apply Permutation_sym, Permutation_cons_app, Permutation_sym, IH.
Qed.

Lemma concat_map_perm {A B : Type} (f g : A -> list B) (ks : list A) :
  (forall k, In k ks -> Permutation (f k) (g k)) ->
  Permutation (concat (List.map f ks)) (concat (List.map g ks)).
Proof.
  induction ks as [|k ks IH]; simpl; intros H; [constructor|].
  apply Permutation_app; [apply H; now left | apply IH; intros; apply H; now right].
Qed.

(** Filing a list under distinct keys that cover it loses and repeats
    nothing. *)
Lemma concat_of_day_perm (ks : list string) (l : list TimelineEntry) :
  NoDup ks -> (forall it, In it l -> In (day_of it) ks) ->
  Permutation (concat (List.map (fun k => of_day k l) ks)) l.
Proof.
  revert l. induction ks as [|k ks IH]; intros l Hnd Hcov; simpl.
  - destruct l as [|it l]; [constructor|]. destruct (Hcov it); now left.
  - inversion Hnd as [|? ? Hk Hnd']; subst.
    set (rest := List.filter (fun it => negb (String.eqb (day_of it) k)) l).
    apply Permutation_trans with (of_day k l ++ rest)%list;
      [|apply filter_split_perm].
    apply Permutation_app_head.
    assert (E : List.map (fun k' => of_day k' l) ks =
                List.map (fun k' => of_day k' rest) ks).
    { apply map_ext_in. intros k' Hk'. unfold of_day, rest.
      induction l as [|it l IHl]; simpl; [reflexivity|].
      destruct (String.eqb_spec (day_of it) k) as [Ek|Ek]; simpl.
      - destruct (String.eqb_spec (day_of it) k') as [Ek'|Ek'].
        + exfalso. apply Hk. congruence.
        + apply IHl. intros; apply Hcov; now right.
      - destruct (String.eqb (day_of it) k'); [f_equal|];
          apply IHl; intros; apply Hcov; now right. }
    rewrite E. apply IH; [exact Hnd'|].
    intros it Hit. unfold rest in Hit. apply filter_In in Hit.
    destruct Hit as [Hit Hne]. destruct (Hcov it Hit) as [E'|H]; [|exact H].
    rewrite <- E', String.eqb_refl in Hne. discriminate.
Qed.

Lemma dayKeys_perm (map : list (string * list TimelineEntry)) isEnded :
  Permutation (dayKeys map isEnded) (Map_keys map).
Proof. apply Array_sort_perm. Qed.

(** The render does not throw. *)
Lemma sections_total es isEnded : sections es isEnded = Some (sections_of es isEnded).
Proof.
  unfold sections_of, sections. now rewrite grouped_total.
Qed.

Lemma timeline_total moments footprints isEnded :
  timeline moments footprints isEnded = Some (rendered moments footprints isEnded).
Proof.
  unfold rendered, timeline. now rewrite sections_total.
Qed.

Lemma rendered_eq moments footprints isEnded :
  rendered moments footprints isEnded =
  sections_of (entries moments footprints isEnded) isEnded.
Proof.
  unfold rendered, timeline. now rewrite sections_total.
Qed.

(** A section holds the entries of its day, sorted. *)
Lemma sections_eq es isEnded :
  sections_of es isEnded =
  List.map (fun dk => (dk, Array_sort (by_time isEnded) (of_day dk es)))
    (dayKeys (groups es) isEnded).
Proof.
  unfold sections_of, sections. rewrite grouped_total. simpl.
  apply map_ext_in. intros dk Hdk.
  destruct (grouped_spec es) as (_ & _ & Hget).
  rewrite Hget; [reflexivity|].
  apply (Permutation_in _ (dayKeys_perm (groups es) isEnded)). exact Hdk.
Qed.

Lemma sections_keys es isEnded :
  List.map fst (sections_of es isEnded) = dayKeys (groups es) isEnded.
Proof.
  rewrite sections_eq, map_map. simpl. apply map_id.
Qed.

(** The sections show the entries they are given, each once. *)
Lemma shown_sections_perm es isEnded :
  Permutation (shown (sections_of es isEnded)) es.
Proof.
  unfold shown. rewrite sections_eq, map_map. simpl.
  destruct (grouped_spec es) as (Hnd & Hkeys & _).
  pose proof (dayKeys_perm (groups es) isEnded) as Hp.
  apply Permutation_trans with
    (concat (List.map (fun k => of_day k es) (dayKeys (groups es) isEnded))).
  - apply concat_map_perm. intros. apply Array_sort_perm.
  - apply concat_of_day_perm.
    + apply (Permutation_NoDup (Permutation_sym Hp)), Hnd.
    + intros it Hit. apply (Permutation_in _ (Permutation_sym Hp)), Hkeys.
      now apply in_map.
Qed.

(** The timeline shows the entries of [out], each once. *)
Lemma shown_timeline_perm moments footprints isEnded :
  Permutation (shown (rendered moments footprints isEnded))
    (matched moments footprints).
Proof.
  rewrite rendered_eq. unfold entries.
  apply Permutation_trans with (Array_sort (by_time isEnded) (matched moments footprints)).
  - apply shown_sections_perm.
  - apply Array_sort_perm.
Qed.

Lemma shown_footprints_perm l1 l2 :
  Permutation l1 l2 -> Permutation (shown_footprints l1) (shown_footprints l2).
Proof. apply Permutation_flat_map. Qed.

Lemma shown_moments_perm l1 l2 :
  Permutation l1 l2 -> Permutation (shown_moments l1) (shown_moments l2).
Proof. apply Permutation_flat_map. Qed.

(** Counting the entries that show an id is counting the id among the
    things shown. *)
Lemma count_shows_footprint id l :
  length (List.filter (shows_footprint id) l) =
  length (List.filter (fun f => String.eqb (f_id f) id) (shown_footprints l)).
Proof.
  induction l as [|it l IH]; simpl; [reflexivity|].
  rewrite List.filter_app, length_app, <- IH.
  unfold shows_footprint at 1. destruct (entry_footprint it) as [f|]; simpl.
  - destruct (String.eqb (f_id f) id); reflexivity.
  - reflexivity.
Qed.

Lemma count_shows_moment id l :
  length (List.filter (shows_moment id) l) =
  length (List.filter (fun m => String.eqb (m_id m) id) (shown_moments l)).
Proof.
  induction l as [|it l IH]; simpl; [reflexivity|].
  rewrite List.filter_app, length_app, <- IH.
  unfold shows_moment at 1. destruct (entry_moment it) as [m|]; simpl.
  - destruct (String.eqb (m_id m) id); reflexivity.
  - reflexivity.
Qed.

Lemma filter_perm_length {A : Type} (p : A -> bool) (l1 l2 : list A) :
  Permutation l1 l2 -> length (List.filter p l1) = length (List.filter p l2).
Proof.
  induction 1 as [|x l1 l2 _ IH|x y l|l1 l2 l3 _ IH1 _ IH2]; simpl.
  - reflexivity.
  - destruct (p x); simpl; congruence.
  - destruct (p x), (p y); reflexivity.
  - congruence.
Qed.

(** In a list with distinct ids, an id that occurs occurs once. *)
Lemma count_distinct_id {A : Type} (id_of : A -> string) (l : list A) (x : A) :
  NoDup (List.map id_of l) -> In x l ->
  length (List.filter (fun y => String.eqb (id_of y) (id_of x)) l) = 1%nat.
Proof.
  induction l as [|a l IH]; simpl; intros Hnd Hin; [destruct Hin|].
  inversion Hnd as [|? ? Hna Hnd']; subst.
  destruct (String.eqb_spec (id_of a) (id_of x)) as [E|E]; simpl.
  - f_equal. destruct (List.filter _ l) as [|y l'] eqn:F; [reflexivity|].
    exfalso. assert (Hy : In y (y :: l')) by now left.
    rewrite <- F in Hy. apply filter_In in Hy. destruct Hy as [Hy Ey].
    apply String.eqb_eq in Ey. apply Hna. rewrite E, <- Ey. now apply in_map.
  - destruct Hin as [->|Hin]; [contradiction | now apply IH].
Qed.

(* =================================================================== *)
(** ** Partition, coverage and window *)
(* =================================================================== *)

(** C1. Partition of footprints: when the footprint ids are pairwise
    distinct, the reconciliation answers a timeline, and the footprints
    that its entries show are the footprints given, each once; so every
    footprint given is shown by exactly one entry, a combined or a
    footprint-only one. *)
Theorem footprints_partition moments footprints isEnded :
  NoDup (List.map f_id footprints) ->
  exists tl,
    timeline moments footprints isEnded = Some tl /\
    Permutation (shown_footprints (shown tl)) footprints /\
    forall f, In f footprints ->
      length (List.filter (shows_footprint (f_id f)) (shown tl)) = 1%nat.
Proof.
  intros Hids. exists (rendered moments footprints isEnded).
  split; [apply timeline_total|].
  assert (Hp : Permutation
            (shown_footprints (shown (rendered moments footprints isEnded)))
            footprints).
  { apply Permutation_trans with (shown_footprints (matched moments footprints)).
    - apply shown_footprints_perm, shown_timeline_perm.
    - now apply matched_footprints. }
  split; [exact Hp|].
  intros f Hf. rewrite count_shows_footprint.
  rewrite (filter_perm_length _ _ _ Hp).
  now apply (count_distinct_id f_id).
Qed.

(** C3. Coverage of moments: the reconciliation answers a timeline, and
    the moments that its entries show are the moments given, each as
    often as it is given; with pairwise distinct ids every moment given
    is shown by exactly one entry, a combined or a moment-only one. *)
Theorem moments_coverage moments footprints isEnded :
  exists tl,
    timeline moments footprints isEnded = Some tl /\
    Permutation (shown_moments (shown tl)) moments /\
    (NoDup (List.map m_id moments) ->
     forall m, In m moments ->
       length (List.filter (shows_moment (m_id m)) (shown tl)) = 1%nat).
Proof.
  exists (rendered moments footprints isEnded).
  split; [apply timeline_total|].
  assert (Hp : Permutation
            (shown_moments (shown (rendered moments footprints isEnded))) moments).
  { rewrite <- (matched_moments moments footprints) at 2.
    apply shown_moments_perm, shown_timeline_perm. }
  split; [exact Hp|].
  intros Hids m Hm. rewrite count_shows_moment.
  rewrite (filter_perm_length _ _ _ Hp).
  now apply (count_distinct_id m_id).
Qed.

Lemma delta_finite t f d :
  delta t f = Num d ->
  exists tm tf, t = Num tm /\ ms (f_created_at f) = Num tf /\ d = Z.abs (tf - tm).
Proof.
  unfold delta. destruct (ms (f_created_at f)) as [tf| | |], t as [tm| | |];
    simpl; try discriminate.
  intros [= <-]. eauto.
Qed.

(** The combined entries of [out] pair a moment and a footprint of the
    input that lie within the window. *)
Lemma matched_combined moments footprints c m f :
  In (kind_combined c m f) (matched moments footprints) ->
  c = m_created_at m /\ In m moments /\ In f footprints /\
  exists tm tf,
    ms (m_created_at m) = Num tm /\ ms (f_created_at f) = Num tf /\
    Z.abs (tf - tm) <= 120000.
Proof.
  destruct (matched_greedy moments footprints) as (es & used & Hg & ->).
  intros Hin. apply in_app_or in Hin. destruct Hin as [Hin|Hin].
  - destruct (greedy_window _ _ _ _ _ Hg c m f Hin) as (Hc & Hm & Hf & d & Hd & Hle).
    repeat split; auto.
    + apply (Permutation_in _ (Array_sort_perm newest_first footprints)). exact Hf.
    + destruct (delta_finite _ _ _ Hd) as (tm & tf & Hm' & Hf' & ->). eauto.
  - unfold residual in Hin. apply in_map_iff in Hin.
    destruct Hin as (g & [=] & _).
Qed.

(** C2. Proximity window: the reconciliation answers a timeline, and a
    combined entry of it pairs a moment and a footprint of the input
    whose timestamps both parse and differ by at most 120000 ms. *)
Theorem combined_within_window moments footprints isEnded :
  exists tl,
    timeline moments footprints isEnded = Some tl /\
    forall c m f, In (kind_combined c m f) (shown tl) ->
      In m moments /\ In f footprints /\
      exists tm tf,
        ms (m_created_at m) = Num tm /\ ms (f_created_at f) = Num tf /\
        Z.abs (tf - tm) <= 120000.
Proof.
  exists (rendered moments footprints isEnded).
  split; [apply timeline_total|]. intros c m f Hin.
  apply (Permutation_in _ (shown_timeline_perm moments footprints isEnded)) in Hin.
  apply matched_combined in Hin. tauto.
Qed.

(* =================================================================== *)
(** ** Timestamps that do not parse *)
(* =================================================================== *)

(** [ms] answers a time value or [NaN]. *)
Lemma ms_cases iso : ms iso = NaN \/ exists t, ms iso = Num t.
Proof.
  unfold ms, getTime, new_Date, TimeClip.
  destruct (Date_parse iso) as [t| | |]; auto.
  destruct (Z.abs t <=? 8640000000000000); eauto.
Qed.

Lemma greedy_entry scan used moments es used' :
  greedy scan used moments es used' ->
  forall m, In m moments ->
    In (kind_moment (m_created_at m) m) es \/
    exists f, In (kind_combined (m_created_at m) m f) es.
Proof.
  induction 1 as [used|used m f rest out used' Hn Hg IH|used m rest out used' Hn Hg IH];
    intros m' Hm; simpl in Hm.
  - destruct Hm.
  - destruct Hm as [<-|Hm].
    + right. exists f. now left.
    + destruct (IH m' Hm) as [?|[g ?]]; [left | right; exists g]; now right.
  - destruct Hm as [<-|Hm].
    + left. now left.
    + destruct (IH m' Hm) as [?|[g ?]]; [left | right; exists g]; now right.
Qed.

Lemma greedy_shown_combined scan used moments es used' :
  greedy scan used moments es used' ->
  forall g, In g (shown_footprints es) -> exists c m, In (kind_combined c m g) es.
Proof.
  induction 1 as [used|used m f rest out used' Hn Hg IH|used m rest out used' Hn Hg IH];
    intros g Hin; simpl in Hin.
  - destruct Hin.
  - destruct Hin as [<-|Hin].
    + exists (m_created_at m), m. now left.
    + destruct (IH g Hin) as (c & m' & ?). exists c, m'. now right.
  - destruct (IH g Hin) as (c & m' & ?). exists c, m'. now right.
Qed.

(** A moment whose timestamp does not parse stays alone in [out]. *)
Lemma matched_moment_alone moments footprints m :
  In m moments -> ms (m_created_at m) = NaN ->
  In (kind_moment (m_created_at m) m) (matched moments footprints).
Proof.
  intros Hm Hnan.
  destruct (matched_greedy moments footprints) as (es & used & Hg & E).
  destruct (greedy_entry _ _ _ _ _ Hg m Hm) as [Hin|[f Hin]].
  - rewrite E. apply in_or_app. now left.
  - assert (Hc : In (kind_combined (m_created_at m) m f) (matched moments footprints))
      by (rewrite E; apply in_or_app; now left).
    apply matched_combined in Hc.
    destruct Hc as (_ & _ & _ & tm & tf & Htm & _). congruence.
Qed.

(** With distinct ids, a footprint whose timestamp does not parse stays
    alone in [out]. *)
Lemma matched_footprint_alone moments footprints f :
  NoDup (List.map f_id footprints) ->
  In f footprints -> ms (f_created_at f) = NaN ->
  In (kind_footprint (f_created_at f) f) (matched moments footprints).
Proof.
  intros Hids Hf Hnan.
  destruct (matched_greedy moments footprints) as (es & used & Hg & E).
  set (scan := fpsForMatching footprints) in *.
  assert (Hperm : Permutation scan footprints) by apply Array_sort_perm.
  assert (Hscan : NoDup (List.map f_id scan)).
  { apply (Permutation_NoDup (l := List.map f_id footprints)); [|exact Hids].
    apply Permutation_map, Permutation_sym, Hperm. }
  assert (Hfs : In f scan) by (apply (Permutation_in _ (Permutation_sym Hperm)), Hf).
  rewrite E. apply in_or_app. right. unfold residual.
  apply (in_map (fun f => kind_footprint (f_created_at f) f)).
  apply filter_In. split; [exact Hfs|].
  apply negb_true_iff, bool_decide_eq_false. intros Hu.
  apply (greedy_used _ _ _ _ _ Hg) in Hu. destruct Hu as [Hu|Hu]; [clear LocalTZA; set_solver|].
  apply in_map_iff in Hu. destruct Hu as (g & Hid & Hg').
  destruct (greedy_fresh _ _ _ _ _ Hg) as (_ & _ & Hin).
  assert (g = f) as -> by (apply (NoDup_map_injective f_id scan); auto).
  destruct (greedy_shown_combined _ _ _ _ _ Hg f Hg') as (c & m & Hc).
  assert (Hc' : In (kind_combined c m f) (matched moments footprints))
    by (rewrite E; apply in_or_app; now left).
  apply matched_combined in Hc'.
  destruct Hc' as (_ & _ & _ & tm & tf & _ & Htf & _). congruence.
Qed.

(** C10. An entry whose timestamp does not parse takes part in no
    match: a moment whose timestamp does not parse is shown by a
    moment-only entry; no combined entry holds a moment or a footprint
    whose timestamp does not parse; and a footprint whose timestamp
    does not parse is shown by a footprint-only entry, the ids of the
    footprints being pairwise distinct, as the identifiers of the rows
    of one table are. *)
Theorem unparseable_never_matched moments footprints isEnded :
  exists tl,
    timeline moments footprints isEnded = Some tl /\
    (forall m, In m moments -> ms (m_created_at m) = NaN ->
       In (kind_moment (m_created_at m) m) (shown tl)) /\
    (forall c m f, In (kind_combined c m f) (shown tl) ->
       ms (m_created_at m) <> NaN /\ ms (f_created_at f) <> NaN) /\
    (NoDup (List.map f_id footprints) ->
     forall f, In f footprints -> ms (f_created_at f) = NaN ->
       In (kind_footprint (f_created_at f) f) (shown tl)).
Proof.
  exists (rendered moments footprints isEnded).
  split; [apply timeline_total|].
  pose proof (shown_timeline_perm moments footprints isEnded) as Hp.
  split; [|split].
  - intros m Hm Hnan. apply (Permutation_in _ (Permutation_sym Hp)).
    now apply matched_moment_alone.
  - intros c m f Hin. apply (Permutation_in _ Hp) in Hin.
    apply matched_combined in Hin.
    destruct Hin as (_ & _ & _ & tm & tf & -> & -> & _). split; discriminate.
  - intros Hids f Hf Hnan. apply (Permutation_in _ (Permutation_sym Hp)).
    now apply matched_footprint_alone.
Qed.

(* =================================================================== *)
(** ** The greedy matching and its tie-break *)
(* =================================================================== *)

(** When the timestamps of the footprints parse, [fpsForMatching] runs
    from the newest to the oldest. *)
Lemma fpsForMatching_sorted footprints :
  (forall f, In f footprints -> ms (f_created_at f) <> NaN) ->
  StronglySorted not_older (fpsForMatching footprints).
Proof.
  intros Hparse. unfold fpsForMatching.
  apply (Array_sort_sorted newest_first not_older
           (fun f => exists t, ms (f_created_at f) = Num t)).
  - intros a b c _ _ _ (ta & tb & Ha & Hb & Hab) (tb' & tc & Hb' & Hc & Hbc).
    exists ta, tc. repeat split; auto. rewrite Hb in Hb'. injection Hb' as <-. lia.
  - intros a b [ta Ha] [tb Hb]. unfold SortCompare, newest_first.
    rewrite Ha, Hb. simpl. intros H. exists ta, tb. repeat split; auto. lia.
  - intros a b [ta Ha] [tb Hb]. unfold SortCompare, newest_first.
    rewrite Ha, Hb. simpl. intros H. exists tb, ta. repeat split; auto. lia.
  - apply List.Forall_forall. intros f Hf.
    destruct (ms_cases (f_created_at f)) as [E|E]; [|exact E].
    now apply Hparse in E.
Qed.

Lemma scenario_3 m1 m2 f t :
  ms (m_created_at m1) = Num t ->
  ms (m_created_at m2) = Num (t + 30000) ->
  ms (f_created_at f) = Num (t + 15000) ->
  matched [m1; m2] [f] =
    [kind_combined (m_created_at m1) m1 f; kind_moment (m_created_at m2) m2].
Proof.
  intros H1 H2 Hf.
  assert (E1 : find_best empty (ms (m_created_at m1)) [f] = Some f).
  { unfold find_best. simpl. unfold scan_step.
    rewrite bool_decide_eq_false_2 by (clear LocalTZA; set_solver).
    rewrite H1, Hf. simpl.
    replace (Z.abs (t + 15000 - t)) with 15000 by lia. reflexivity. }
  assert (E2 : find_best (union (singleton (f_id f)) empty)
                 (ms (m_created_at m2)) [f] = None).
  { unfold find_best. simpl. unfold scan_step.
    rewrite bool_decide_eq_true_2 by (clear LocalTZA; set_solver). reflexivity. }
  unfold matched, fpsForMatching.
  change (Array_sort newest_first [f]) with [f].
  cbv zeta. cbn [fold_left]. unfold match_step. cbn [fst snd].
  rewrite E1. cbn [fst snd]. rewrite E2. cbn [fst snd app].
  unfold residual_step.
  rewrite bool_decide_eq_true_2 by (clear LocalTZA; set_solver). reflexivity.
Qed.

(** C7, as amended. Greedy matching with its tie-break: the scan order
    [fpsForMatching] holds the footprints given and, when their
    timestamps parse, runs from the newest to the oldest; [out] is the
    greedy run over the moments in their order, each moment getting the
    unused footprint within the window at the least distance and, of
    several at that distance, the first of the scan, followed by the
    footprints left over; two moments 30 s apart with one footprint
    halfway give one combined and one moment-only entry, in [out] and
    in the timeline. *)
Theorem greedy_tie_break moments footprints :
  Permutation (fpsForMatching footprints) footprints /\
  ((forall f, In f footprints -> ms (f_created_at f) <> NaN) ->
   StronglySorted not_older (fpsForMatching footprints)) /\
  (exists es used,
     greedy (fpsForMatching footprints) empty moments es used /\
     matched moments footprints =
       (es ++ residual used (fpsForMatching footprints))%list) /\
  (forall m1 m2 f t,
     ms (m_created_at m1) = Num t ->
     ms (m_created_at m2) = Num (t + 30000) ->
     ms (f_created_at f) = Num (t + 15000) ->
     matched [m1; m2] [f] =
       [kind_combined (m_created_at m1) m1 f; kind_moment (m_created_at m2) m2] /\
     forall isEnded, exists tl,
       timeline [m1; m2] [f] isEnded = Some tl /\
       Permutation (shown tl)
         [kind_combined (m_created_at m1) m1 f; kind_moment (m_created_at m2) m2]).
Proof.
  split; [apply Array_sort_perm|]. split; [apply fpsForMatching_sorted|].
  split; [apply matched_greedy|].
  intros m1 m2 f t H1 H2 Hf. split; [now apply (scenario_3 m1 m2 f t)|].
  intros isEnded. exists (rendered [m1; m2] [f] isEnded).
  split; [apply timeline_total|].
  rewrite <- (scenario_3 m1 m2 f t H1 H2 Hf). apply shown_timeline_perm.
Qed.

(* =================================================================== *)
(** ** Day keys *)
(* =================================================================== *)

Lemma digits_aux_head fuel n acc :
  fuel <> O ->
  exists d s, 0 <= d < 10 /\ digits_aux fuel n acc = String (digit_char d) s.
Proof.
  clear Date_parse LocalTZA.
  revert n acc. induction fuel as [|k IH]; intros n acc Hf; [contradiction|].
  simpl. assert (Hd : 0 <= n mod 10 < 10) by (apply Z.mod_pos_bound; lia).
  destruct (n / 10 =? 0); [eauto|].
  destruct k as [|k]; [simpl; eauto|]. now apply IH.
Qed.

Lemma digit_char_below_N d : 0 <= d < 10 -> Ascii.compare (digit_char d) "N" = Lt.
Proof.
  clear Date_parse LocalTZA.
  intros H.
  assert (E : d = 0 \/ d = 1 \/ d = 2 \/ d = 3 \/ d = 4 \/
              d = 5 \/ d = 6 \/ d = 7 \/ d = 8 \/ d = 9) by lia.
  repeat (destruct E as [->|E]; [reflexivity|]). subst. reflexivity.
Qed.

(** The string of an integer begins below the letter N. *)
Lemma Number_toString_head z :
  exists c s, Number_toString (Num z) = String c s /\ Ascii.compare c "N" = Lt.
Proof.
  clear Date_parse LocalTZA.
  simpl. destruct (z <? 0).
  - exists "-"%char, (digits (- z)). split; reflexivity.
  - destruct (digits_aux_head (S (Z.to_nat (Z.log2 z))) z EmptyString)
      as (d & s & Hd & E); [discriminate|].
    exists (digit_char d), s. split; [exact E | now apply digit_char_below_N].
Qed.

Lemma dayKey_NaN iso : ms iso = NaN -> dayKey iso = NaN_key.
Proof. unfold ms, getTime, dayKey. intros ->. reflexivity. Qed.

Lemma dayKey_below_NaN iso t :
  ms iso = Num t -> String.compare (dayKey iso) NaN_key = Lt.
Proof.
  unfold ms, getTime, dayKey. intros ->. cbv zeta.
  unfold getFullYear.
  destruct (Number_toString_head (YearFromTime (LocalTime t))) as (c & s & -> & Hc).
  simpl. now rewrite Hc.
Qed.

(** The key tells whether the timestamp parses. *)
Lemma dayKey_NaN_iff iso : dayKey iso = NaN_key <-> ms iso = NaN.
Proof.
  split; [|apply dayKey_NaN].
  intros E. destruct (ms_cases iso) as [H|[t H]]; [exact H|].
  apply dayKey_below_NaN in H. rewrite E in H. discriminate.
Qed.

Lemma key_lt_asym a b : key_lt a b -> key_lt b a -> False.
Proof.
  unfold key_lt. intros H1 H2. rewrite String.compare_antisym, H1 in H2. discriminate.
Qed.

Lemma key_before_asym e a b : key_before e a b -> key_before e b a -> False.
Proof. destruct e; simpl; intros; eapply key_lt_asym; eauto. Qed.

Lemma leb_trans a b c :
  String.leb a b = true -> String.leb b c = true -> String.leb a c = true.
Proof.
  intros H1 H2. apply Is_true_true.
  apply (@transitivity _ String.le _ a b c); now apply Is_true_true.
Qed.

Lemma StronglySorted_strict {A B : Type} (R R' : A -> A -> Prop) (v : A -> B) l :
  (forall a b, R a b -> v a <> v b -> R' a b) ->
  NoDup (List.map v l) -> StronglySorted R l -> StronglySorted R' l.
Proof.
  intros HR Hnd Hs. induction Hs as [|a l Hs IH Ha]; [constructor|].
  simpl in Hnd. inversion Hnd as [|? ? Hna Hnd']; subst.
  constructor; [now apply IH|].
  rewrite List.Forall_forall in *. intros b Hb. apply HR; [now apply Ha|].
  intros E. apply Hna. rewrite E. now apply in_map.
Qed.

(** [dayKeys] puts distinct keys in the direction of the flag. *)
Lemma dayKeys_sorted (map : list (string * list TimelineEntry)) isEnded :
  NoDup (Map_keys map) -> StronglySorted (key_before isEnded) (dayKeys map isEnded).
Proof.
  intros Hnd. unfold dayKeys.
  apply (StronglySorted_strict
           (fun a b => if isEnded then String.leb a b = true else String.leb b a = true)
           (key_before isEnded) (fun k => k)).
  - intros a b Hab Hne. unfold key_before, key_lt.
    destruct isEnded; unfold String.leb in Hab.
    + destruct (String.compare a b) eqn:E; try discriminate; [|reflexivity].
      now apply String.compare_eq_iff in E.
    + destruct (String.compare b a) eqn:E; try discriminate; [|reflexivity].
      apply String.compare_eq_iff in E. now symmetry in E.
  - rewrite map_id.
    apply (Permutation_NoDup (Permutation_sym (Array_sort_perm _ _))), Hnd.
  - apply (Array_sort_sorted (by_key isEnded) _ (fun _ => True)).
    + intros a b c _ _ _. destruct isEnded; intros H1 H2; eapply leb_trans; eauto.
    + intros a b _ _. unfold SortCompare, by_key, string_gtb, String.leb.
      destruct (String.eqb_spec a b) as [->|Hne].
      * intros _. assert (E : String.compare b b = Eq).
        { destruct (String.compare b b) eqn:E; [reflexivity| |];
            pose proof E as E'; rewrite String.compare_antisym, E in E'; discriminate. }
        rewrite E. now destruct isEnded.
      * pose proof (String.compare_antisym b a) as E'.
        destruct (String.compare a b) eqn:E; rewrite E'; simpl;
          destruct isEnded; simpl; intros; try reflexivity; lia.
    + intros a b _ _. unfold SortCompare, by_key, string_gtb, String.leb.
      destruct (String.eqb_spec a b) as [->|Hne]; [lia|].
      pose proof (String.compare_antisym b a) as E'.
      destruct (String.compare a b) eqn:E; rewrite ?E'; simpl;
        destruct isEnded; simpl; intros; try reflexivity; try lia;
        apply String.compare_eq_iff in E; contradiction.
    + apply List.Forall_forall. auto.
Qed.

(* =================================================================== *)
(** ** The order of the entries of a day *)
(* =================================================================== *)

Lemma strictly_before_asym e a b :
  strictly_before e a b -> strictly_before e b a -> False.
Proof.
  destruct e; simpl; intros (ta & tb & Ha & Hb & H) (tb' & ta' & Hb' & Ha' & H');
    rewrite Ha in Ha'; rewrite Hb in Hb';
    injection Ha' as <-; injection Hb' as <-; lia.
Qed.

(** Entries whose timestamps parse are sorted in the direction of the
    flag. *)
Lemma by_time_sorted isEnded (l : list TimelineEntry) :
  (forall it, In it l -> exists t, stamp it = Num t) ->
  StronglySorted (shown_before isEnded) (Array_sort (by_time isEnded) l).
Proof.
  intros Hl.
  apply (Array_sort_sorted (by_time isEnded) _ (fun it => exists t, stamp it = Num t)).
  - intros a b c _ _ _. destruct isEnded; simpl;
      intros (t1 & t2 & H1 & H2 & H12) (t3 & t4 & H3 & H4 & H34);
      [exists t1, t4 | exists t3, t2]; repeat split; auto;
      rewrite ?H2 in *; rewrite ?H1 in *;
      [injection H3 as <- | injection H4 as <-]; lia.
  - intros a b [ta Ha] [tb Hb]. unfold SortCompare, by_time. fold (stamp a) (stamp b).
    rewrite Ha, Hb. destruct isEnded; simpl; intros H;
      [exists ta, tb | exists tb, ta]; repeat split; auto; lia.
  - intros a b [ta Ha] [tb Hb]. unfold SortCompare, by_time. fold (stamp a) (stamp b).
    rewrite Ha, Hb. destruct isEnded; simpl; intros H;
      [exists tb, ta | exists ta, tb]; repeat split; auto; lia.
  - apply List.Forall_forall. exact Hl.
Qed.

Lemma StronglySorted_weaken {A : Type} (R R' : A -> A -> Prop) (l : list A) :
  (forall a b, R a b -> R' a b) -> StronglySorted R l -> StronglySorted R' l.
Proof.
  intros H. induction 1 as [|a l Hs IH Ha]; constructor; [exact IH|].
  rewrite List.Forall_forall in *. auto.
Qed.

Lemma filter_perm {A : Type} (p : A -> bool) (l1 l2 : list A) :
  Permutation l1 l2 -> Permutation (List.filter p l1) (List.filter p l2).
Proof.
  induction 1 as [|x l1 l2 _ IH|x y l|l1 l2 l3 _ IH1 _ IH2]; simpl.
  - constructor.
  - destruct (p x); [now apply perm_skip | exact IH].
  - destruct (p x), (p y); try apply Permutation_refl. apply perm_swap.
  - eapply Permutation_trans; eauto.
Qed.

Lemma NoDup_map_filter {A B : Type} (v : A -> B) (p : A -> bool) (l : list A) :
  NoDup (List.map v l) -> NoDup (List.map v (List.filter p l)).
Proof.
  induction l as [|x l IH]; simpl; intros Hnd; [constructor|].
  inversion Hnd as [|? ? Hx Hnd']; subst.
  destruct (p x); simpl; [|now apply IH].
  constructor; [|now apply IH].
  intros Hin. apply Hx. apply in_map_iff in Hin. destruct Hin as (y & E & Hy).
  apply filter_In in Hy. rewrite <- E. apply in_map. tauto.
Qed.

(** The entries of one day whose sort keys differ: the two directions
    show them in opposite orders. *)
Lemma day_sort_reverse key isEnded (l1 l2 : list TimelineEntry) :
  Permutation l1 l2 ->
  (forall it, In it l1 -> day_of it = key) ->
  NoDup (List.map stamp l1) ->
  Array_sort (by_time (negb isEnded)) l1 = rev (Array_sort (by_time isEnded) l2).
Proof.
  intros Hp Hday Hnd.
  destruct (String.eqb_spec key NaN_key) as [->|Hkey].
  - (* no timestamp parses: at most one entry *)
    assert (Hnan : forall it, In it l1 -> stamp it = NaN).
    { intros it Hit. apply dayKey_NaN_iff. now apply Hday. }
    destruct l1 as [|a [|b l1]].
    + apply Permutation_nil in Hp. subst. reflexivity.
    + apply Permutation_length_1_inv in Hp. subst. reflexivity.
    + exfalso. simpl in Hnd. inversion Hnd as [|? ? Hx _]; subst.
      apply Hx. left. rewrite (Hnan a), (Hnan b); simpl; auto.
  - (* every timestamp parses: one sorted arrangement *)
    assert (Hfin : forall it, In it l1 -> exists t, stamp it = Num t).
    { intros it Hit. destruct (ms_cases (created_at it)) as [E|E]; [|exact E].
      exfalso. apply Hkey. rewrite <- (Hday it Hit). now apply dayKey_NaN. }
    assert (Hfin2 : forall it, In it l2 -> exists t, stamp it = Num t).
    { intros it Hit. apply Hfin, (Permutation_in _ (Permutation_sym Hp)), Hit. }
    assert (Hstrict : forall e a b,
               shown_before e a b -> stamp a <> stamp b -> strictly_before e a b).
    { intros e a b. destruct e; simpl; intros (ta & tb & Ha & Hb & H) Hne;
        [exists ta, tb | exists ta, tb]; repeat split; auto;
        assert (ta <> tb) by (intros ->; apply Hne; congruence); lia. }
    apply (sorted_perm_unique (strictly_before (negb isEnded))).
    + apply strictly_before_asym.
    + apply (StronglySorted_strict (shown_before (negb isEnded)) _ stamp).
      * apply Hstrict.
      * apply (Permutation_NoDup (l := List.map stamp l1)); [|exact Hnd].
        apply Permutation_map, Permutation_sym, Array_sort_perm.
      * now apply by_time_sorted.
    + apply (StronglySorted_weaken (fun a b => strictly_before isEnded b a)).
      * intros a b. now destruct isEnded.
      * apply StronglySorted_rev.
        apply (StronglySorted_strict (shown_before isEnded) _ stamp).
        -- apply Hstrict.
        -- apply (Permutation_NoDup (l := List.map stamp l1)); [|exact Hnd].
           apply Permutation_map.
           apply Permutation_trans with l2; [exact Hp|].
           apply Permutation_sym, Array_sort_perm.
        -- now apply by_time_sorted.
    + apply Permutation_trans with l1; [apply Array_sort_perm|].
      apply Permutation_trans with l2; [exact Hp|].
      apply Permutation_trans with (Array_sort (by_time isEnded) l2).
      * apply Permutation_sym, Array_sort_perm.
      * apply Permutation_rev.
Qed.

(** The keys of the two directions are each other's reverse. *)
Lemma dayKeys_reverse isEnded (map1 map2 : list (string * list TimelineEntry)) :
  NoDup (Map_keys map1) -> Permutation (Map_keys map1) (Map_keys map2) ->
  dayKeys map1 (negb isEnded) = rev (dayKeys map2 isEnded).
Proof.
  intros Hnd Hp.
  assert (Hnd2 : NoDup (Map_keys map2)) by apply (Permutation_NoDup Hp Hnd).
  apply (sorted_perm_unique (key_before (negb isEnded))).
  - apply key_before_asym.
  - now apply dayKeys_sorted.
  - apply (StronglySorted_weaken (fun a b => key_before isEnded b a)).
    + intros a b. now destruct isEnded.
    + apply StronglySorted_rev. now apply dayKeys_sorted.
  - apply Permutation_trans with (Map_keys map1); [apply dayKeys_perm|].
    apply Permutation_trans with (Map_keys map2); [exact Hp|].
    apply Permutation_trans with (dayKeys map2 isEnded).
    + apply Permutation_sym, dayKeys_perm.
    + apply Permutation_rev.
Qed.

(** The keys of [grouped] depend on the entries, not on their order. *)
Lemma grouped_keys_perm es1 es2 :
  Permutation es1 es2 ->
  Permutation (Map_keys (groups es1)) (Map_keys (groups es2)).
Proof.
  intros Hp.
  destruct (grouped_spec es1) as (Hnd1 & Hk1 & _).
  destruct (grouped_spec es2) as (Hnd2 & Hk2 & _).
  apply Permutation.NoDup_Permutation; auto.
  intros k. rewrite Hk1, Hk2.
  split; apply Permutation_in, Permutation_map;
    [exact Hp | apply Permutation_sym, Hp].
Qed.

Lemma entries_perm moments footprints e1 e2 :
  Permutation (entries moments footprints e1) (entries moments footprints e2).
Proof.
  unfold entries.
  apply Permutation_trans with (matched moments footprints).
  - apply Array_sort_perm.
  - apply Permutation_sym, Array_sort_perm.
Qed.

Lemma in_sections key items es isEnded :
  In (key, items) (sections_of es isEnded) ->
  In key (dayKeys (groups es) isEnded) /\
  items = Array_sort (by_time isEnded) (of_day key es).
Proof.
  rewrite sections_eq. intros Hin. apply in_map_iff in Hin.
  destruct Hin as (dk & [= <- <-] & Hdk). auto.
Qed.

(** C5, as amended. Flipping the flag reverses the sequence of day
    keys and leaves every day group its entries; when no two entries
    have the same sort key (timestamps that do not parse counting as
    one key), it reverses the sequence of day groups and the sequence of
    entries within every group exactly. *)
Theorem direction_reversal moments footprints isEnded :
  exists tl tl',
    timeline moments footprints isEnded = Some tl /\
    timeline moments footprints (negb isEnded) = Some tl' /\
    List.map fst tl' = rev (List.map fst tl) /\
    (forall key items items',
       In (key, items) tl -> In (key, items') tl' -> Permutation items items') /\
    (NoDup (List.map stamp (matched moments footprints)) ->
     tl' = rev (List.map (fun s => (fst s, rev (snd s))) tl)).
Proof.
  exists (rendered moments footprints isEnded),
         (rendered moments footprints (negb isEnded)).
  split; [apply timeline_total|]. split; [apply timeline_total|].
  rewrite !rendered_eq.
  set (es := entries moments footprints isEnded).
  set (es' := entries moments footprints (negb isEnded)).
  assert (Hp : Permutation es' es) by apply entries_perm.
  assert (Hkeys : dayKeys (groups es') (negb isEnded) =
                  rev (dayKeys (groups es) isEnded)).
  { apply dayKeys_reverse.
    - apply grouped_spec.
    - now apply grouped_keys_perm. }
  split; [|split].
  - now rewrite !sections_keys.
  - intros key items items' Hin Hin'.
    apply in_sections in Hin, Hin'.
    destruct Hin as [_ ->], Hin' as [_ ->].
    apply Permutation_trans with (of_day key es); [apply Array_sort_perm|].
    apply Permutation_trans with (of_day key es').
    + apply filter_perm, Permutation_sym, Hp.
    + apply Permutation_sym, Array_sort_perm.
  - intros Hnd.
    rewrite <- map_rev, !sections_eq, <- map_rev, Hkeys, map_map. simpl.
    apply map_ext_in. intros dk _. f_equal.
    apply (day_sort_reverse dk).
    + now apply filter_perm.
    + intros it Hit. apply filter_In in Hit. now apply String.eqb_eq.
    + apply NoDup_map_filter.
      apply (Permutation_NoDup (l := List.map stamp (matched moments footprints)));
        [|exact Hnd].
      apply Permutation_map, Permutation_sym, Array_sort_perm.
Qed.

(* =================================================================== *)
(** ** Where the entries without a time go *)
(* =================================================================== *)

(** An entry is shown in the section of its day. *)
Lemma in_sections_of_day es isEnded it :
  In it es ->
  exists items, In (day_of it, items) (sections_of es isEnded) /\ In it items.
Proof.
  intros Hit. exists (Array_sort (by_time isEnded) (of_day (day_of it) es)). split.
  - rewrite sections_eq.
    apply (in_map (fun dk => (dk, Array_sort (by_time isEnded) (of_day dk es)))).
    apply (Permutation_in _ (Permutation_sym (dayKeys_perm (groups es) isEnded))).
    destruct (grouped_spec es) as (_ & Hk & _). apply Hk. now apply in_map.
  - apply Array_sort_In. apply filter_In. split; [exact Hit | apply String.eqb_refl].
Qed.

Lemma sorted_head (R : string -> string -> Prop) (l : list string) (x : string) :
  (forall a b, R a b -> R b a -> False) ->
  StronglySorted R l -> In x l -> (forall y, In y l -> y <> x -> R x y) ->
  exists rest, l = x :: rest.
Proof.
  intros asym Hs Hx Hmin. destruct l as [|a l]; [destruct Hx|].
  destruct (String.eqb_spec a x) as [->|Hne]; [eauto|].
  exfalso. destruct Hx as [Hx|Hx]; [contradiction|].
  inversion Hs as [|? ? _ Ha]; subst. rewrite List.Forall_forall in Ha.
  apply (asym a x); [now apply Ha|]. apply Hmin; [now left | exact Hne].
Qed.

Lemma sorted_last (R : string -> string -> Prop) (l : list string) (x : string) :
  (forall a b, R a b -> R b a -> False) ->
  StronglySorted R l -> In x l -> (forall y, In y l -> y <> x -> R y x) ->
  exists rest, l = (rest ++ [x])%list.
Proof.
  intros asym Hs Hx Hmax.
  destruct (sorted_head (fun a b => R b a) (rev l) x) as [rest E].
  - intros a b H1 H2. exact (asym b a H1 H2).
  - now apply StronglySorted_rev.
  - now apply in_rev in Hx.
  - intros y Hy. apply in_rev in Hy. now apply Hmax.
  - exists (rev rest). rewrite <- (rev_involutive l), E. reflexivity.
Qed.

(** Every key of [grouped] other than [NaN_key] lies below it. *)
Lemma keys_below_NaN es key :
  In key (Map_keys (groups es)) -> key <> NaN_key -> key_lt key NaN_key.
Proof.
  intros Hin Hne. destruct (grouped_spec es) as (_ & Hk & _).
  apply Hk, in_map_iff in Hin.
  destruct Hin as (it & <- & _). unfold day_of in *.
  destruct (ms_cases (created_at it)) as [E|[t E]].
  - apply dayKey_NaN in E. contradiction.
  - exact (dayKey_below_NaN _ _ E).
Qed.

(** [NaN_key] comes last among ascending keys and first among
    descending ones. *)
Lemma NaN_key_place es isEnded :
  In NaN_key (dayKeys (groups es) isEnded) ->
  if isEnded
  then exists before, dayKeys (groups es) isEnded = (before ++ [NaN_key])%list
  else exists after, dayKeys (groups es) isEnded = NaN_key :: after.
Proof.
  intros Hin.
  assert (Hs : StronglySorted (key_before isEnded) (dayKeys (groups es) isEnded))
    by (apply dayKeys_sorted, grouped_spec).
  assert (Hbelow : forall y, In y (dayKeys (groups es) isEnded) ->
                     y <> NaN_key -> key_lt y NaN_key).
  { intros y Hy. apply (keys_below_NaN es).
    apply (Permutation_in _ (dayKeys_perm (groups es) isEnded)), Hy. }
  destruct isEnded.
  - apply (sorted_last (key_before true)); auto. apply key_before_asym.
  - apply (sorted_head (key_before false)); auto. apply key_before_asym.
Qed.

(** C6, as amended. The reconciliation throws no exception, whatever
    the timestamps; a moment whose timestamp does not parse is shown, in
    the section of the key [NaN-NaN-NaN]; so is a footprint whose
    timestamp does not parse, when the footprint ids are pairwise
    distinct; that key is above every other day key, and its section is
    the last one when the trip is ended and the first one when it is
    not. *)
Theorem malformed_timestamp_fallback moments footprints isEnded :
  exists tl,
  timeline moments footprints isEnded = Some tl /\
  (forall m, In m moments -> ms (m_created_at m) = NaN ->
     exists items,
       In (NaN_key, items) tl /\ In (kind_moment (m_created_at m) m) items) /\
  (NoDup (List.map f_id footprints) ->
   forall f, In f footprints -> ms (f_created_at f) = NaN ->
     exists items,
       In (NaN_key, items) tl /\ In (kind_footprint (f_created_at f) f) items) /\
  (forall key items, In (key, items) tl -> key <> NaN_key -> key_lt key NaN_key) /\
  (forall items, In (NaN_key, items) tl ->
     if isEnded then exists before, tl = (before ++ [(NaN_key, items)])%list
     else exists after, tl = (NaN_key, items) :: after).
Proof.
  exists (rendered moments footprints isEnded).
  split; [apply timeline_total|]. rewrite !rendered_eq.
  set (es := entries moments footprints isEnded).
  assert (Hes : forall it, In it (matched moments footprints) -> In it es)
    by (intros it; apply Array_sort_In).
  split; [|split; [|split]].
  - intros m Hm Hnan.
    destruct (in_sections_of_day es isEnded (kind_moment (m_created_at m) m))
      as (items & Hin & Hit).
    { apply Hes. now apply matched_moment_alone. }
    exists items. split; [|exact Hit].
    unfold day_of in Hin. simpl in Hin. now rewrite (dayKey_NaN _ Hnan) in Hin.
  - intros Hids f Hf Hnan.
    destruct (in_sections_of_day es isEnded (kind_footprint (f_created_at f) f))
      as (items & Hin & Hit).
    { apply Hes. now apply matched_footprint_alone. }
    exists items. split; [|exact Hit].
    unfold day_of in Hin. simpl in Hin. now rewrite (dayKey_NaN _ Hnan) in Hin.
  - intros key items Hin. apply in_sections in Hin. destruct Hin as [Hin _].
    apply (keys_below_NaN es).
    apply (Permutation_in _ (dayKeys_perm (groups es) isEnded)), Hin.
  - intros items Hin. apply in_sections in Hin. destruct Hin as [Hin ->].
    pose proof (NaN_key_place es isEnded Hin) as Hplace.
    rewrite sections_eq. destruct isEnded.
    + destruct Hplace as [before ->]. rewrite map_app. simpl. eauto.
    + destruct Hplace as [after ->]. simpl. eauto.
Qed.

(* =================================================================== *)
(** ** The calendar *)
(* =================================================================== *)

Lemma YearFromTime_spec t :
  DayFromYear (YearFromTime t) <= Day t < DayFromYear (YearFromTime t + 1).
Proof.
  clear Date_parse LocalTZA.
  unfold YearFromTime. set (d := Day t). clearbody d. cbv zeta.
  destruct (d <? DayFromYear (1970 + d * 400 / 146097)) eqn:E1.
  - apply Z.ltb_lt in E1. unfold DayFromYear in *.
    Z.to_euclidean_division_equations. lia.
  - apply Z.ltb_ge in E1.
    destruct (DayFromYear (1970 + d * 400 / 146097 + 1) <=? d) eqn:E2.
    + apply Z.leb_le in E2. unfold DayFromYear in *.
      Z.to_euclidean_division_equations. lia.
    + apply Z.leb_gt in E2. lia.
Qed.

Lemma DaysInYear_spec y : DayFromYear (y + 1) - DayFromYear y = DaysInYear y.
Proof.
  clear Date_parse LocalTZA.
  unfold DaysInYear, DayFromYear.
  destruct (y mod 4 =? 0) eqn:E4; destruct (y mod 100 =? 0) eqn:E100;
    destruct (y mod 400 =? 0) eqn:E400; simpl;
    rewrite ?Z.eqb_eq, ?Z.eqb_neq in *;
    Z.to_euclidean_division_equations; lia.
Qed.

Lemma DayWithinYear_bound t : 0 <= DayWithinYear t < 365 + InLeapYear t.
Proof.
  clear Date_parse LocalTZA.
  unfold DayWithinYear, InLeapYear.
  pose proof (YearFromTime_spec t) as H.
  pose proof (DaysInYear_spec (YearFromTime t)) as H'.
  assert (DaysInYear (YearFromTime t) = 365 \/ DaysInYear (YearFromTime t) = 366) as [E|E].
  { unfold DaysInYear. destruct (_ && _); auto. }
  - rewrite E in *. simpl. lia.
  - rewrite E in *. simpl. lia.
Qed.

Lemma MonthFromTime_bound t : 0 <= MonthFromTime t <= 11.
Proof.
  clear Date_parse LocalTZA.
  unfold MonthFromTime. cbv zeta.
  repeat (match goal with |- context [if ?c then _ else _] => destruct c end); lia.
Qed.

Lemma DateFromTime_bound t : 1 <= DateFromTime t <= 31.
Proof.
  clear Date_parse LocalTZA.
  pose proof (DayWithinYear_bound t) as H.
  assert (HL : InLeapYear t = 0 \/ InLeapYear t = 1).
  { unfold InLeapYear. destruct (_ =? _); auto. }
  unfold DateFromTime, MonthFromTime. cbv zeta.
  repeat (match goal with
          | |- context [if ?a <? ?b then _ else _] =>
              destruct (Z.ltb_spec a b)
          end); lia.
Qed.

(* =================================================================== *)
(** ** Day keys of four-digit years *)
(* =================================================================== *)

Lemma forall_range (P : Z -> bool) (lo n : Z) :
  forallb P (List.map (fun k => lo + Z.of_nat k) (seq 0 (Z.to_nat n))) = true ->
  forall z, lo <= z < lo + n -> P z = true.
Proof.
  clear Date_parse LocalTZA.
  intros H z Hz. rewrite forallb_forall in H. apply H.
  apply in_map_iff. exists (Z.to_nat (z - lo)). split; [lia|].
  apply in_seq. lia.
Qed.

Lemma pad_two_digits n :
  0 <= n <= 99 -> padStart 2 "0" (Number_toString (Num n)) = two_digits n.
Proof.
  clear Date_parse LocalTZA.
  intros H. apply String.eqb_eq.
  apply (forall_range
           (fun n => String.eqb (padStart 2 "0" (Number_toString (Num n))) (two_digits n))
           0 100); [vm_compute; reflexivity | lia].
Qed.

Lemma year_four_digits y :
  1000 <= y <= 9999 ->
  Number_toString (Num y) = String.append (two_digits (y / 100)) (two_digits (y mod 100)).
Proof.
  clear Date_parse LocalTZA.
  intros H. apply String.eqb_eq.
  apply (forall_range
           (fun y => String.eqb (Number_toString (Num y))
                       (String.append (two_digits (y / 100)) (two_digits (y mod 100))))
           1000 9000); [vm_compute; reflexivity | lia].
Qed.

Lemma digit_compare a b :
  0 <= a < 10 -> 0 <= b < 10 ->
  Ascii.compare (digit_char a) (digit_char b) = (a ?= b).
Proof.
  clear Date_parse LocalTZA.
  intros Ha Hb. unfold Ascii.compare, digit_char.
  rewrite !N_ascii_embedding by lia.
  rewrite <- N2Z.inj_compare, !N2Z.inj_add, !Z2N.id by lia.
  apply Z.add_compare_mono_l.
Qed.

Lemma two_digits_compare a b s t :
  0 <= a < 100 -> 0 <= b < 100 ->
  String.compare (String.append (two_digits a) s) (String.append (two_digits b) t) =
  match a ?= b with Eq => String.compare s t | r => r end.
Proof.
  clear Date_parse LocalTZA.
  intros Ha Hb. unfold two_digits. cbv [String.append]. cbn [String.compare].
  rewrite !digit_compare by (Z.to_euclidean_division_equations; lia).
  destruct (Z.compare_spec (a / 10) (b / 10)) as [E1|E1|E1];
    destruct (Z.compare_spec (a mod 10) (b mod 10)) as [E2|E2|E2];
    destruct (Z.compare_spec a b) as [E|E|E]; try reflexivity; exfalso;
    Z.to_euclidean_division_equations; lia.
Qed.

Lemma local_date_bounds iso y m d :
  local_date iso = Some (y, m, d) -> 1 <= m <= 12 /\ 1 <= d <= 31.
Proof.
  unfold local_date. destruct (new_Date iso) as [t| | |]; try discriminate.
  intros [= <- <- <-].
  pose proof (MonthFromTime_bound (LocalTime t)).
  pose proof (DateFromTime_bound (LocalTime t)). lia.
Qed.

Lemma dayKey_four_digits iso y m d :
  local_date iso = Some (y, m, d) -> 1000 <= y <= 9999 ->
  dayKey iso =
    String.append (two_digits (y / 100))
      (String.append (two_digits (y mod 100))
         (String "-" (String.append (two_digits m)
            (String "-" (String.append (two_digits d) EmptyString))))).
Proof.
  intros Hd Hy. destruct (local_date_bounds _ _ _ _ Hd) as [Hm Hday].
  unfold local_date in Hd. unfold dayKey.
  destruct (new_Date iso) as [t| | |]; try discriminate.
  injection Hd as <- <- <-. cbv zeta. unfold getFullYear, getMonth, getDate, num_add.
  rewrite year_four_digits by exact Hy.
  rewrite !pad_two_digits by lia.
  unfold two_digits. reflexivity.
Qed.

(** With four-digit years the keys compare as the dates do. *)
Lemma dayKey_compare iso1 iso2 date1 date2 :
  local_date iso1 = Some date1 -> 1000 <= fst (fst date1) <= 9999 ->
  local_date iso2 = Some date2 -> 1000 <= fst (fst date2) <= 9999 ->
  String.compare (dayKey iso1) (dayKey iso2) = date_compare date1 date2.
Proof.
  destruct date1 as [[y1 m1] d1], date2 as [[y2 m2] d2]. simpl.
  intros H1 Hy1 H2 Hy2.
  destruct (local_date_bounds _ _ _ _ H1) as [Hm1 Hd1].
  destruct (local_date_bounds _ _ _ _ H2) as [Hm2 Hd2].
  rewrite (dayKey_four_digits _ _ _ _ H1 Hy1), (dayKey_four_digits _ _ _ _ H2 Hy2).
  rewrite !two_digits_compare by (Z.to_euclidean_division_equations; lia).
  cbn [String.compare]. change (Ascii.compare "-" "-") with Eq. cbv iota.
  rewrite !two_digits_compare by lia.
  cbn [String.compare]. change (Ascii.compare "-" "-") with Eq. cbv iota.
  rewrite !two_digits_compare by lia.
  unfold date_compare. simpl.
  destruct (Z.compare_spec (y1 / 100) (y2 / 100)) as [E1|E1|E1];
    destruct (Z.compare_spec (y1 mod 100) (y2 mod 100)) as [E2|E2|E2];
    destruct (Z.compare_spec y1 y2) as [E|E|E];
    try (exfalso; Z.to_euclidean_division_equations; lia); try reflexivity.
  destruct (m1 ?= m2); [|reflexivity|reflexivity].
  now destruct (d1 ?= d2).
Qed.

Lemma StronglySorted_map_in {A B : Type} (R : A -> A -> Prop) (R' : B -> B -> Prop)
    (F : A -> B) (l : list A) :
  (forall a b, In a l -> In b l -> R a b -> R' (F a) (F b)) ->
  StronglySorted R l -> StronglySorted R' (List.map F l).
Proof.
  intros H Hs. induction Hs as [|a l Hs IH Ha]; simpl; [constructor|].
  constructor.
  - apply IH. intros x y Hx Hy. apply H; now right.
  - rewrite List.Forall_forall in *. intros y Hy. apply in_map_iff in Hy.
    destruct Hy as (b & <- & Hb). apply H; [now left | now right | now apply Ha].
Qed.

(** X10. What holds of the sort direction: when every timestamp parses and
    every local year has four digits, the sections follow the calendar
    in the direction of the flag, every entry of an earlier section
    being of an earlier day than every entry of a later one, and the
    entries of a section follow the clock in the same direction. *)
Lemma timeline_chronological moments footprints isEnded :
  (forall it, In it (matched moments footprints) -> four_digit_year (created_at it)) ->
  exists tl,
    timeline moments footprints isEnded = Some tl /\
    StronglySorted
      (fun s1 s2 => forall it1 it2,
           In it1 (snd s1) -> In it2 (snd s2) -> day_before isEnded it1 it2) tl /\
    (forall key items, In (key, items) tl ->
       StronglySorted (shown_before isEnded) items).
Proof.
  intros H4. exists (rendered moments footprints isEnded).
  split; [apply timeline_total|]. rewrite rendered_eq.
  set (es := entries moments footprints isEnded).
  assert (Hes : forall it, In it es -> four_digit_year (created_at it)).
  { intros it Hit. apply H4. now apply Array_sort_In in Hit. }
  split.
  - rewrite sections_eq.
    apply (StronglySorted_map_in (key_before isEnded));
      [|apply dayKeys_sorted, grouped_spec].
    intros k1 k2 _ _ Hk it1 it2 Hit1 Hit2. simpl in Hit1, Hit2.
    apply Array_sort_In, filter_In in Hit1, Hit2.
    destruct Hit1 as [Hit1 E1], Hit2 as [Hit2 E2].
    apply String.eqb_eq in E1, E2. subst k1 k2.
    destruct (Hes it1 Hit1) as (date1 & Hd1 & Hy1).
    destruct (Hes it2 Hit2) as (date2 & Hd2 & Hy2).
    unfold day_before, earlier_day, key_before, key_lt, day_of in *.
    destruct isEnded.
    + exists date1, date2. repeat split; auto.
      now rewrite <- (dayKey_compare _ _ _ _ Hd1 Hy1 Hd2 Hy2).
    + exists date2, date1. repeat split; auto.
      now rewrite <- (dayKey_compare _ _ _ _ Hd2 Hy2 Hd1 Hy1).
  - intros key items Hin. apply in_sections in Hin. destruct Hin as [_ ->].
    apply by_time_sorted. intros it Hit. apply filter_In in Hit.
    destruct Hit as [Hit _]. destruct (Hes it Hit) as (date & Hd & _).
    unfold local_date in Hd. unfold stamp, ms, getTime.
    destruct (new_Date (created_at it)) as [t| | |]; try discriminate. eauto.
Qed.




(* =================================================================== *)
(** ** The memo [entries] on the store *)
(* =================================================================== *)

Lemma entries_at_insert (h : gmap loc array) r l :
  entries_at (<[r := EntryArray l]> h) r = l.
Proof. unfold entries_at. now rewrite lookup_insert_eq. Qed.

Lemma footprints_at_insert (h : gmap loc array) r l :
  footprints_at (<[r := FootprintArray l]> h) r = l.
Proof. unfold footprints_at. now rewrite lookup_insert_eq. Qed.

Lemma footprints_at_insert_ne (h : gmap loc array) r r' a :
  r <> r' -> footprints_at (<[r := a]> h) r' = footprints_at h r'.
Proof. intros. unfold footprints_at. now rewrite lookup_insert_ne. Qed.

Lemma moments_at_insert_ne (h : gmap loc array) r r' a :
  r <> r' -> moments_at (<[r := a]> h) r' = moments_at h r'.
Proof. intros. unfold moments_at. now rewrite lookup_insert_ne. Qed.

Lemma push_entry_insert (h : gmap loc array) out l it :
  push_entry out it (<[out := EntryArray l]> h) =
  (tt, <[out := EntryArray (l ++ [it])%list]> h).
Proof. unfold push_entry. now rewrite lookup_insert_eq, insert_insert_eq. Qed.

(** The loop over [moments] on the store does what the loop on values
    does, and writes to [out] only. *)
Lemma for_of_match_body (h : gmap loc array) fps out moments used l :
  fps <> out ->
  for_of moments (match_body fps out) used (<[out := EntryArray l]> h) =
  (let st := fold_left (match_step (footprints_at h fps)) moments (used, l) in
   (fst st, <[out := EntryArray (snd st)]> h)).
Proof.
  intros Hne. revert used l. induction moments as [|m rest IH]; intros used l.
  - reflexivity.
  - cbn [for_of fold_left]. unfold bind at 1. unfold match_body at 1.
    unfold bind at 1. unfold read_footprints at 1.
    rewrite footprints_at_insert_ne by congruence.
    assert (Estep :
      match_step (footprints_at h fps) (used, l) m =
      match find_best used (ms (m_created_at m)) (footprints_at h fps) with
      | Some best =>
          (union (singleton (f_id best)) used,
           (l ++ [kind_combined (m_created_at m) m best])%list)
      | None => (used, (l ++ [kind_moment (m_created_at m) m])%list)
      end) by reflexivity.
    rewrite Estep.
    destruct (find_best used (ms (m_created_at m)) (footprints_at h fps)) as [best|].
    + unfold bind, ret. rewrite push_entry_insert. apply IH.
    + unfold bind, ret. rewrite push_entry_insert. apply IH.
Qed.

Lemma for_of_residual_body (h : gmap loc array) out scan used l :
  for_of scan (residual_body out used) tt (<[out := EntryArray l]> h) =
  (tt, <[out := EntryArray (fold_left (residual_step used) scan l)]> h).
Proof.
  revert l. induction scan as [|f rest IH]; intros l.
  - reflexivity.
  - cbn [for_of fold_left]. unfold bind at 1. unfold residual_body at 1.
    assert (Estep :
      residual_step used l f =
      if bool_decide (elem_of (f_id f) used) then l
      else (l ++ [kind_footprint (f_created_at f) f])%list) by reflexivity.
    rewrite Estep. case_bool_decide.
    + unfold ret. apply IH.
    + rewrite push_entry_insert. apply IH.
Qed.

Lemma copy_ref_fresh (h : gmap loc array) r : is_Some (h !! r) -> r <> copy_ref h.
Proof.
  intros Hr ->. apply elem_of_dom in Hr. exact (is_fresh (dom h) Hr).
Qed.

Lemma out_ref_fresh (h : gmap loc array) r : is_Some (h !! r) -> r <> out_ref h.
Proof.
  intros Hr E.
  apply (is_fresh (dom (<[copy_ref h := FootprintArray []]> h))).
  fold (out_ref h). rewrite <- E, dom_insert_L.
  apply elem_of_union. right. now apply elem_of_dom.
Qed.

Lemma out_ref_copy_ref (h : gmap loc array) : copy_ref h <> out_ref h.
Proof.
  intros E.
  apply (is_fresh (dom (<[copy_ref h := FootprintArray []]> h))).
  fold (out_ref h). rewrite <- E, dom_insert_L.
  apply elem_of_union. left. now apply elem_of_singleton.
Qed.

(** The memo on the store computes [entries] of the two arrays given;
    it writes to two new arrays, the sorted copy and [out], and to
    nothing else. *)
Lemma entries_memo_spec (h : gmap loc array) moments footprints isEnded :
  is_Some (h !! moments) -> is_Some (h !! footprints) ->
  entries_memo moments footprints isEnded h =
  (out_ref h,
   <[out_ref h :=
       EntryArray (entries (moments_at h moments) (footprints_at h footprints) isEnded)]>
     (<[copy_ref h :=
          FootprintArray (fpsForMatching (footprints_at h footprints))]> h)).
Proof.
  intros Hm Hf.
  pose proof (copy_ref_fresh h moments Hm) as Hmc.
  pose proof (out_ref_fresh h moments Hm) as Hmo.
  pose proof (out_ref_copy_ref h) as Hco.
  unfold entries_memo.
  unfold bind at 1. unfold spread_footprints, bind, read_footprints, new_array.
  fold (copy_ref h). unfold sort_footprints at 1.
  rewrite lookup_insert_eq, insert_insert_eq.
  set (scan := Array_sort newest_first (footprints_at h footprints)).
  set (h2 := <[copy_ref h := FootprintArray scan]> h).
  assert (Hout : fresh (dom h2) = out_ref h).
  { unfold out_ref, h2. now rewrite !dom_insert_L. }
  rewrite Hout. unfold read_moments.
  rewrite moments_at_insert_ne by congruence.
  unfold h2 at 1. rewrite moments_at_insert_ne by congruence.
  rewrite for_of_match_body by exact Hco.
  cbv zeta. unfold h2 at 1 2. rewrite footprints_at_insert.
  rewrite footprints_at_insert_ne by (apply not_eq_sym, Hco).
  unfold h2 at 1. rewrite footprints_at_insert.
  rewrite for_of_residual_body.
  unfold sort_entries. rewrite lookup_insert_eq, insert_insert_eq.
  reflexivity.
Qed.

(** One invocation renders the timeline of the two arrays given and
    leaves the store with two more arrays. *)
Lemma reconcile_spec (h : gmap loc array) moments footprints isEnded :
  is_Some (h !! moments) -> is_Some (h !! footprints) ->
  reconcile moments footprints isEnded h =
  (timeline (moments_at h moments) (footprints_at h footprints) isEnded,
   <[out_ref h :=
       EntryArray (entries (moments_at h moments) (footprints_at h footprints) isEnded)]>
     (<[copy_ref h :=
          FootprintArray (fpsForMatching (footprints_at h footprints))]> h)).
Proof.
  intros Hm Hf. unfold reconcile.
  rewrite (entries_memo_spec h moments footprints isEnded Hm Hf).
  now rewrite entries_at_insert.
Qed.

(** An invocation leaves every array of the store as it was. *)
Lemma reconcile_frame (h : gmap loc array) moments footprints isEnded r :
  is_Some (h !! moments) -> is_Some (h !! footprints) -> is_Some (h !! r) ->
  snd (reconcile moments footprints isEnded h) !! r = h !! r.
Proof.
  intros Hm Hf Hr. rewrite (reconcile_spec h moments footprints isEnded Hm Hf).
  cbn [snd].
  rewrite lookup_insert_ne by (apply not_eq_sym, out_ref_fresh, Hr).
  now rewrite lookup_insert_ne by (apply not_eq_sym, copy_ref_fresh, Hr).
Qed.

(** C9. No side effects on inputs: after an invocation on two arrays of
    the store, both arrays, and every other array the store held, are
    as they were before; the array that was sorted newest first is a
    copy, an array the store did not hold before; and the sections
    rendered are the timeline of the contents of the two arrays. *)
Theorem inputs_unchanged (h : gmap loc array) moments footprints isEnded :
  is_Some (h !! moments) -> is_Some (h !! footprints) ->
  let h' := snd (reconcile moments footprints isEnded h) in
  h' !! moments = h !! moments /\
  h' !! footprints = h !! footprints /\
  (forall r, is_Some (h !! r) -> h' !! r = h !! r) /\
  (h !! copy_ref h = None /\
   h' !! copy_ref h =
     Some (FootprintArray (fpsForMatching (footprints_at h footprints)))) /\
  fst (reconcile moments footprints isEnded h) =
    timeline (moments_at h moments) (footprints_at h footprints) isEnded.
Proof.
  intros Hm Hf. cbv zeta.
  split; [now apply reconcile_frame|].
  split; [now apply reconcile_frame|].
  split; [intros r Hr; now apply reconcile_frame|].
  rewrite (reconcile_spec h moments footprints isEnded Hm Hf). cbn [fst snd].
  split; [|reflexivity]. split.
  - apply (not_elem_of_dom (D := gset loc)). unfold copy_ref. apply is_fresh.
  - rewrite lookup_insert_ne by (apply not_eq_sym, out_ref_copy_ref).
    apply lookup_insert_eq.
Qed.

(** C8. Determinism: two invocations on arrays with the same contents
    and with the same flag render the same sections, whatever else the
    two stores hold and wherever the arrays lie; in particular a second
    invocation in the store the first one left renders what the first
    one rendered. *)
Theorem reconcile_deterministic isEnded :
  (forall (h1 h2 : gmap loc array) m1 f1 m2 f2,
     is_Some (h1 !! m1) -> is_Some (h1 !! f1) ->
     is_Some (h2 !! m2) -> is_Some (h2 !! f2) ->
     moments_at h1 m1 = moments_at h2 m2 ->
     footprints_at h1 f1 = footprints_at h2 f2 ->
     fst (reconcile m1 f1 isEnded h1) = fst (reconcile m2 f2 isEnded h2)) /\
  (forall (h : gmap loc array) moments footprints,
     is_Some (h !! moments) -> is_Some (h !! footprints) ->
     fst (reconcile moments footprints isEnded
            (snd (reconcile moments footprints isEnded h))) =
     fst (reconcile moments footprints isEnded h)).
Proof.
  assert (Hsame : forall (h1 h2 : gmap loc array) m1 f1 m2 f2,
             is_Some (h1 !! m1) -> is_Some (h1 !! f1) ->
             is_Some (h2 !! m2) -> is_Some (h2 !! f2) ->
             moments_at h1 m1 = moments_at h2 m2 ->
             footprints_at h1 f1 = footprints_at h2 f2 ->
             fst (reconcile m1 f1 isEnded h1) = fst (reconcile m2 f2 isEnded h2)).
  { intros h1 h2 m1 f1 m2 f2 Hm1 Hf1 Hm2 Hf2 Em Ef.
    rewrite (reconcile_spec h1 m1 f1 isEnded Hm1 Hf1).
    rewrite (reconcile_spec h2 m2 f2 isEnded Hm2 Hf2).
    cbn [fst]. now rewrite Em, Ef. }
  split; [exact Hsame|].
  intros h moments footprints Hm Hf.
  pose proof (reconcile_frame h moments footprints isEnded moments Hm Hf Hm) as Em.
  pose proof (reconcile_frame h moments footprints isEnded footprints Hm Hf Hf) as Ef.
  apply Hsame; try assumption.
  - rewrite Em. exact Hm.
  - rewrite Ef. exact Hf.
  - unfold moments_at. now rewrite Em.
  - unfold footprints_at. now rewrite Ef.
Qed.
(* =================================================================== *)
(** ** The size of the timeline *)
(* =================================================================== *)

Lemma greedy_length scan used moments es used' :
  greedy scan used moments es used' -> length es = length moments.
Proof. induction 1; simpl; congruence. Qed.

Lemma residual_length used scan : (length (residual used scan) <= length scan)%nat.
Proof. unfold residual. rewrite length_map. apply List.filter_length_le. Qed.

Lemma residual_empty scan :
  residual empty scan = List.map (fun f => kind_footprint (f_created_at f) f) scan.
Proof.
  unfold residual. f_equal. induction scan as [|f scan IH]; simpl; [reflexivity|].
  rewrite bool_decide_eq_false_2 by apply not_elem_of_empty. simpl. now f_equal.
Qed.

(** Every entry shows a moment, a footprint, or both. *)
Lemma count_kinds (l : list TimelineEntry) :
  (length l + length (List.filter is_combined l) =
   length (shown_moments l) + length (shown_footprints l))%nat.
Proof.
  clear Date_parse LocalTZA.
  induction l as [|[c m f|c m|c f] l IH]; simpl in *; lia.
Qed.

Lemma matched_length moments footprints :
  (length moments <= length (matched moments footprints) <=
   length moments + length footprints)%nat.
Proof.
  destruct (matched_greedy moments footprints) as (es & used & Hg & ->).
  rewrite length_app, (greedy_length _ _ _ _ _ Hg).
  pose proof (residual_length used (fpsForMatching footprints)) as Hr.
  pose proof (Permutation_length (Array_sort_perm newest_first footprints)) as Hp.
  unfold fpsForMatching in Hr. rewrite Hp in Hr.
  split; [apply Nat.le_add_r | now apply Nat.add_le_mono_l].
Qed.

(** No entry means no input. *)
Lemma entries_nil_inv moments footprints isEnded :
  entries moments footprints isEnded = [] -> moments = [] /\ footprints = [].
Proof.
  intros E. unfold entries in E.
  pose proof (Array_sort_perm (by_time isEnded) (matched moments footprints)) as P.
  rewrite E in P. apply Permutation_nil in P.
  pose proof (matched_moments moments footprints) as Hm.
  rewrite P in Hm. simpl in Hm. subst moments. split; [reflexivity|].
  destruct (matched_greedy [] footprints) as (es & used & Hg & Em).
  inversion Hg; subst. rewrite P, residual_empty in Em. simpl in Em.
  symmetry in Em. apply map_eq_nil in Em.
  pose proof (Array_sort_perm newest_first footprints) as Pf.
  unfold fpsForMatching in Em. rewrite Em in Pf. now apply Permutation_nil in Pf.
Qed.


(** X2. The timeline has an entry for every moment and none beyond the
    moments and the footprints; when the footprints have distinct ids,
    each pair shown as one [combined] entry saves exactly one entry. *)
Theorem entries_count moments footprints isEnded :
  (length moments <= length (entries moments footprints isEnded) <=
   length moments + length footprints)%nat /\
  (NoDup (List.map f_id footprints) ->
   (length (entries moments footprints isEnded) +
    length (List.filter is_combined (entries moments footprints isEnded)) =
    length moments + length footprints)%nat).
Proof.
  pose proof (Array_sort_perm (by_time isEnded) (matched moments footprints)) as P.
  fold (entries moments footprints isEnded) in P.
  split.
  - rewrite (Permutation_length P). apply matched_length.
  - intros Hnd. rewrite count_kinds.
    rewrite (Permutation_length (shown_moments_perm _ _ P)), matched_moments.
    rewrite (Permutation_length (shown_footprints_perm _ _ P)).
    now rewrite (Permutation_length (matched_footprints moments footprints Hnd)).
Qed.

(* =================================================================== *)
(** ** The sections and their headings *)
(* =================================================================== *)

Lemma of_day_day key l it : In it (of_day key l) -> day_of it = key.
Proof. intros H. apply filter_In in H. now apply String.eqb_eq. Qed.

Lemma of_day_head key l :
  In key (List.map day_of l) -> exists it rest, of_day key l = it :: rest.
Proof.
  intros H. apply in_map_iff in H. destruct H as (it & E & Hit).
  assert (Hin : In it (of_day key l)).
  { apply filter_In. split; [exact Hit | now apply String.eqb_eq]. }
  destruct (of_day key l) as [|x rest]; [contradiction | eauto].
Qed.

(** X3. Every entry is shown in the section of its own day, no section is
    empty, every entry of a section is of the day of the section, and
    no two sections have the same key. *)
Theorem sections_by_day moments footprints isEnded :
  exists tl,
    timeline moments footprints isEnded = Some tl /\
    NoDup (List.map fst tl) /\
    (forall key items, In (key, items) tl ->
       items <> [] /\ forall it, In it items -> dayKey (created_at it) = key) /\
    (forall it, In it (entries moments footprints isEnded) ->
       exists items, In (dayKey (created_at it), items) tl /\ In it items).
Proof.
  exists (rendered moments footprints isEnded).
  split; [apply timeline_total|]. rewrite rendered_eq.
  set (es := entries moments footprints isEnded).
  destruct (grouped_spec es) as (Hnd & Hk & _).
  split; [|split].
  - rewrite sections_keys.
    apply (Permutation.Permutation_NoDup (l := Map_keys (groups es)));
      [symmetry; apply dayKeys_perm | exact Hnd].
  - intros key items Hin. apply in_sections in Hin. destruct Hin as [Hkey ->].
    split.
    + apply (Permutation_in _ (dayKeys_perm _ _)), Hk, of_day_head in Hkey.
      destruct Hkey as (it & rest & E). intros E'.
      pose proof (Array_sort_perm (by_time isEnded) (of_day key es)) as P.
      rewrite E', E in P. now apply Permutation_nil in P.
    + intros it Hit. apply Array_sort_In in Hit. now apply of_day_day in Hit.
  - intros it Hit. now apply in_sections_of_day.
Qed.

(** X4. The heading of a section is the day label of a timestamp of that
    day: the array under a key of [dayKeys] is never empty, so the key
    itself is never handed to [dayLabel]. *)
Theorem heading_of_day moments footprints isEnded :
  exists g,
    grouped (entries moments footprints isEnded) = Some g /\
    forall dk, In dk (dayKeys g isEnded) ->
      exists it rest,
        Map_get dk g = Some (it :: rest) /\
        firstIso dk (default [] (Map_get dk g)) = created_at it /\
        dayKey (created_at it) = dk.
Proof.
  set (es := entries moments footprints isEnded).
  exists (groups es). split; [apply grouped_total|].
  destruct (grouped_spec es) as (_ & Hk & Hget).
  intros dk Hdk. apply (Permutation_in _ (dayKeys_perm _ _)) in Hdk.
  rewrite (Hget dk Hdk). apply Hk in Hdk.
  destruct (of_day_head _ _ Hdk) as (it & rest & E).
  exists it, rest. rewrite E. repeat split.
  apply (of_day_day dk es). rewrite E. now left.
Qed.

(** X5. The keys of the sections are in strict string order, ascending for
    an ended trip and descending for an active one, whatever the
    timestamps are. *)
Theorem section_keys_ordered moments footprints isEnded :
  exists tl,
    timeline moments footprints isEnded = Some tl /\
    StronglySorted (key_before isEnded) (List.map fst tl).
Proof.
  exists (rendered moments footprints isEnded).
  split; [apply timeline_total|]. rewrite rendered_eq, sections_keys.
  apply dayKeys_sorted, grouped_spec.
Qed.

Lemma of_day_parses key l it :
  key <> NaN_key -> In it (of_day key l) -> exists t, stamp it = Num t.
Proof.
  intros Hk Hit. apply of_day_day in Hit. unfold day_of in Hit. unfold stamp.
  destruct (ms_cases (created_at it)) as [E|E]; [|exact E].
  apply dayKey_NaN in E. congruence.
Qed.

(** X6. Inside every section of a day the entries follow the clock in the
    direction of the flag, oldest first for an ended trip and newest
    first for an active one; no assumption on the input is needed. *)
Theorem section_in_time_order moments footprints isEnded :
  exists tl,
    timeline moments footprints isEnded = Some tl /\
    forall key items, In (key, items) tl -> key <> NaN_key ->
      StronglySorted (shown_before isEnded) items.
Proof.
  exists (rendered moments footprints isEnded).
  split; [apply timeline_total|]. rewrite rendered_eq.
  intros key items Hin Hkey. apply in_sections in Hin. destruct Hin as [_ ->].
  apply by_time_sorted. intros it. now apply of_day_parses.
Qed.

(* =================================================================== *)
(** ** The time an entry is sorted by and the time it is printed with *)
(* =================================================================== *)

Lemma greedy_labelled scan used moments es used' :
  greedy scan used moments es used' ->
  forall it, In it es -> created_at it = labelled_time it.
Proof.
  induction 1; simpl; intros it Hit; [contradiction| |];
    (destruct Hit as [<-|Hit]; [reflexivity | now apply IHgreedy]).
Qed.

(** X7. The timestamp an entry is sorted and filed by is the one printed
    with it: the moment's for an entry with a moment, the footprint's
    for a footprint alone. *)
Theorem sorted_by_labelled_time moments footprints isEnded :
  exists tl,
    timeline moments footprints isEnded = Some tl /\
    forall it, In it (shown tl) -> created_at it = labelled_time it.
Proof.
  exists (rendered moments footprints isEnded).
  split; [apply timeline_total|].
  intros it Hit. apply (Permutation_in _ (shown_timeline_perm _ _ _)) in Hit.
  destruct (matched_greedy moments footprints) as (es & used & Hg & E).
  rewrite E in Hit. apply in_app_or in Hit. destruct Hit as [Hit|Hit].
  - now apply (greedy_labelled _ _ _ _ _ Hg).
  - unfold residual in Hit. apply in_map_iff in Hit.
    destruct Hit as (f & <- & _). reflexivity.
Qed.

Lemma dayKeys_sorted_NoDup (es : list TimelineEntry) isEnded :
  NoDup (dayKeys (groups es) isEnded).
Proof.
  apply (Permutation.Permutation_NoDup (l := Map_keys (groups es)));
    [symmetry; apply dayKeys_perm | apply grouped_spec].
Qed.

(* =================================================================== *)
(** ** Entries at the same instant *)
(* =================================================================== *)

Lemma at_time_stamp t it : at_time t it = true <-> stamp it = Num t.
Proof.
  unfold at_time. destruct (stamp it) as [z| | |]; try (split; discriminate).
  rewrite Z.eqb_eq. split; congruence.
Qed.

(** The sort by time keeps the entries of one instant in their order. *)
Lemma by_time_stable isEnded (l : list TimelineEntry) t :
  (forall it, In it l -> exists z, stamp it = Num z) ->
  List.filter (at_time t) (Array_sort (by_time isEnded) l) = List.filter (at_time t) l.
Proof.
  intros Hp.
  set (key := fun it => match stamp it with
                        | Num z => if isEnded then z else - z
                        | _ => 0
                        end).
  assert (Hkey : forall it, In it l ->
            at_time t it = (key it =? (if isEnded then t else - t))).
  { intros it Hit. destruct (Hp it Hit) as (z & E). unfold at_time, key. cbv beta. rewrite E.
    clear Date_parse LocalTZA E Hp Hit key.
    destruct isEnded; [reflexivity|].
    destruct (Z.eqb_spec z t), (Z.eqb_spec (- z) (- t)); try reflexivity; lia. }
  rewrite (List.filter_ext_in _ (fun it => key it =? (if isEnded then t else - t)) _ Hkey).
  rewrite (List.filter_ext_in (at_time t)
             (fun it => key it =? (if isEnded then t else - t))).
  - apply Array_sort_stable. intros a b Ha Hb.
    destruct (Hp a Ha) as (za & Ea), (Hp b Hb) as (zb & Eb).
    unfold SortCompare, by_time, key. cbv beta. unfold stamp in *. rewrite Ea, Eb.
    clear Date_parse LocalTZA Ea Eb Hp Ha Hb key Hkey.
    destruct isEnded; simpl.
    + destruct (Z.ltb_spec 0 (za - zb)), (Z.ltb_spec zb za); try reflexivity; lia.
    + destruct (Z.ltb_spec 0 (zb - za)), (Z.ltb_spec (- zb) (- za)); try reflexivity; lia.
  - intros it Hit. apply Hkey. now apply Array_sort_In in Hit.
Qed.

Lemma filter_concat {A : Type} (p : A -> bool) (ls : list (list A)) :
  List.filter p (concat ls) = concat (List.map (List.filter p) ls).
Proof.
  induction ls as [|l ls IH]; simpl; [reflexivity|].
  now rewrite List.filter_app, IH.
Qed.

Lemma filter_of_day key (p : TimelineEntry -> bool) l :
  List.filter p (of_day key l) = of_day key (List.filter p l).
Proof.
  unfold of_day. induction l as [|x l IH]; simpl; [reflexivity|].
  destruct (String.eqb (day_of x) key) eqn:E1, (p x) eqn:E2; simpl;
    rewrite ?E1, ?E2, IH; reflexivity.
Qed.

(** The key of the day is a function of the time value. *)
Lemma dayKey_ms iso1 iso2 : ms iso1 = ms iso2 -> dayKey iso1 = dayKey iso2.
Proof. unfold ms, getTime, dayKey. now intros ->. Qed.

Lemma of_day_all key (l : list TimelineEntry) :
  (forall it, In it l -> day_of it = key) -> of_day key l = l.
Proof.
  intros H. unfold of_day. induction l as [|x l IH]; simpl; [reflexivity|].
  rewrite (proj2 (String.eqb_eq _ _) (H x (or_introl eq_refl))).
  f_equal. apply IH. intros it Hit. apply H. now right.
Qed.

Lemma of_day_none key k (l : list TimelineEntry) :
  (forall it, In it l -> day_of it = key) -> k <> key -> of_day k l = [].
Proof.
  intros H Hk. unfold of_day. induction l as [|x l IH]; simpl; [reflexivity|].
  rewrite (proj2 (String.eqb_neq _ _)).
  - apply IH. intros it Hit. apply H. now right.
  - rewrite (H x (or_introl eq_refl)). congruence.
Qed.

(** Entries of one day are found whole in the section of that day. *)
Lemma concat_of_day_same (ks : list string) (l : list TimelineEntry) key :
  NoDup ks -> (forall it, In it l -> day_of it = key) -> (l <> [] -> In key ks) ->
  concat (List.map (fun k => of_day k l) ks) = l.
Proof.
  intros Hnd Hl Hin. destruct l as [|x l]; [clear; induction ks; simpl; auto|].
  specialize (Hin ltac:(discriminate)).
  induction Hnd as [|k ks Hk Hnd IH]; [contradiction|]. cbn [concat List.map].
  destruct (String.eqb_spec k key) as [E|Hne]; [subst k|].
  - rewrite (of_day_all key _ Hl).
    assert (E : concat (List.map (fun k => of_day k (x :: l)) ks) = []).
    { clear IH Hin Hnd. induction ks as [|a ks IH]; [reflexivity|].
      cbn [concat List.map].
      rewrite (of_day_none key a _ Hl).
      - apply IH. intros H. apply Hk. now right.
      - intros ->. apply Hk. now left. }
    rewrite E. apply app_nil_r.
  - rewrite (of_day_none key k _ Hl Hne). simpl. apply IH.
    destruct Hin as [E|Hin]; [contradiction | exact Hin].
Qed.

(** X8. When every timestamp parses, the entries of one instant are shown
    in the order in which the matching produced them, whatever the
    flag: the moments in the order of the input, then the footprints
    left over. *)
Theorem same_instant_order moments footprints isEnded :
  (forall it, In it (matched moments footprints) -> exists z, stamp it = Num z) ->
  exists tl,
    timeline moments footprints isEnded = Some tl /\
    forall t, List.filter (at_time t) (shown tl) =
              List.filter (at_time t) (matched moments footprints).
Proof.
  intros Hp. exists (rendered moments footprints isEnded).
  split; [apply timeline_total|]. intros t. rewrite rendered_eq, sections_eq.
  set (es := entries moments footprints isEnded).
  assert (Hes : forall it, In it es -> exists z, stamp it = Num z).
  { intros it Hit. apply Hp. now apply Array_sort_In in Hit. }
  unfold shown. rewrite List.map_map. simpl. rewrite filter_concat, List.map_map.
  rewrite (List.map_ext_in _ (fun dk => of_day dk (List.filter (at_time t) es))).
  - assert (El : List.filter (at_time t) es =
                 List.filter (at_time t) (matched moments footprints))
      by now apply by_time_stable.
    rewrite <- El.
    destruct (List.filter (at_time t) es) as [|x l] eqn:Ef;
      [apply (concat_of_day_same _ [] ""); [|intros ? []|congruence];
       apply dayKeys_sorted_NoDup|].
    apply (concat_of_day_same _ _ (day_of x)).
    + apply dayKeys_sorted_NoDup.
    + intros it Hit. rewrite <- Ef in Hit.
      assert (Hx : In x (List.filter (at_time t) es)) by (rewrite Ef; now left).
      apply filter_In in Hit, Hx. destruct Hit as [_ Hit], Hx as [_ Hx].
      apply at_time_stamp in Hit, Hx. apply dayKey_ms. unfold stamp in *. congruence.
    + intros _. apply (Permutation_in _ (Permutation_sym (dayKeys_perm _ _))).
      apply grouped_spec. apply in_map.
      assert (Hx : In x (List.filter (at_time t) es)) by (rewrite Ef; now left).
      now apply filter_In in Hx.
  - intros dk _. rewrite by_time_stable, filter_of_day; [reflexivity|].
    intros it Hit. apply filter_In in Hit. now apply Hes.
Qed.

(* =================================================================== *)
(** ** Day keys and calendar days *)
(* =================================================================== *)

Lemma digit_char_value d : 0 <= d < 10 -> Z.of_N (N_of_ascii (digit_char d)) - 48 = d.
Proof.
  clear Date_parse LocalTZA.
  intros H. unfold digit_char. rewrite N_ascii_embedding by lia. lia.
Qed.

Lemma digit_char_inj a b : 0 <= a < 10 -> 0 <= b < 10 -> digit_char a = digit_char b -> a = b.
Proof.
  intros Ha Hb E. rewrite <- (digit_char_value a Ha), <- (digit_char_value b Hb).
  now rewrite E.
Qed.

(** Reading the digits of [n] gives [n] back. *)
Lemma digits_aux_value fuel n acc :
  0 <= n < 10 ^ Z.of_nat fuel ->
  decimal_value (digits_aux fuel n acc) 0 = decimal_value acc n.
Proof.
  clear Date_parse LocalTZA.
  revert n acc. induction fuel as [|k IH]; intros n acc Hn.
  - simpl in *. now replace n with 0 by lia.
  - cbn [digits_aux]. cbv zeta.
    assert (Hd : 0 <= n mod 10 < 10) by (apply Z.mod_pos_bound; lia).
    destruct (Z.eqb_spec (n / 10) 0) as [E|E].
    + cbn [decimal_value]. rewrite (digit_char_value _ Hd). f_equal.
      Z.to_euclidean_division_equations. lia.
    + rewrite IH.
      * cbn [decimal_value]. rewrite (digit_char_value _ Hd). f_equal.
        Z.to_euclidean_division_equations. lia.
      * rewrite Nat2Z.inj_succ, Z.pow_succ_r in Hn by lia.
        Z.to_euclidean_division_equations. nia.
Qed.

Lemma digits_value n : 0 <= n -> decimal_value (digits n) 0 = n.
Proof.
  clear Date_parse LocalTZA.
  intros Hn. unfold digits. rewrite digits_aux_value; [reflexivity|].
  split; [exact Hn|].
  rewrite Nat2Z.inj_succ, Z2Nat.id by apply Z.log2_nonneg.
  destruct (Z.eq_dec n 0) as [->|Hz]; [reflexivity|].
  apply Z.lt_le_trans with (2 ^ Z.succ (Z.log2 n)).
  - apply Z.log2_spec. lia.
  - apply Z.pow_le_mono_l. pose proof (Z.log2_nonneg n). lia.
Qed.

(** The string of an integer tells the integer. *)
Lemma Number_toString_inj a b :
  Number_toString (Num a) = Number_toString (Num b) -> a = b.
Proof.
  clear Date_parse LocalTZA.
  assert (Hmix : forall x y, 0 <= y -> String.append "-" (digits x) <> digits y).
  { intros x y Hy E. unfold digits in E.
    destruct (digits_aux_head (S (Z.to_nat (Z.log2 y))) y EmptyString)
      as (d & s & Hd & E'); [discriminate|].
    rewrite E' in E. injection E as E _.
    assert (Hc : Z.of_N (N_of_ascii "-") - 48 = d)
      by (rewrite E; now apply digit_char_value).
    simpl in Hc. lia. }
  simpl. destruct (Z.ltb_spec a 0) as [Ha|Ha], (Z.ltb_spec b 0) as [Hb|Hb]; intros E.
  - injection E as E. cbv [String.append] in E.
    apply (f_equal (fun s => decimal_value s 0)) in E. cbv beta in E.
    rewrite !digits_value in E by lia. lia.
  - now apply Hmix in E.
  - symmetry in E. now apply Hmix in E.
  - apply (f_equal (fun s => decimal_value s 0)) in E. cbv beta in E.
    now rewrite !digits_value in E by lia.
Qed.

Lemma length_append (s t : string) :
  String.length (String.append s t) = (String.length s + String.length t)%nat.
Proof.
  induction s as [|c s IH]; [reflexivity|].
  change (S (String.length (String.append s t)) =
          S (String.length s + String.length t)).
  now rewrite IH.
Qed.

Lemma append_inj_suffix (s1 s2 t1 t2 : string) :
  String.length t1 = String.length t2 ->
  String.append s1 t1 = String.append s2 t2 -> s1 = s2 /\ t1 = t2.
Proof.
  clear Date_parse LocalTZA.
  revert s2. induction s1 as [|c s1 IH]; intros [|c' s2] Hl E.
  - now split.
  - exfalso. apply (f_equal String.length) in E.
    rewrite !length_append in E. cbn [String.length] in E. lia.
  - exfalso. apply (f_equal String.length) in E.
    rewrite !length_append in E. cbn [String.length] in E. lia.
  - change (String c (String.append s1 t1) = String c' (String.append s2 t2)) in E.
    injection E as -> E. destruct (IH s2 Hl E) as [-> ->]. now split.
Qed.

(** The key of a timestamp that parses, from its local calendar date. *)
Lemma dayKey_date iso y m d :
  local_date iso = Some (y, m, d) ->
  dayKey iso =
    String.append (Number_toString (Num y))
      (String "-" (String.append (two_digits m)
         (String "-" (String.append (two_digits d) EmptyString)))).
Proof.
  intros Hd. destruct (local_date_bounds _ _ _ _ Hd) as [Hm Hday].
  unfold local_date in Hd. unfold dayKey.
  destruct (new_Date iso) as [t| | |]; try discriminate.
  injection Hd as <- <- <-. cbv zeta. unfold getFullYear, getMonth, getDate, num_add.
  rewrite !pad_two_digits by lia.
  unfold two_digits. reflexivity.
Qed.

Lemma two_digits_inj a b : 0 <= a < 100 -> 0 <= b < 100 -> two_digits a = two_digits b -> a = b.
Proof.
  intros Ha Hb E. unfold two_digits in E. injection E as E1 E2.
  apply digit_char_inj in E1, E2.
  all: clear Date_parse LocalTZA; Z.to_euclidean_division_equations; lia.
Qed.

(** X9. Two timestamps that parse are filed under the same key exactly when
    they fall on the same local calendar day, whatever the year. *)
Theorem same_key_same_day iso1 iso2 date1 date2 :
  local_date iso1 = Some date1 -> local_date iso2 = Some date2 ->
  (dayKey iso1 = dayKey iso2 <-> date1 = date2).
Proof.
  destruct date1 as [[y1 m1] d1], date2 as [[y2 m2] d2]. intros H1 H2.
  destruct (local_date_bounds _ _ _ _ H1) as [Hm1 Hd1].
  destruct (local_date_bounds _ _ _ _ H2) as [Hm2 Hd2].
  rewrite (dayKey_date _ _ _ _ H1), (dayKey_date _ _ _ _ H2).
  split; [|now intros [= -> -> ->]].
  intros E. apply append_inj_suffix in E; [|reflexivity].
  destruct E as [Ey E]. apply Number_toString_inj in Ey.
  unfold two_digits in E. cbn [String.append] in E.
  injection E as Ea Eb Ec Ed.
  assert (Em : two_digits m1 = two_digits m2) by (unfold two_digits; congruence).
  assert (Ed' : two_digits d1 = two_digits d2) by (unfold two_digits; congruence).
  apply two_digits_inj in Em, Ed'; try lia. congruence.
Qed.

(* =================================================================== *)
(** ** A load and the render that follows *)
(* =================================================================== *)

Lemma render_total st isEnded :
  render st isEnded =
  let es := entries (st_moments st) (st_footprints st) isEnded in
  let quiet := negb (st_loading st) && String.eqb (st_error st) "" in
  Some ((if st_loading st then [part_loading] else []) ++
        (if String.eqb (st_error st) "" then [] else [part_error (st_error st)]) ++
        (if quiet && (length es =? 0)%nat then [part_nothing_yet] else []) ++
        (if quiet && (0 <? length es)%nat
         then [part_sections (rendered (st_moments st) (st_footprints st) isEnded)]
         else []))%list.
Proof.
  unfold render. cbv zeta. rewrite sections_total, rendered_eq. reflexivity.
Qed.

(** X11. After a load that fails with a message, the two lists are as they
    were and the error line is all that is rendered; after a load that
    succeeds, [Nothing yet.] is rendered when both answers are empty and
    the sections of the two answers otherwise.  The lists are replaced
    together or not at all. *)
Theorem render_after_load momentsRes footprintsRes st isEnded :
  (forall message,
     res_error momentsRes = Some message \/
     (res_error momentsRes = None /\ res_error footprintsRes = Some message) ->
     st_moments (loadTimeline momentsRes footprintsRes st) = st_moments st /\
     st_footprints (loadTimeline momentsRes footprintsRes st) = st_footprints st /\
     (message <> "" ->
      render (loadTimeline momentsRes footprintsRes st) isEnded =
        Some [part_error message])) /\
  (res_error momentsRes = None -> res_error footprintsRes = None ->
   exists tl,
     timeline (default [] (res_data momentsRes)) (default [] (res_data footprintsRes))
       isEnded = Some tl /\
     render (loadTimeline momentsRes footprintsRes st) isEnded =
       Some (match default [] (res_data momentsRes),
                   default [] (res_data footprintsRes) with
             | [], [] => [part_nothing_yet]
             | _, _ => [part_sections tl]
             end)).
Proof.
  split.
  - assert (Hfail : forall message,
              st_loading (setLoading false (setError message
                 (setError "" (setLoading true st)))) = false) by reflexivity.
    intros message H.
    assert (E : loadTimeline momentsRes footprintsRes st =
                setLoading false (setError message (setError "" (setLoading true st)))).
    { unfold loadTimeline. destruct H as [->|[-> ->]]; reflexivity. }
    rewrite E. split; [reflexivity|]. split; [reflexivity|].
    intros Hm. rewrite render_total. cbn [st_loading st_error setLoading setError].
    apply String.eqb_neq in Hm. rewrite Hm. reflexivity.
  - intros Em Ef. exists (rendered (default [] (res_data momentsRes))
                             (default [] (res_data footprintsRes)) isEnded).
    split; [apply timeline_total|].
    unfold loadTimeline. rewrite Em, Ef. rewrite render_total.
    cbn [st_loading st_error st_moments st_footprints
         setLoading setError setMoments setFootprints].
    set (moments := default [] (res_data momentsRes)).
    set (footprints := default [] (res_data footprintsRes)).
    cbn [negb andb String.eqb].
    destruct (entries moments footprints isEnded) as [|it es] eqn:E.
    + apply entries_nil_inv in E. destruct E as [-> ->]. reflexivity.
    + cbn [length Nat.eqb Nat.ltb Nat.leb app].
      destruct moments as [|m ms']; [|reflexivity].
      destruct footprints as [|f fs]; [|reflexivity].
      discriminate E.
Qed.

(* =================================================================== *)
(** ** What the matching leaves apart *)
(* =================================================================== *)

Lemma greedy_grows scan used moments es used' :
  greedy scan used moments es used' -> forall id, elem_of id used -> elem_of id used'.
Proof.
  intros Hg id Hid. apply (greedy_used _ _ _ _ _ Hg). now left.
Qed.

(** A moment left alone had no open footprint in its window, and none
    of the footprints left at the end was in it. *)
Lemma greedy_alone_far scan used moments es used' :
  greedy scan used moments es used' ->
  forall c m, In (kind_moment c m) es ->
  forall f d, In f scan -> ~ elem_of (f_id f) used' ->
    ~ (delta (ms (m_created_at m)) f = Num d /\ d <= 120000).
Proof.
  induction 1 as [used|used m0 f0 rest out used' Hn Hg IH|used m0 rest out used' Hn Hg IH];
    intros c m Hin f d Hf Hused.
  - contradiction.
  - destruct Hin as [Hin|Hin]; [discriminate | now apply (IH c m Hin)].
  - destruct Hin as [Hin|Hin]; [|now apply (IH c m Hin)].
    injection Hin as _ <-. intros [Hd Hle].
    apply (Hn f d Hf). split; [|split; assumption].
    intros Hu. apply Hused. now apply (greedy_grows _ _ _ _ _ Hg).
Qed.

(** X26. No match is missed: a moment shown alone and a footprint shown
    alone are never within the window of each other, so no pair that
    could still be combined is left apart. *)
Theorem no_missed_match moments footprints isEnded :
  exists tl,
    timeline moments footprints isEnded = Some tl /\
    forall c m c' f tm tf,
      In (kind_moment c m) (shown tl) -> In (kind_footprint c' f) (shown tl) ->
      ms (m_created_at m) = Num tm -> ms (f_created_at f) = Num tf ->
      120000 < Z.abs (tf - tm).
Proof.
  exists (rendered moments footprints isEnded).
  split; [apply timeline_total|].
  intros c m c' f tm tf Hm Hf Etm Etf.
  apply (Permutation_in _ (shown_timeline_perm _ _ _)) in Hm, Hf.
  destruct (matched_greedy moments footprints) as (es & used & Hg & E).
  rewrite E in Hm, Hf. apply in_app_or in Hm, Hf.
  destruct Hm as [Hm|Hm].
  2: { unfold residual in Hm. apply in_map_iff in Hm. now destruct Hm as (? & [=] & _). }
  destruct Hf as [Hf|Hf].
  { exfalso. clear - Hg Hf. induction Hg; simpl in Hf;
      [contradiction | destruct Hf as [Hf|Hf]; [discriminate | auto]
       | destruct Hf as [Hf|Hf]; [discriminate | auto]]. }
  unfold residual in Hf. apply in_map_iff in Hf. destruct Hf as (g & [= _ ->] & Hg').
  apply filter_In in Hg'. destruct Hg' as [Hscan Hfree].
  apply negb_true_iff, bool_decide_eq_false in Hfree.
  pose proof (greedy_alone_far _ _ _ _ _ Hg c m Hm f (Z.abs (tf - tm)) Hscan Hfree) as Hfar.
  destruct (Z_lt_le_dec 120000 (Z.abs (tf - tm))) as [Hlt|Hle]; [exact Hlt|].
  exfalso. apply Hfar. split; [|exact Hle].
  unfold delta. rewrite Etm, Etf. reflexivity.
Qed.

(** X27. Every moment is shown under the day of its own timestamp, alone
    or combined with a footprint, whatever the day of that footprint. *)
Theorem moment_under_own_day moments footprints isEnded :
  exists tl,
    timeline moments footprints isEnded = Some tl /\
    forall m, In m moments ->
      exists items it,
        In (dayKey (m_created_at m), items) tl /\ In it items /\
        created_at it = m_created_at m /\ entry_moment it = Some m.
Proof.
  exists (rendered moments footprints isEnded).
  split; [apply timeline_total|]. rewrite rendered_eq.
  intros m Hm.
  destruct (matched_greedy moments footprints) as (es & used & Hg & E).
  assert (Hit : exists it, In it (matched moments footprints) /\
                  created_at it = m_created_at m /\ entry_moment it = Some m).
  { destruct (greedy_entry _ _ _ _ _ Hg m Hm) as [H|[f H]];
      eexists; (split; [rewrite E; apply in_or_app; left; exact H | split; reflexivity]). }
  destruct Hit as (it & Hit & Ec & Em).
  assert (Hes : In it (entries moments footprints isEnded))
    by now apply Array_sort_In.
  destruct (in_sections_of_day _ isEnded it Hes) as (items & Hsec & Hin).
  exists items, it. unfold day_of in Hsec. rewrite Ec in Hsec. auto.
Qed.

End Host.

(* ===================================================================== *)
(** ** The markers of the map *)
(* ===================================================================== *)

(** The moment [momentsById] holds under [id]: the last of that id. *)
Lemma momentsById_get (moments : list MapSection.Moment) id acc :
  Map_get id (fold_left (fun map m => Map_set (MapSection.m_id m) m map) moments acc) =
  fold_left (fun r m => if String.eqb (MapSection.m_id m) id then Some m else r)
    moments (Map_get id acc).
Proof.
  revert acc. induction moments as [|a l IH]; intros acc; simpl; [reflexivity|].
  now rewrite IH, Map_get_set.
Qed.

Lemma last_of_id (moments : list MapSection.Moment) id r m :
  fold_left (fun r m => if String.eqb (MapSection.m_id m) id then Some m else r)
    moments r = Some m ->
  (r = Some m /\ forall m', In m' moments -> MapSection.m_id m' <> id) \/
  (MapSection.m_id m = id /\
   exists l1 l2, moments = (l1 ++ m :: l2)%list /\
                 forall m', In m' l2 -> MapSection.m_id m' <> id).
Proof.
  revert r. induction moments as [|a l IH]; intros r H; simpl in H.
  - left. split; [exact H | intros ? []].
  - destruct (IH _ H) as [[Hr Hl]|(Hid & l1 & l2 & -> & Hl2)].
    + destruct (String.eqb_spec (MapSection.m_id a) id) as [E|E].
      * injection Hr as ->. right. split; [exact E|]. now exists [], l.
      * left. split; [exact Hr|]. intros m' [<-|Hm']; [exact E | now apply Hl].
    + right. split; [exact Hid|]. now exists (a :: l1), l2.
Qed.

Lemma some_of_id (moments : list MapSection.Moment) id (r : option MapSection.Moment) :
  match fold_left (fun r m => if String.eqb (MapSection.m_id m) id then Some m else r)
          moments r with
  | Some _ => true
  | None => false
  end =
  match r with Some _ => true | None => false end ||
  existsb (fun m => String.eqb (MapSection.m_id m) id) moments.
Proof.
  revert r. induction moments as [|a l IH]; intros r; simpl; [now rewrite orb_false_r|].
  rewrite IH. destruct (String.eqb (MapSection.m_id a) id); simpl.
  - now rewrite orb_true_r.
  - reflexivity.
Qed.

Lemma momentMarkers_fold moments l acc :
  fold_left (MapSection.marker_step (MapSection.momentsById moments)) l acc =
  (acc ++ flat_map (fun p => match linked_moment moments p with
                             | Some m => [{| MapSection.moment := m; MapSection.post := p |}]
                             | None => []
                             end) l)%list.
Proof.
  revert acc. induction l as [|p l IH]; intros acc; simpl; [now rewrite app_nil_r|].
  rewrite IH. unfold MapSection.marker_step, linked_moment.
  destruct (if truthy (MapSection.p_moment_id p)
            then match MapSection.p_moment_id p with
                 | Some id => Map_get id (MapSection.momentsById moments)
                 | None => None
                 end
            else None); simpl; [now rewrite <- app_assoc | reflexivity].
Qed.

Lemma marker_post_in posts moments mm :
  In mm (MapSection.momentMarkers posts moments) -> In (MapSection.post mm) posts.
Proof.
  unfold MapSection.momentMarkers. rewrite momentMarkers_fold. simpl.
  intros H. apply in_flat_map in H. destruct H as (p & Hp & H).
  apply filter_In in Hp. destruct Hp as [Hp _].
  destruct (linked_moment moments p); [|contradiction].
  destruct H as [<-|[]]. exact Hp.
Qed.

(** X12. Every marker stands on a post of the list that names a moment by a
    non-empty id, and carries a moment of the list with that id: the
    last one of that id, should several have it. *)
Theorem markers_sound posts moments mm :
  In mm (MapSection.momentMarkers posts moments) ->
  In (MapSection.post mm) posts /\
  exists id,
    MapSection.p_moment_id (MapSection.post mm) = Some id /\ id <> "" /\
    MapSection.m_id (MapSection.moment mm) = id /\
    exists l1 l2,
      moments = (l1 ++ MapSection.moment mm :: l2)%list /\
      forall m', In m' l2 -> MapSection.m_id m' <> id.
Proof.
  unfold MapSection.momentMarkers. rewrite momentMarkers_fold. simpl.
  intros H. apply in_flat_map in H. destruct H as (p & Hp & H).
  apply filter_In in Hp. destruct Hp as [Hp Ht].
  unfold linked_moment in H. rewrite Ht in H.
  destruct (MapSection.p_moment_id p) as [id|] eqn:Eid; [|contradiction].
  destruct (Map_get id (MapSection.momentsById moments)) as [m|] eqn:Em; [|contradiction].
  destruct H as [<-|[]]. simpl. split; [exact Hp|].
  exists id. split; [exact Eid|]. split.
  { intros ->. discriminate Ht. }
  unfold MapSection.momentsById in Em. rewrite momentsById_get in Em.
  apply last_of_id in Em. destruct Em as [[Em _]|[Hid Hl]]; [discriminate|].
  split; assumption.
Qed.

(** X13. The markers stand, in the order of the posts, on exactly the posts
    that name by a non-empty id a moment of the list: every such post
    gets one marker and no other post gets any. *)
Theorem markers_complete posts moments :
  List.map MapSection.post (MapSection.momentMarkers posts moments) =
  List.filter
    (fun p => match MapSection.p_moment_id p with
              | Some id =>
                  negb (String.eqb id "") &&
                  existsb (fun m => String.eqb (MapSection.m_id m) id) moments
              | None => false
              end) posts.
Proof.
  unfold MapSection.momentMarkers. rewrite momentMarkers_fold. simpl.
  unfold MapSection.linkedPosts.
  induction posts as [|p posts IH]; simpl; [reflexivity|].
  assert (E : match linked_moment moments p with Some _ => true | None => false end =
              match MapSection.p_moment_id p with
              | Some id =>
                  negb (String.eqb id "") &&
                  existsb (fun m => String.eqb (MapSection.m_id m) id) moments
              | None => false
              end).
  { unfold linked_moment, truthy.
    destruct (MapSection.p_moment_id p) as [id|]; [|reflexivity].
    destruct (String.eqb id ""); simpl; [reflexivity|].
    unfold MapSection.momentsById. now rewrite momentsById_get, some_of_id. }
  rewrite <- E.
  destruct (truthy (MapSection.p_moment_id p)) eqn:Ht; simpl.
  - rewrite List.map_app, IH. now destruct (linked_moment moments p).
  - rewrite IH. unfold linked_moment. now rewrite Ht.
Qed.

(** X14. Whenever the map itself is rendered there is a post: the map is
    centred on the first post, never on the default centre, the bounds
    are fitted, and every point they are fitted to is the position of a
    post. *)
Theorem map_centred_on_first_post st center dots route markers fit :
  MapSection.render st = MapSection.view_map center dots route markers fit ->
  exists p rest,
    MapSection.posts st = p :: rest /\
    center = MapSection.position p /\
    dots = List.map MapSection.position (MapSection.posts st) /\
    exists points,
      fit = Some points /\ points <> [] /\ forall pt, In pt points -> In pt dots.
Proof.
  unfold MapSection.render. cbv zeta.
  destruct (MapSection.loading st); [discriminate|].
  destruct (truthy (MapSection.errorText st)); [discriminate|].
  destruct (MapSection.hasAnyPoints _ _) eqn:Hany; [|discriminate].
  simpl. intros [= <- <- _ <- <-].
  destruct (MapSection.posts st) as [|p rest] eqn:Ep; [discriminate Hany|].
  exists p, rest. repeat split.
  unfold MapSection.FitToPoints. cbv zeta. simpl.
  eexists. split; [reflexivity|]. split; [discriminate|].
  intros pt [<-|Hpt]; [now left|].
  apply in_app_or in Hpt. destruct Hpt as [Hpt|Hpt]; [now right|].
  apply in_map_iff in Hpt. destruct Hpt as (mm & <- & Hmm).
  apply marker_post_in in Hmm. rename Hmm into Hin.
  change (In (MapSection.position (MapSection.post mm))
            (List.map MapSection.position (p :: rest))).
  now apply in_map.
Qed.

(** X15. A load that is not cancelled and fails leaves the error text and
    nothing else on the screen, whatever the message and whatever was
    loaded before, and leaves the posts and moments as they were; one
    that succeeds without posts leaves the line of the empty map; one
    that finds itself cancelled writes nothing after its wait. *)
Theorem map_after_load postsRes momentsRes st :
  (forall message,
     res_error postsRes = Some message ->
     MapSection.render (MapSection.load postsRes momentsRes false st) =
       MapSection.view_error (String.append "Could not load map locations: " message) /\
     MapSection.posts (MapSection.load postsRes momentsRes false st) = MapSection.posts st /\
     MapSection.moments (MapSection.load postsRes momentsRes false st) =
       MapSection.moments st) /\
  (forall message,
     res_error postsRes = None -> res_error momentsRes = Some message ->
     MapSection.render (MapSection.load postsRes momentsRes false st) =
       MapSection.view_error (String.append "Could not load moments: " message) /\
     MapSection.posts (MapSection.load postsRes momentsRes false st) = MapSection.posts st /\
     MapSection.moments (MapSection.load postsRes momentsRes false st) =
       MapSection.moments st) /\
  (res_error postsRes = None -> res_error momentsRes = None ->
   default [] (res_data postsRes) = [] ->
   MapSection.render (MapSection.load postsRes momentsRes false st) =
     MapSection.view_no_locations) /\
  MapSection.load postsRes momentsRes true st = MapSection.load_pending st.
Proof.
  split; [|split; [|split]].
  - intros message E. unfold MapSection.load. rewrite E. repeat split.
  - intros message E1 E2. unfold MapSection.load. rewrite E1, E2. repeat split.
  - intros E1 E2 E. unfold MapSection.load. rewrite E1, E2. simpl.
    unfold MapSection.render. simpl. rewrite E. reflexivity.
  - unfold MapSection.load.
    destruct (res_error postsRes), (res_error momentsRes); reflexivity.
Qed.

(* ===================================================================== *)
(** ** The place of a position *)
(* ===================================================================== *)

Lemma truthy_or_else a b : truthy (or_else a b) = truthy a || truthy b.
Proof. unfold or_else. now destruct (truthy a) eqn:E; [rewrite E|]. Qed.

Lemma truthy_string a : truthy a = true -> a = Some (default "" a) /\ default "" a <> "".
Proof.
  destruct a as [s|]; [|discriminate]. simpl.
  destruct (String.eqb_spec s ""); [discriminate | auto].
Qed.

Lemma or_else_none a s : or_else a None = Some s -> s <> "".
Proof.
  unfold or_else. destruct (truthy a) eqn:E; [|discriminate].
  intros ->. now apply truthy_string in E.
Qed.

Lemma join_not_empty sep p rest : p <> "" -> Array_join sep (p :: rest) <> "".
Proof.
  intros Hp. destruct p as [|c p]; [contradiction|].
  destruct rest; simpl; discriminate.
Qed.

Lemma label_of_not_empty json s : MomentsSection.label_of json = Some s -> s <> "".
Proof. unfold MomentsSection.label_of. cbv zeta. apply or_else_none. Qed.

(** X16. The place [reverseGeocode] answers with is never the empty string:
    it is a label that names something, or [null]. *)
Theorem reverseGeocode_not_empty r s : MomentsSection.reverseGeocode r = Some s -> s <> "".
Proof.
  destruct r as [|[|] [json|m]]; try discriminate. simpl.
  apply label_of_not_empty.
Qed.

(** X17. From an answer of the geocoder that parses, [reverseGeocode] makes
    a label whenever the answer names a suburb, neighbourhood, village,
    town, city district, hamlet, city, county or state, or has a display
    name; it answers [null] only when all of these are missing or
    empty. *)
Theorem reverseGeocode_null json :
  MomentsSection.reverseGeocode (MomentsSection.fetch_resolved true (resolved json)) = None <->
  truthy (mbind MomentsSection.display_name json) = false /\
  forall field,
    In field [MomentsSection.suburb; MomentsSection.neighbourhood; MomentsSection.village;
              MomentsSection.town; MomentsSection.city_district; MomentsSection.hamlet;
              MomentsSection.city; MomentsSection.county; MomentsSection.state] ->
    truthy (field (default MomentsSection.no_address (mbind MomentsSection.address json))) =
      false.
Proof.
  simpl MomentsSection.reverseGeocode. unfold MomentsSection.label_of. cbv zeta.
  set (a := default MomentsSection.no_address (mbind MomentsSection.address json)).
  set (dn := mbind MomentsSection.display_name json).
  unfold MomentsSection.parts_of. cbv zeta.
  set (L := or_else (or_else (or_else (or_else (or_else (MomentsSection.suburb a)
              (MomentsSection.neighbourhood a)) (MomentsSection.village a))
              (MomentsSection.town a)) (MomentsSection.city_district a))
              (MomentsSection.hamlet a)).
  set (C := or_else (or_else (MomentsSection.city a) (MomentsSection.town a))
              (MomentsSection.village a)).
  assert (HL : truthy L =
               truthy (MomentsSection.suburb a) || truthy (MomentsSection.neighbourhood a) ||
               truthy (MomentsSection.village a) || truthy (MomentsSection.town a) ||
               truthy (MomentsSection.city_district a) || truthy (MomentsSection.hamlet a))
    by (unfold L; now rewrite !truthy_or_else).
  assert (HC : truthy C =
               truthy (MomentsSection.city a) || truthy (MomentsSection.town a) ||
               truthy (MomentsSection.village a))
    by (unfold C; now rewrite !truthy_or_else).
  assert (Hall : (forall field,
            In field [MomentsSection.suburb; MomentsSection.neighbourhood;
                      MomentsSection.village; MomentsSection.town;
                      MomentsSection.city_district; MomentsSection.hamlet;
                      MomentsSection.city; MomentsSection.county; MomentsSection.state] ->
            truthy (field a) = false) <->
          truthy L = false /\ truthy C = false /\
          truthy (MomentsSection.county a) = false /\
          truthy (MomentsSection.state a) = false).
  { rewrite HL, HC. split.
    - intros H. rewrite !(H _) by (simpl; tauto). auto.
    - intros (H1 & H2 & H3 & H4) field Hf.
      repeat match goal with
             | H : _ || _ = false |- _ => apply orb_false_iff in H; destruct H
             end.
      simpl in Hf. repeat (destruct Hf as [<-|Hf]; [assumption|]). contradiction. }
  rewrite Hall. clear Hall HL HC.
  assert (Hlabel : forall p rest,
            p <> "" ->
            or_else (or_else (Some (Array_join ", "
               (List.filter (fun s => negb (String.eqb s "")) (p :: rest)))) dn) None <> None).
  { intros p rest Hp. simpl List.filter.
    rewrite (proj2 (String.eqb_neq p "") Hp). simpl negb. cbv iota.
    pose proof (join_not_empty ", " p
                  (List.filter (fun s => negb (String.eqb s "")) rest) Hp) as Hj.
    unfold or_else at 2. unfold truthy at 1.
    rewrite (proj2 (String.eqb_neq _ "") Hj). simpl negb. cbv iota.
    unfold or_else, truthy. rewrite (proj2 (String.eqb_neq _ "") Hj). discriminate. }
  destruct (truthy L) eqn:EL.
  - destruct (truthy_string _ EL) as [_ HLne].
    split; [|intros (_ & [=] & _)].
    intros H. exfalso. revert H.
    destruct (truthy C && negb (bool_decide (C = L)));
      [|destruct (negb (truthy C) && truthy (MomentsSection.county a));
        [|destruct (negb (truthy C) && negb (truthy (MomentsSection.county a)) &&
                    truthy (MomentsSection.state a))]];
      now apply Hlabel.
  - destruct (truthy C) eqn:EC.
    + destruct (truthy_string _ EC) as [_ HCne].
      assert (Hne : C <> L) by (intros E; rewrite E in EC; congruence).
      rewrite (bool_decide_eq_false_2 _ Hne). cbn [andb negb app].
      split; [|intros (_ & _ & [=] & _)].
      intros H. exfalso. revert H. now apply Hlabel.
    + cbn [andb negb]. destruct (truthy (MomentsSection.county a)) eqn:Eco; cbn [andb negb app].
      * destruct (truthy_string _ Eco) as [_ Hne].
        split; [|intros (_ & _ & _ & [=] & _)].
        intros H. exfalso. revert H. now apply Hlabel.
      * destruct (truthy (MomentsSection.state a)) eqn:Est; cbn [andb negb app].
        -- destruct (truthy_string _ Est) as [_ Hne].
           split; [|intros (_ & _ & _ & _ & [=])].
           intros H. exfalso. revert H. now apply Hlabel.
        -- simpl. unfold or_else. simpl. destruct (truthy dn) eqn:Edn.
           ++ destruct (truthy_string _ Edn) as [-> _].
              split; [discriminate | intros ([=] & _)].
           ++ tauto.
Qed.

(* ===================================================================== *)
(** ** Saving, editing and deleting a moment *)
(* ===================================================================== *)

Section MomentsFacts.
Variable toLowerCase : string -> string.
Variable trim : string -> string.

#[local] Abbreviation addMoment := (MomentsSection.addMoment toLowerCase trim).
#[local] Abbreviation calmErrorMessage := (MomentsSection.calmErrorMessage toLowerCase).

Ltac flow :=
  cbv [MomentsSection.run MomentsSection.addMoment MomentsSection.saveEdit
       MomentsSection.deleteMoment MomentsSection.uploadPhotoIfAny
       MomentsSection.footprint_of_moment MomentsSection.removeSelectedPhoto
       MomentsSection.showSavedBriefly MomentsSection.clearSavedTimer
       MomentsSection.loadMoments MomentsSection.cancelEdit
       MomentsSection.timer_may_fire
       MomentsSection.bind MomentsSection.ret MomentsSection.set
       MomentsSection.perform MomentsSection.answer MomentsSection.await
       MomentsSection.throw MomentsSection.throw_if MomentsSection.try_catch
       MomentsSection.try_finally MomentsSection.current].

(** The wait for an answer, in closed form. *)
Lemma timer_may_fire_run e ans w :
  MomentsSection.timer_may_fire e ans w =
  (MomentsSection.normal tt,
   (waited (MomentsSection.ans_timer ans e) (fst w),
    (snd w ++ wait_calls (MomentsSection.ans_timer ans e)
                (MomentsSection.savedTimerRef (fst w)))%list)).
Proof.
  destruct w as [st tr]. flow. cbn [fst snd]. unfold waited, wait_calls.
  destruct st as [? ? ? ? ? ? ? ? ? ? ? ? ? [id|] ?]; cbn;
    [destruct (MomentsSection.ans_timer ans e)|]; cbn;
    rewrite ?app_nil_r; reflexivity.
Qed.

Lemma wait_calls_In e fires r :
  In e (wait_calls fires r) -> exists id, r = Some id /\ e = MomentsSection.timer_callback id.
Proof.
  unfold wait_calls. destruct r as [id|]; [destruct fires|]; simpl; try tauto.
  intros [<-|[]]. now exists id.
Qed.

Ltac flow_wait :=
  cbv [MomentsSection.run MomentsSection.addMoment MomentsSection.saveEdit
       MomentsSection.deleteMoment MomentsSection.uploadPhotoIfAny
       MomentsSection.footprint_of_moment MomentsSection.removeSelectedPhoto
       MomentsSection.showSavedBriefly MomentsSection.clearSavedTimer
       MomentsSection.loadMoments MomentsSection.cancelEdit
       MomentsSection.bind MomentsSection.ret MomentsSection.set
       MomentsSection.perform MomentsSection.answer MomentsSection.await
       MomentsSection.throw MomentsSection.throw_if MomentsSection.try_catch
       MomentsSection.try_finally MomentsSection.current];
  rewrite ?timer_may_fire_run.

(** The handlers called by the handlers, in closed form. *)
Lemma showSavedBriefly_run ans w :
  MomentsSection.showSavedBriefly ans w =
  (MomentsSection.normal tt,
   (MomentsSection.setSavedTimerRef (Some (MomentsSection.ans_setTimeout ans)) (fst w),
    (snd w ++ clear_calls (MomentsSection.savedTimerRef (fst w)) ++
     [MomentsSection.window_setTimeout (MomentsSection.ans_setTimeout ans) 2500])%list)).
Proof.
  destruct w as [st tr]. flow. cbn [fst snd]. unfold clear_calls.
  destruct (MomentsSection.savedTimerRef st) as [id|]; [destruct (id =? 0)|];
    cbn; rewrite <- ?app_assoc; reflexivity.
Qed.

Lemma removeSelectedPhoto_run snap ans w :
  MomentsSection.removeSelectedPhoto snap ans w =
  (MomentsSection.normal tt,
   (MomentsSection.setPreviewUrl
      (if truthy (MomentsSection.previewUrl snap) then None
       else MomentsSection.previewUrl (fst w))
      (MomentsSection.setUploadedPhotoUrl None (MomentsSection.setFile None (fst w))),
    (snd w ++ remove_calls snap (MomentsSection.fileInputRef (fst w)))%list)).
Proof.
  destruct w as [st tr]. flow. cbn [fst snd]. unfold remove_calls.
  destruct (truthy (MomentsSection.previewUrl snap)); cbn;
    destruct (MomentsSection.fileInputRef st); cbn;
    rewrite <- ?app_assoc, ?app_nil_r; reflexivity.
Qed.

Lemma footprint_of_moment_run props newMomentId ans w :
  MomentsSection.footprint_of_moment props newMomentId ans w =
  (MomentsSection.normal tt,
   (awaited ans (footprint_calls props newMomentId ans) (fst w),
    (snd w ++ await_calls ans (footprint_calls props newMomentId ans) (fst w))%list)).
Proof.
  destruct w as [st tr]. flow_wait. cbn [fst snd]. rewrite ?timer_may_fire_run.
  unfold footprint_calls.
  destruct (MomentsSection.ans_position ans) as [[loc|]|m]; cbn [fst snd];
    rewrite ?timer_may_fire_run; cbn [fst snd];
    [destruct (MomentsSection.ans_insertPost ans) as [[]|?]| |];
    cbn [fst snd awaited await_calls fold_left];
    rewrite <- ?app_assoc, ?app_nil_r; reflexivity.
Qed.

Lemma loadMoments_run currentTripId ans w :
  MomentsSection.loadMoments currentTripId ans w =
  let fires := MomentsSection.ans_timer ans (MomentsSection.moments_select currentTripId) in
  let calls :=
    (snd w ++ MomentsSection.moments_select currentTripId ::
       wait_calls fires (MomentsSection.savedTimerRef (fst w)))%list in
  match MomentsSection.ans_select ans with
  | resolved r => (MomentsSection.normal tt, (loaded r fires (fst w), calls))
  | rejected m =>
      (MomentsSection.abrupt m,
       (waited fires
          (MomentsSection.setListError "" (MomentsSection.setLoading true (fst w))),
        calls))
  end.
Proof.
  destruct w as [st tr]. flow_wait. cbn [fst snd]. unfold loaded.
  rewrite <- app_assoc.
  destruct (MomentsSection.ans_select ans) as [r|m]; cbn; [|reflexivity].
  destruct (res_error r); reflexivity.
Qed.

Ltac flow_top :=
  cbv [MomentsSection.run MomentsSection.addMoment MomentsSection.saveEdit
       MomentsSection.deleteMoment MomentsSection.uploadPhotoIfAny
       MomentsSection.cancelEdit
       MomentsSection.bind MomentsSection.ret MomentsSection.set
       MomentsSection.perform MomentsSection.answer MomentsSection.await
       MomentsSection.throw MomentsSection.throw_if MomentsSection.try_catch
       MomentsSection.try_finally MomentsSection.current].

Ltac step :=
  first
    [ rewrite timer_may_fire_run
    | rewrite showSavedBriefly_run
    | rewrite removeSelectedPhoto_run
    | rewrite footprint_of_moment_run
    | rewrite loadMoments_run
    | progress unfold loaded
    | match goal with
      | |- context [match ?x with _ => _ end] =>
          lazymatch x with
          | context [match _ with _ => _ end] => fail
          | _ => destruct x eqn:?
          end
      end ].

Ltac steps := repeat (cbn beta iota zeta delta [fst snd negb]; step).

(** A call that is in a list of calls put together by [++] and [::]. *)
Ltac find_call :=
  lazymatch goal with
  | |- In _ (_ ++ _) => apply in_or_app; first [left; find_call | right; find_call]
  | |- In _ (_ :: _) => first [left; reflexivity | right; find_call]
  end.

Lemma await_calls_In e ans es st :
  In e (await_calls ans es st) ->
  In e es \/ exists id, e = MomentsSection.timer_callback id.
Proof.
  revert st. induction es as [|e' es IH]; intros st; [intros []|].
  cbn [await_calls]. intros [->|H]; [left; now left|].
  apply in_app_or in H. destruct H as [H|H].
  - apply wait_calls_In in H. destruct H as (id & _ & ->). right. now exists id.
  - destruct (IH _ H) as [H'|H']; [left; now right | now right].
Qed.

(** The calls that are in a list of calls, one by one. *)
Ltac each_call :=
  repeat match goal with
         | H : _ \/ _ |- _ => destruct H
         | H : In _ (wait_calls _ _) |- _ =>
             apply wait_calls_In in H; destruct H as (? & _ & H)
         | H : In _ (await_calls _ _ _) |- _ =>
             apply await_calls_In in H; destruct H as [H|(? & H)]
         | H : In _ (footprint_calls _ _ _) |- _ => unfold footprint_calls in H
         | H : In _ (match ?x with _ => _ end) |- _ => destruct x eqn:?
         | H : In _ (_ ++ _) |- _ => apply in_app_or in H
         | H : In _ (_ :: _) |- _ => destruct H
         | H : In _ [] |- _ => destruct H
         | H : False |- _ => destruct H
         end.

(** One run of [addMoment], taken apart along its answers. *)
Ltac run_addMoment props ans st :=
  let W := fresh "W" in
  let E := fresh "E" in
  remember (MomentsSection.run (addMoment props) ans st) as W eqn:E;
  revert E; flow_top.

Lemma calm_message_not_empty e : calmErrorMessage e <> "".
Proof.
  unfold MomentsSection.calmErrorMessage. cbv zeta.
  destruct (_ || _); [discriminate|].
  destruct (String.eqb_spec (default "" e) ""); [discriminate | assumption].
Qed.

(** X18. A run of [addMoment] that is not disabled is never left at
    [saving].  It ends with an answer to the user, the status [saved] or
    [error] beside a message that is not empty; or it ends with the
    status [idle] and no message, and this only when the moment was
    stored and the timer of the saved message, the one this run has
    started, ran out while the list was loaded again. *)
Theorem addMoment_answers props st ans :
  MomentsSection.disabled props = false ->
  (MomentsSection.saveStatus (fst (MomentsSection.run (addMoment props) ans st)) =
     MomentsSection.saved \/
   MomentsSection.saveStatus (fst (MomentsSection.run (addMoment props) ans st)) =
     MomentsSection.error) /\
  MomentsSection.saveMessage (fst (MomentsSection.run (addMoment props) ans st)) <> "" \/
  MomentsSection.saveStatus (fst (MomentsSection.run (addMoment props) ans st)) =
    MomentsSection.idle /\
  MomentsSection.saveMessage (fst (MomentsSection.run (addMoment props) ans st)) = "" /\
  MomentsSection.showList props = true /\
  MomentsSection.ans_timer ans (MomentsSection.moments_select (MomentsSection.tripId props)) =
    true /\
  (exists id, MomentsSection.ans_insert ans = resolved (id, None)) /\
  In (MomentsSection.timer_callback (MomentsSection.ans_setTimeout ans))
     (snd (MomentsSection.run (addMoment props) ans st)).
Proof.
  intros Hd. run_addMoment props ans st. rewrite Hd.
  steps; intros ->; cbn -[In app].
  all: try (left; split; [auto|]; first [discriminate | apply calm_message_not_empty]).
  all: match goal with
       | |- context [if ?b then MomentsSection.idle else _] => destruct b eqn:Efires
       end.
  all: try (left; split; [auto|]; discriminate).
  all: right; repeat (split; [reflexivity|]).
  all: repeat match goal with a : (_ * _)%type |- _ => destruct a end.
  all: cbn [fst snd] in *; subst.
  all: split; [eexists; reflexivity|].
  all: find_call.
Qed.

(** X19. The draft is cleared only when the moment has been stored: after a
    run of [addMoment] the text is as it was, or it is empty and the
    insert of the trimmed text was made and answered without an error. *)
Theorem addMoment_keeps_draft props st ans :
  MomentsSection.text (fst (MomentsSection.run (addMoment props) ans st)) =
    MomentsSection.text st \/
  (MomentsSection.text (fst (MomentsSection.run (addMoment props) ans st)) = "" /\
   exists id user photo,
     MomentsSection.ans_insert ans = resolved (id, None) /\
     In (MomentsSection.moments_insert (MomentsSection.tripId props) user
           (trim (MomentsSection.text st)) photo)
        (snd (MomentsSection.run (addMoment props) ans st))).
Proof.
  run_addMoment props ans st.
  steps; intros ->; cbn -[In app]; try (left; reflexivity).
  all: right; split; [reflexivity|].
  all: repeat match goal with a : (_ * _)%type |- _ => destruct a end.
  all: cbn [fst snd] in *; subst.
  all: do 3 eexists; split; [first [eassumption | reflexivity]|].
  all: find_call.
Qed.

(** X20. The footprint never blocks the moment: when the user is signed in,
    the photo, if any, is uploaded and the insert of the moment is
    answered without an error, the run ends with the form cleared, the
    moment inserted and [onSaved] called last, whatever the position,
    the geocoder and the insert of the footprint answer.  The status it
    ends with is [saved], or [idle] when the list is loaded again and
    that takes longer than the timer of the saved message. *)
Theorem footprint_never_blocks props st ans uid id :
  MomentsSection.disabled props = false ->
  trim (MomentsSection.text st) <> "" \/ is_Some (MomentsSection.file st) \/
    truthy (MomentsSection.uploadedPhotoUrl st) = true ->
  MomentsSection.ans_getUser ans = resolved (Some uid, None) -> uid <> "" ->
  truthy (MomentsSection.uploadedPhotoUrl st) = true \/ MomentsSection.file st = None \/
    MomentsSection.ans_upload ans = resolved None ->
  MomentsSection.ans_insert ans = resolved (id, None) ->
  (MomentsSection.showList props = true ->
   exists r, MomentsSection.ans_select ans = resolved r) ->
  MomentsSection.saveStatus (fst (MomentsSection.run (addMoment props) ans st)) =
    (if MomentsSection.showList props &&
        MomentsSection.ans_timer ans
          (MomentsSection.moments_select (MomentsSection.tripId props))
     then MomentsSection.idle else MomentsSection.saved) /\
  MomentsSection.text (fst (MomentsSection.run (addMoment props) ans st)) = "" /\
  MomentsSection.file (fst (MomentsSection.run (addMoment props) ans st)) = None /\
  MomentsSection.uploadedPhotoUrl (fst (MomentsSection.run (addMoment props) ans st)) =
    None /\
  (exists photo,
     In (MomentsSection.moments_insert (MomentsSection.tripId props) uid
           (trim (MomentsSection.text st)) photo)
        (snd (MomentsSection.run (addMoment props) ans st))) /\
  (MomentsSection.onSaved props = true ->
   exists calls,
     snd (MomentsSection.run (addMoment props) ans st) =
       (calls ++ [MomentsSection.call_onSaved])%list).
Proof.
  intros Hd Hv Hu Huid Hup Hi Hs.
  assert (Hvalid : String.eqb (trim (MomentsSection.text st)) "" &&
                   negb (bool_decide (is_Some (MomentsSection.file st))) &&
                   negb (truthy (MomentsSection.uploadedPhotoUrl st)) = false).
  { destruct Hv as [H|[H|H]].
    - now rewrite (proj2 (String.eqb_neq _ _) H).
    - rewrite (bool_decide_eq_true_2 _ H). now rewrite andb_false_r.
    - rewrite H. now rewrite andb_false_r. }
  assert (Ht : truthy (Some uid) = true)
    by (simpl; now rewrite (proj2 (String.eqb_neq _ _) Huid)).
  run_addMoment props ans st. rewrite Hd, Hvalid. cbn beta iota zeta delta [fst snd].
  rewrite timer_may_fire_run.
  cbn beta iota zeta delta [fst snd]. rewrite Hu. cbn beta iota zeta delta [fst snd].
  rewrite Ht. cbn beta iota zeta delta [fst snd negb].
  destruct (truthy (MomentsSection.uploadedPhotoUrl st)) eqn:Eurl;
    [|destruct (MomentsSection.file st) as [f|] eqn:Ef;
      [destruct Hup as [H|[H|H]]; [discriminate|discriminate|]
      |]];
    cbn beta iota zeta delta [fst snd]; rewrite ?timer_may_fire_run;
    cbn beta iota zeta delta [fst snd]; rewrite ?H;
    cbn beta iota zeta delta [fst snd]; rewrite ?timer_may_fire_run;
    cbn beta iota zeta delta [fst snd]; rewrite Hi;
    cbn beta iota zeta delta [fst snd];
    rewrite footprint_of_moment_run; cbn beta iota zeta delta [fst snd];
    rewrite removeSelectedPhoto_run; cbn beta iota zeta delta [fst snd];
    rewrite showSavedBriefly_run; cbn beta iota zeta delta [fst snd];
    (destruct (MomentsSection.showList props) eqn:El;
     [destruct (Hs eq_refl) as (r & Er); rewrite loadMoments_run, Er|]);
    cbn beta iota zeta delta [fst snd andb];
    destruct (MomentsSection.onSaved props) eqn:Eo;
    cbn beta iota zeta delta [fst snd]; intros ->; cbn [fst snd];
    (split; [unfold loaded; try destruct (res_error r); reflexivity|]);
    (split; [unfold loaded; try destruct (res_error r); reflexivity|]);
    (split; [unfold loaded; try destruct (res_error r); reflexivity|]);
    (split; [unfold loaded; try destruct (res_error r); reflexivity|]);
    (split; [eexists; find_call|]);
    try discriminate; intros _; eexists; reflexivity.
Qed.


(** X21. A footprint is stored only for a moment that has been stored: every
    insert of a post that a run of [addMoment] makes carries the id the
    insert of the moment answered with, the position the browser gave
    and the place the geocoder gave for it, which is never the empty
    string. *)
Theorem footprint_of_stored_moment props st ans trip_id lat lng accuracy_m place_text moment_id :
  In (MomentsSection.posts_insert trip_id lat lng accuracy_m place_text moment_id)
     (snd (MomentsSection.run (addMoment props) ans st)) ->
  MomentsSection.ans_insert ans = resolved (moment_id, None) /\
  trip_id = MomentsSection.tripId props /\
  MomentsSection.ans_position ans =
    resolved (Some {| MomentsSection.lat := lat; MomentsSection.lng := lng;
                      MomentsSection.accuracy := accuracy_m |}) /\
  place_text = MomentsSection.reverseGeocode (MomentsSection.ans_fetch ans) /\
  place_text <> Some "".
Proof.
  run_addMoment props ans st.
  steps; intros ->; cbn [fst snd]; unfold clear_calls, remove_calls;
    intros H.
  all: each_call; try discriminate.
  all: match goal with H : _ = MomentsSection.posts_insert _ _ _ _ _ _ |- _ =>
         injection H as <- <- <- <- <- <- end.
  all: repeat match goal with a : (_ * _)%type |- _ => destruct a end.
  all: cbn [fst snd] in *; subst.
  all: match goal with loc : MomentsSection.Coords |- _ => destruct loc end.
  all: repeat split; try assumption; try reflexivity.
  all: intros E; destruct (MomentsSection.ans_fetch ans) as [|[|] [json|m]];
    try discriminate; now apply label_of_not_empty in E.
Qed.

Lemma addMoment_uploaded props st ans url :
  MomentsSection.uploadedPhotoUrl st = Some url -> url <> "" ->
  (forall path f,
     ~ In (MomentsSection.storage_upload path f)
          (snd (MomentsSection.run (addMoment props) ans st))) /\
  (forall trip_id user_id text photo_path,
     In (MomentsSection.moments_insert trip_id user_id text photo_path)
        (snd (MomentsSection.run (addMoment props) ans st)) ->
     photo_path = Some url /\ text = trim (MomentsSection.text st)).
Proof.
  intros Hurl Hne.
  assert (Ht : truthy (MomentsSection.uploadedPhotoUrl st) = true)
    by (rewrite Hurl; simpl; now rewrite (proj2 (String.eqb_neq _ _) Hne)).
  run_addMoment props ans st. rewrite Ht, Hurl.
  steps; intros ->; cbn [fst snd]; unfold clear_calls, remove_calls;
    (split; [intros path f H|intros trip_id user_id text photo_path H]).
  all: each_call; try discriminate.
  all: match goal with H : _ = MomentsSection.moments_insert _ _ _ _ |- _ =>
         injection H as <- <- <- <- end.
  all: split; reflexivity.
Qed.

(** X22. A retry does not upload the photo again: when a run of [addMoment]
    has uploaded the photo and then fails at the insert of the moment,
    it leaves the draft, the file and the public URL of the upload in
    the state, and a run started from that state uploads nothing and
    inserts the same text with that URL. *)
Theorem retry_reuses_upload props st a1 a2 f uid :
  MomentsSection.disabled props = false ->
  MomentsSection.file st = Some f ->
  truthy (MomentsSection.uploadedPhotoUrl st) = false ->
  MomentsSection.ans_getUser a1 = resolved (Some uid, None) -> uid <> "" ->
  MomentsSection.ans_upload a1 = resolved None ->
  MomentsSection.ans_publicUrl a1 <> "" ->
  (forall id, MomentsSection.ans_insert a1 <> resolved (id, None)) ->
  MomentsSection.saveStatus (fst (MomentsSection.run (addMoment props) a1 st)) =
    MomentsSection.error /\
  MomentsSection.text (fst (MomentsSection.run (addMoment props) a1 st)) =
    MomentsSection.text st /\
  MomentsSection.file (fst (MomentsSection.run (addMoment props) a1 st)) = Some f /\
  MomentsSection.uploadedPhotoUrl (fst (MomentsSection.run (addMoment props) a1 st)) =
    Some (MomentsSection.ans_publicUrl a1) /\
  (forall path f',
     ~ In (MomentsSection.storage_upload path f')
          (snd (MomentsSection.run (addMoment props) a2
                  (fst (MomentsSection.run (addMoment props) a1 st))))) /\
  (forall trip_id user_id text photo_path,
     In (MomentsSection.moments_insert trip_id user_id text photo_path)
        (snd (MomentsSection.run (addMoment props) a2
                (fst (MomentsSection.run (addMoment props) a1 st)))) ->
     photo_path = Some (MomentsSection.ans_publicUrl a1) /\
     text = trim (MomentsSection.text st)).
Proof.
  intros Hd Hf Hurl Hu Huid Hup Hpub Hins.
  assert (Ht : truthy (Some uid) = true)
    by (simpl; now rewrite (proj2 (String.eqb_neq _ _) Huid)).
  assert (H1 : MomentsSection.saveStatus
                 (fst (MomentsSection.run (addMoment props) a1 st)) =
               MomentsSection.error /\
               MomentsSection.text (fst (MomentsSection.run (addMoment props) a1 st)) =
               MomentsSection.text st /\
               MomentsSection.file (fst (MomentsSection.run (addMoment props) a1 st)) =
               Some f /\
               MomentsSection.uploadedPhotoUrl
                 (fst (MomentsSection.run (addMoment props) a1 st)) =
               Some (MomentsSection.ans_publicUrl a1)).
  { run_addMoment props a1 st. rewrite Hd, Hf, Hurl.
    rewrite (bool_decide_eq_true_2 (is_Some (Some f))) by eauto.
    rewrite andb_false_r. cbn beta iota zeta delta [fst snd andb negb].
    rewrite timer_may_fire_run. cbn beta iota zeta delta [fst snd].
    rewrite Hu. cbn beta iota zeta delta [fst snd]. rewrite Ht.
    cbn beta iota zeta delta [fst snd negb]. rewrite timer_may_fire_run.
    cbn beta iota zeta delta [fst snd]. rewrite Hup.
    cbn beta iota zeta delta [fst snd]. rewrite timer_may_fire_run.
    cbn beta iota zeta delta [fst snd].
    destruct (MomentsSection.ans_insert a1) as [[id [msg|]]|m] eqn:Ei;
      [| now destruct (Hins id) |]; intros ->; cbn; rewrite Hf; auto. }
  destruct H1 as (Hs & Htext & Hfile & Huploaded).
  repeat (split; [assumption|]).
  rewrite <- Htext. now apply addMoment_uploaded.
Qed.

(** X23. The footprints of a moment are deleted before the moment and the
    moment only when that went through: a run of [deleteMoment] that the
    user does not confirm changes nothing; one that is confirmed asks
    for the posts of the moment to be deleted first, asks for the moment
    to be deleted only when that was answered without an error, and
    always lowers [deletingId] at its end. *)
Theorem deleteMoment_order props st m ans :
  (MomentsSection.ans_confirm ans = false ->
   MomentsSection.run (fun snap => MomentsSection.deleteMoment props snap m) ans st =
     (st, [MomentsSection.window_confirm])) /\
  (MomentsSection.ans_confirm ans = true ->
   MomentsSection.deletingId
     (fst (MomentsSection.run (fun snap => MomentsSection.deleteMoment props snap m) ans st)) =
     None /\
   exists rest,
     snd (MomentsSection.run (fun snap => MomentsSection.deleteMoment props snap m) ans st) =
       MomentsSection.window_confirm :: MomentsSection.posts_delete (m_id m) :: rest /\
     (forall id, In (MomentsSection.posts_delete id) rest -> False) /\
     (forall id, In (MomentsSection.moments_delete id) rest ->
        id = m_id m /\ MomentsSection.ans_deletePosts ans = resolved None)).
Proof.
  split; intros Hc;
    remember (MomentsSection.run (fun snap => MomentsSection.deleteMoment props snap m) ans st)
      as W eqn:E; revert E; flow_top; rewrite Hc; [now intros ->|].
  steps; intros ->; cbn [fst snd app MomentsSection.deletingId MomentsSection.setDeletingId];
    (split; [reflexivity|]); eexists; (split; [reflexivity|]);
    (split; [intros id H|intros id H]).
  all: each_call; try discriminate.
  all: match goal with H : _ = MomentsSection.moments_delete _ |- _ =>
         injection H as <- end.
  all: split; [reflexivity|]; congruence.
Qed.

(** X24. An edit that is blank after trimming never reaches the data base;
    any other edit asks for one update, of the trimmed text under the id
    of the moment, and lowers [savingEdit] at its end however the update
    and the reload turn out. *)
Theorem saveEdit_once props st m ans :
  (trim (MomentsSection.editText st) = "" ->
   MomentsSection.run (fun snap => MomentsSection.saveEdit trim props snap m) ans st =
     (MomentsSection.setListError "Moment text cannot be empty." st, [])) /\
  (trim (MomentsSection.editText st) <> "" ->
   MomentsSection.savingEdit
     (fst (MomentsSection.run (fun snap => MomentsSection.saveEdit trim props snap m) ans st)) =
     false /\
   exists rest,
     snd (MomentsSection.run (fun snap => MomentsSection.saveEdit trim props snap m) ans st) =
       MomentsSection.moments_update (m_id m) (trim (MomentsSection.editText st)) :: rest /\
     forall id text, In (MomentsSection.moments_update id text) rest -> False).
Proof.
  split; intros Ht;
    remember (MomentsSection.run (fun snap => MomentsSection.saveEdit trim props snap m) ans st)
      as W eqn:E; revert E; flow_top.
  - rewrite Ht. now intros ->.
  - rewrite (proj2 (String.eqb_neq _ _) Ht).
    steps; intros ->;
      cbn [fst snd app MomentsSection.savingEdit MomentsSection.setSavingEdit];
      (split; [reflexivity|]); eexists; (split; [reflexivity|]);
      intros id text H.
    all: each_call; discriminate.
Qed.

(* ------------------------------------------------------------------- *)
(** *** The timer of the saved message *)

Lemma timers_saved (r : option Z) pending id :
  match r with
  | Some old => old <> 0 /\ pending = singleton old
  | None => pending = empty
  end ->
  union (fold_left timers_after (clear_calls r) pending) (singleton id) = singleton id.
Proof.
  unfold clear_calls. destruct r as [old|].
  - intros [Hold ->]. rewrite (proj2 (Z.eqb_neq _ _) Hold). simpl.
    now rewrite difference_diag_L, union_empty_l_L.
  - intros ->. simpl. now rewrite union_empty_l_L.
Qed.

(** When the pending timer fires, none is pending and the ref is
    [null]. *)
Lemma savedTimerFired_one_timer st pending id :
  one_timer st pending -> MomentsSection.savedTimerRef st = Some id ->
  one_timer (MomentsSection.savedTimerFired st) (difference pending (singleton id)).
Proof.
  unfold one_timer. intros H E. rewrite E in H. destruct H as [_ ->]. simpl.
  apply difference_diag_L.
Qed.

Section OneTimer.
Variable pending : gset Z.

#[local] Abbreviation keeps := (keeps_one_timer pending).

Lemma keeps_ret {A} (a : A) : keeps (MomentsSection.ret a).
Proof. intros ans w _ H. exact H. Qed.

Lemma keeps_throw {A} m : keeps (@MomentsSection.throw A m).
Proof. intros ans w _ H. exact H. Qed.

Lemma keeps_answer {A} (f : MomentsSection.Answers -> A) : keeps (MomentsSection.answer f).
Proof. intros ans w _ H. exact H. Qed.

Lemma keeps_current {A} (f : MomentsSection.State -> A) : keeps (MomentsSection.current f).
Proof. intros ans w _ H. exact H. Qed.

Lemma keeps_throw_if e : keeps (MomentsSection.throw_if e).
Proof. destruct e; [apply keeps_throw | apply keeps_ret]. Qed.

Lemma keeps_bind {A B} (c : MomentsSection.F A) (k : A -> MomentsSection.F B) :
  keeps c -> (forall a, keeps (k a)) -> keeps (MomentsSection.bind c k).
Proof.
  intros Hc Hk ans w Hid H. specialize (Hc ans w Hid H). unfold MomentsSection.bind.
  destruct (c ans w) as [[a|m] w']; [now apply Hk | exact Hc].
Qed.

Lemma keeps_try_catch {A} (body : MomentsSection.F A) handler :
  keeps body -> (forall m, keeps (handler m)) -> keeps (MomentsSection.try_catch body handler).
Proof.
  intros Hb Hh ans w Hid H. specialize (Hb ans w Hid H). unfold MomentsSection.try_catch.
  destruct (body ans w) as [[a|m] w']; [exact Hb | now apply Hh].
Qed.

Lemma keeps_try_finally {A} (body : MomentsSection.F A) final :
  keeps body -> keeps final -> keeps (MomentsSection.try_finally body final).
Proof.
  intros Hb Hf ans w Hid H. specialize (Hb ans w Hid H). unfold MomentsSection.try_finally.
  destruct (body ans w) as [r w']. specialize (Hf ans w' Hid Hb).
  now destruct (final ans w') as [[a|m] w''].
Qed.

(** A setter of the state, the ref apart, and a call that is not one of
    the timers keep the ref in step. *)
Lemma keeps_set f :
  (forall st, MomentsSection.savedTimerRef (f st) = MomentsSection.savedTimerRef st) ->
  keeps (MomentsSection.set f).
Proof.
  intros Hf ans [st tr] _ H. unfold one_timer in *. cbn [MomentsSection.set fst snd] in *.
  now rewrite Hf.
Qed.

Lemma keeps_perform e :
  (forall p, timers_after p e = p) -> keeps (MomentsSection.perform e).
Proof.
  intros He ans [st tr] _ H. cbn [MomentsSection.perform fst snd] in *.
  rewrite fold_left_app. cbn [fold_left]. now rewrite He.
Qed.

(** The timer that fires is the one the ref names, and the ref is
    lowered with it. *)
Lemma keeps_timer_may_fire e : keeps (MomentsSection.timer_may_fire e).
Proof.
  intros ans [st tr] _ H. rewrite timer_may_fire_run. cbn [fst snd] in *.
  rewrite fold_left_app. unfold one_timer, waited, wait_calls in *.
  destruct (MomentsSection.savedTimerRef st) as [id|];
    [destruct (MomentsSection.ans_timer ans e)|]; cbn; try exact H.
  destruct H as [_ ->]. apply difference_diag_L.
Qed.

Lemma keeps_await {A} e (f : MomentsSection.Answers -> Settled A) :
  (forall p, timers_after p e = p) -> keeps (MomentsSection.await e f).
Proof.
  intros He. unfold MomentsSection.await.
  apply keeps_bind; [now apply keeps_perform|intros _].
  apply keeps_bind; [apply keeps_timer_may_fire|intros _].
  apply keeps_bind; [apply keeps_answer|intros [a|m]];
    [apply keeps_ret | apply keeps_throw].
Qed.

(** [showSavedBriefly] takes the old timer down before it starts the
    new one. *)
Lemma keeps_showSavedBriefly : keeps MomentsSection.showSavedBriefly.
Proof.
  intros ans [st tr] Hid H. rewrite showSavedBriefly_run. cbn [fst snd] in *.
  rewrite !fold_left_app. cbn [fold_left timers_after]. unfold one_timer in *.
  cbn [MomentsSection.savedTimerRef MomentsSection.setSavedTimerRef].
  split; [exact Hid | now apply timers_saved].
Qed.

(** A program put together from these keeps the ref in step. *)
Ltac keeps_step :=
  first
    [ apply keeps_ret
    | apply keeps_throw
    | apply keeps_throw_if
    | apply keeps_answer
    | apply keeps_current
    | apply keeps_timer_may_fire
    | apply keeps_showSavedBriefly
    | apply keeps_bind; [|intros ?]
    | apply keeps_try_catch; [|intros ?]
    | apply keeps_try_finally
    | apply keeps_set; intros ?; reflexivity
    | apply keeps_perform; intros ?; reflexivity
    | apply keeps_await; intros ?; reflexivity
    | match goal with
      | |- keeps_one_timer _ (match ?x with _ => _ end) => destruct x
      end ].

Lemma keeps_loadMoments currentTripId : keeps (MomentsSection.loadMoments currentTripId).
Proof. unfold MomentsSection.loadMoments. repeat keeps_step. Qed.

Lemma keeps_removeSelectedPhoto snap : keeps (MomentsSection.removeSelectedPhoto snap).
Proof. unfold MomentsSection.removeSelectedPhoto. repeat keeps_step. Qed.

Lemma keeps_uploadPhotoIfAny props snap userId :
  keeps (MomentsSection.uploadPhotoIfAny toLowerCase props snap userId).
Proof. unfold MomentsSection.uploadPhotoIfAny. cbv zeta. repeat keeps_step. Qed.

Lemma keeps_footprint_of_moment props newMomentId :
  keeps (MomentsSection.footprint_of_moment props newMomentId).
Proof. unfold MomentsSection.footprint_of_moment. cbv zeta. repeat keeps_step. Qed.

Lemma keeps_addMoment props snap : keeps (addMoment props snap).
Proof.
  unfold MomentsSection.addMoment. cbv zeta.
  repeat first
    [ apply keeps_loadMoments
    | apply keeps_removeSelectedPhoto
    | apply keeps_uploadPhotoIfAny
    | apply keeps_footprint_of_moment
    | keeps_step ].
Qed.

(** The other handlers start no timer; one may fire while they wait. *)
Lemma keeps_saveEdit props snap m : keeps (MomentsSection.saveEdit trim props snap m).
Proof.
  unfold MomentsSection.saveEdit, MomentsSection.cancelEdit. cbv zeta.
  repeat first [apply keeps_loadMoments | keeps_step].
Qed.

Lemma keeps_deleteMoment props snap m : keeps (MomentsSection.deleteMoment props snap m).
Proof.
  unfold MomentsSection.deleteMoment, MomentsSection.cancelEdit.
  repeat first [apply keeps_loadMoments | keeps_step].
Qed.

End OneTimer.

(** X25. The component never has two timers pending: if the ref names the
    one pending timer, or none is pending, before a run of [addMoment],
    the same holds after it, the window never handing out the id 0.  So
    no timer of an earlier save is left to take down the message of a
    later one before its time. *)
Theorem addMoment_one_timer props st ans pending :
  one_timer st pending -> MomentsSection.ans_setTimeout ans <> 0 ->
  one_timer (fst (MomentsSection.run (addMoment props) ans st))
    (fold_left timers_after (snd (MomentsSection.run (addMoment props) ans st)) pending).
Proof.
  intros H Hid. unfold MomentsSection.run.
  now apply (keeps_addMoment pending props st ans (st, [])).
Qed.

End MomentsFacts.

(* ===================================================================== *)
(** ** The properties on the examples *)
(* ===================================================================== *)

Ltac distinct :=
  repeat (apply List.NoDup_cons; [simpl; intuition congruence|]); apply List.NoDup_nil.

(** Evaluates the timeline named by [E : timeline ... = Some tl]. *)
Ltac evaluate E :=
  let E' := fresh in
  pose proof E as E'; vm_compute in E'; injection E' as <-.

(** One moment and two footprints with distinct ids: the footprint out of
    the window is shown by exactly one entry. *)
Lemma footprints_partition_witness :
  NoDup (List.map f_id [f_1001; f_1005]) /\
  exists tl,
    timeline Date_parse_iso UTC [m_1000] [f_1001; f_1005] true = Some tl /\
    length (List.filter (shows_footprint (f_id f_1005)) (shown tl)) = 1%nat.
Proof.
  assert (H : NoDup (List.map f_id [f_1001; f_1005])) by distinct.
  split; [exact H|].
  destruct (footprints_partition Date_parse_iso UTC [m_1000] [f_1001; f_1005] true H)
    as (tl & E & _ & Hcount).
  exists tl. split; [exact E|]. apply Hcount. right. left. reflexivity.
Defined.

(** Two moments with distinct ids: the second is shown by exactly one
    entry. *)
Lemma moments_coverage_witness :
  NoDup (List.map m_id [m_1000; m_1030]) /\
  exists tl,
    timeline Date_parse_iso UTC [m_1000; m_1030] [f_1015] false = Some tl /\
    length (List.filter (shows_moment (m_id m_1030)) (shown tl)) = 1%nat.
Proof.
  assert (H : NoDup (List.map m_id [m_1000; m_1030])) by distinct.
  split; [exact H|].
  destruct (moments_coverage Date_parse_iso UTC [m_1000; m_1030] [f_1015] false)
    as (tl & E & _ & Hcount).
  exists tl. split; [exact E|]. apply (Hcount H). right. left. reflexivity.
Defined.

(** Scenario 1: a moment and a footprint 60 s apart are combined, and lie
    within the window. *)
Lemma combined_within_window_witness :
  exists tl,
    timeline Date_parse_iso UTC [m_1000] [f_1001] true = Some tl /\
    In (kind_combined "2024-06-01T10:00:00Z" m_1000 f_1001) (shown tl) /\
    exists tm tf,
      ms Date_parse_iso (m_created_at m_1000) = Num tm /\
      ms Date_parse_iso (f_created_at f_1001) = Num tf /\
      Z.abs (tf - tm) <= 120000.
Proof.
  destruct (combined_within_window Date_parse_iso UTC [m_1000] [f_1001] true)
    as (tl & E & Hwin).
  assert (H : In (kind_combined "2024-06-01T10:00:00Z" m_1000 f_1001) (shown tl))
    by (evaluate E; left; reflexivity).
  exists tl. split; [exact E|]. split; [exact H|].
  exact (proj2 (proj2 (Hwin _ _ _ H))).
Defined.

(** A moment and a footprint whose timestamps do not parse, the ids
    distinct: the footprint is shown alone. *)
Lemma unparseable_never_matched_witness :
  NoDup (List.map f_id [f_1001; f_bad]) /\
  ms Date_parse_iso (f_created_at f_bad) = NaN /\
  exists tl,
    timeline Date_parse_iso UTC [m_1000; m_bad] [f_1001; f_bad] true = Some tl /\
    In (kind_footprint (f_created_at f_bad) f_bad) (shown tl).
Proof.
  assert (H : NoDup (List.map f_id [f_1001; f_bad])) by distinct.
  assert (Hnan : ms Date_parse_iso (f_created_at f_bad) = NaN) by reflexivity.
  split; [exact H|]. split; [exact Hnan|].
  destruct (unparseable_never_matched Date_parse_iso UTC
              [m_1000; m_bad] [f_1001; f_bad] true) as (tl & E & _ & _ & Hfoot).
  exists tl. split; [exact E|].
  apply (Hfoot H); [right; left; reflexivity | exact Hnan].
Defined.

(** Scenario 3 on the first of June 2024; the scan order of three
    footprints whose timestamps parse. *)
Lemma greedy_tie_break_witness :
  (forall f, In f [f_1015; f_1005; f_1001] ->
             ms Date_parse_iso (f_created_at f) <> NaN) /\
  StronglySorted (not_older Date_parse_iso)
    (fpsForMatching Date_parse_iso [f_1015; f_1005; f_1001]) /\
  ms Date_parse_iso (m_created_at m_1000) = Num 1717236000000 /\
  ms Date_parse_iso (m_created_at m_1030) = Num (1717236000000 + 30000) /\
  ms Date_parse_iso (f_created_at f_1015) = Num (1717236000000 + 15000) /\
  matched Date_parse_iso [m_1000; m_1030] [f_1015] =
    [kind_combined (m_created_at m_1000) m_1000 f_1015;
     kind_moment (m_created_at m_1030) m_1030] /\
  exists tl,
    timeline Date_parse_iso UTC [m_1000; m_1030] [f_1015] false = Some tl /\
    Permutation (shown tl)
      [kind_combined (m_created_at m_1000) m_1000 f_1015;
       kind_moment (m_created_at m_1030) m_1030].
Proof.
  assert (H0 : forall f, In f [f_1015; f_1005; f_1001] ->
                         ms Date_parse_iso (f_created_at f) <> NaN).
  { intros f [<-|[<-|[<-|[]]]]; vm_compute; discriminate. }
  assert (H1 : ms Date_parse_iso (m_created_at m_1000) = Num 1717236000000)
    by (vm_compute; reflexivity).
  assert (H2 : ms Date_parse_iso (m_created_at m_1030) = Num (1717236000000 + 30000))
    by (vm_compute; reflexivity).
  assert (H3 : ms Date_parse_iso (f_created_at f_1015) = Num (1717236000000 + 15000))
    by (vm_compute; reflexivity).
  split; [exact H0|].
  split; [exact (proj1 (proj2 (greedy_tie_break Date_parse_iso UTC [] _)) H0)|].
  split; [exact H1|]. split; [exact H2|]. split; [exact H3|].
  destruct (proj2 (proj2 (proj2
              (greedy_tie_break Date_parse_iso UTC [m_1000; m_1030] [f_1015])))
              m_1000 m_1030 f_1015 1717236000000 H1 H2 H3) as [Hout Htl].
  split; [exact Hout | exact (Htl false)].
Defined.

(** C7 fails on footprints of which one has a timestamp that does not
    parse.  The comparator of the sort answers NaN beside that
    footprint, the sort takes the three footprints for equal and leaves
    them as given, the oldest first; the moment of 10:00:30 is half a
    minute from the footprints of 10:00:00 and of 10:01:00 and is paired
    with the older of the two, the first of the scan, where a scan from
    the newest to the oldest meets the newer one first. *)
Lemma greedy_tie_break_counterexample :
  fpsForMatching Date_parse_iso [f_1000; f_bad; f_1001] = [f_1000; f_bad; f_1001] /\
  ms Date_parse_iso (m_created_at m_1030) = Num 1717236030000 /\
  ms Date_parse_iso (f_created_at f_1000) = Num 1717236000000 /\
  ms Date_parse_iso (f_created_at f_bad) = NaN /\
  ms Date_parse_iso (f_created_at f_1001) = Num 1717236060000 /\
  matched Date_parse_iso [m_1030] [f_1000; f_bad; f_1001] =
    [kind_combined "2024-06-01T10:00:30Z" m_1030 f_1000;
     kind_footprint "not a date" f_bad;
     kind_footprint "2024-06-01T10:01:00Z" f_1001] /\
  timeline Date_parse_iso UTC [m_1030] [f_1000; f_bad; f_1001] true =
    Some [("2024-06-01", [kind_combined "2024-06-01T10:00:30Z" m_1030 f_1000;
                          kind_footprint "2024-06-01T10:01:00Z" f_1001]);
          ("NaN-NaN-NaN", [kind_footprint "not a date" f_bad])] /\
  ~ (forall pre f post tf g tg,
       fpsForMatching Date_parse_iso [f_1000; f_bad; f_1001] = (pre ++ f :: post)%list ->
       In g post ->
       ms Date_parse_iso (f_created_at f) = Num tf ->
       ms Date_parse_iso (f_created_at g) = Num tg ->
       tg <= tf).
Proof.
  repeat (split; [vm_compute; reflexivity|]).
  intros H.
  specialize (H [] f_1000 [f_bad; f_1001] 1717236000000 f_1001 1717236060000
                eq_refl (or_intror (or_introl eq_refl)) eq_refl eq_refl).
  lia.
Qed.

(** Entries with distinct sort keys over two days: the flag reverses the
    timeline exactly. *)
Lemma direction_reversal_witness :
  NoDup (List.map (stamp Date_parse_iso)
           (matched Date_parse_iso [m_1000; m_next_day; m_1030] [f_1005])) /\
  exists tl tl',
    timeline Date_parse_iso UTC [m_1000; m_next_day; m_1030] [f_1005] true = Some tl /\
    timeline Date_parse_iso UTC [m_1000; m_next_day; m_1030] [f_1005] false = Some tl' /\
    tl' = rev (List.map (fun s => (fst s, rev (snd s))) tl).
Proof.
  assert (H : NoDup (List.map (stamp Date_parse_iso)
                       (matched Date_parse_iso [m_1000; m_next_day; m_1030] [f_1005]))).
  { vm_compute. distinct. }
  split; [exact H|].
  destruct (direction_reversal Date_parse_iso UTC
              [m_1000; m_next_day; m_1030] [f_1005] true) as (tl & tl' & E & E' & _ & _ & Hrev).
  exists tl, tl'. split; [exact E|]. split; [exact E'|]. exact (Hrev H).
Defined.

(** A moment whose timestamp does not parse is shown under [NaN_key]. *)
Lemma malformed_timestamp_fallback_witness :
  In m_bad [m_1000; m_bad] /\
  ms Date_parse_iso (m_created_at m_bad) = NaN /\
  exists tl items,
    timeline Date_parse_iso UTC [m_1000; m_bad] [f_1001] true = Some tl /\
    In (NaN_key, items) tl /\ In (kind_moment (m_created_at m_bad) m_bad) items.
Proof.
  assert (H : In m_bad [m_1000; m_bad]) by (right; left; reflexivity).
  assert (Hnan : ms Date_parse_iso (m_created_at m_bad) = NaN) by reflexivity.
  split; [exact H|]. split; [exact Hnan|].
  destruct (malformed_timestamp_fallback Date_parse_iso UTC [m_1000; m_bad] [f_1001] true)
    as (tl & E & Hmoment & _).
  destruct (Hmoment m_bad H Hnan) as (items & Hsec & Hit).
  exists tl, items. split; [exact E|]. split; [exact Hsec | exact Hit].
Defined.

(** The two arrays of [store_1] are as they were after an invocation. *)
Lemma inputs_unchanged_witness :
  is_Some (store_1 !! 1%positive) /\ is_Some (store_1 !! 2%positive) /\
  snd (reconcile Date_parse_iso UTC 1%positive 2%positive true store_1) !! 2%positive =
    store_1 !! 2%positive.
Proof.
  assert (H1 : is_Some (store_1 !! 1%positive)) by (eexists; reflexivity).
  assert (H2 : is_Some (store_1 !! 2%positive)) by (eexists; reflexivity).
  split; [exact H1|]. split; [exact H2|].
  exact (proj1 (proj2
           (inputs_unchanged Date_parse_iso UTC store_1 1%positive 2%positive true H1 H2))).
Defined.

(** The same contents in two stores render the same sections. *)
Lemma reconcile_deterministic_witness :
  is_Some (store_1 !! 1%positive) /\ is_Some (store_1 !! 2%positive) /\
  is_Some (store_2 !! 7%positive) /\ is_Some (store_2 !! 5%positive) /\
  moments_at store_1 1%positive = moments_at store_2 7%positive /\
  footprints_at store_1 2%positive = footprints_at store_2 5%positive /\
  fst (reconcile Date_parse_iso UTC 1%positive 2%positive false store_1) =
  fst (reconcile Date_parse_iso UTC 7%positive 5%positive false store_2).
Proof.
  assert (H1 : is_Some (store_1 !! 1%positive)) by (eexists; reflexivity).
  assert (H2 : is_Some (store_1 !! 2%positive)) by (eexists; reflexivity).
  assert (H3 : is_Some (store_2 !! 7%positive)) by (eexists; reflexivity).
  assert (H4 : is_Some (store_2 !! 5%positive)) by (eexists; reflexivity).
  assert (Em : moments_at store_1 1%positive = moments_at store_2 7%positive)
    by reflexivity.
  assert (Ef : footprints_at store_1 2%positive = footprints_at store_2 5%positive)
    by reflexivity.
  split; [exact H1|]. split; [exact H2|]. split; [exact H3|]. split; [exact H4|].
  split; [exact Em|]. split; [exact Ef|].
  apply (proj1 (reconcile_deterministic Date_parse_iso UTC false)); assumption.
Defined.

(** Four-digit years: the sections of scenario 5 follow the calendar. *)
Example timeline_chronological_example :
  exists tl,
    timeline Date_parse_iso UTC [m_1000; m_next_day; m_1030] [] true = Some tl /\
    StronglySorted
      (fun s1 s2 => forall it1 it2,
           In it1 (snd s1) -> In it2 (snd s2) ->
           day_before Date_parse_iso UTC true it1 it2) tl.
Proof.
  destruct (timeline_chronological Date_parse_iso UTC [m_1000; m_next_day; m_1030] [] true)
    as (tl & E & Hdays & _).
  - intros it Hit. vm_compute in Hit.
    destruct Hit as [<-|[<-|[<-|[]]]]; eexists; (split; [reflexivity | vm_compute; intuition discriminate]).
  - exists tl. split; [exact E | exact Hdays].
Defined.



(** C5 fails on two moments with the same timestamp: the sort is stable,
    so both directions show them in the order of the input, and the
    timeline of one direction is not the reverse of the other. *)
Lemma direction_reversal_counterexample :
  exists tl tl',
    timeline Date_parse_iso UTC [m_1000; m_1000_again] [] true = Some tl /\
    timeline Date_parse_iso UTC [m_1000; m_1000_again] [] false = Some tl' /\
    tl = [("2024-06-01", [kind_moment "2024-06-01T10:00:00Z" m_1000;
                          kind_moment "2024-06-01T10:00:00Z" m_1000_again])] /\
    tl' = tl /\
    tl' <> rev (List.map (fun s => (fst s, rev (snd s))) tl).
Proof.
  eexists. eexists.
  split; [vm_compute; reflexivity|]. split; [vm_compute; reflexivity|].
  split; [vm_compute; reflexivity|]. split; [reflexivity|].
  vm_compute. intros H. congruence.
Qed.

(** C6 fails twice. With the trip ended, hence oldest first, the moment
    whose timestamp does not parse is shown in the last section, not the
    first; and a footprint whose timestamp does not parse and whose id is
    that of a matched footprint is not shown at all. *)
Lemma malformed_timestamp_fallback_counterexample :
  timeline Date_parse_iso UTC [m_1000; m_bad] [] true =
    Some [("2024-06-01", [kind_moment "2024-06-01T10:00:00Z" m_1000]);
          ("NaN-NaN-NaN", [kind_moment "not a date" m_bad])] /\
  ms Date_parse_iso (f_created_at f_bad_same_id) = NaN /\
  timeline Date_parse_iso UTC [m_1000] [f_1001; f_bad_same_id] true =
    Some [("2024-06-01", [kind_combined "2024-06-01T10:00:00Z" m_1000 f_1001])].
Proof. repeat split; vm_compute; reflexivity. Qed.

(** Where two footprints share an id, which the rows of one table never
    do: the footprint whose timestamp does not parse and whose id is
    that of a matched footprint is shown by no entry. *)
Example shared_id_footprint_not_shown :
  In f_bad_same_id [f_1001; f_bad_same_id] /\
  ms Date_parse_iso (f_created_at f_bad_same_id) = NaN /\
  exists tl,
    timeline Date_parse_iso UTC [m_1000] [f_1001; f_bad_same_id] false = Some tl /\
    ~ In (kind_footprint (f_created_at f_bad_same_id) f_bad_same_id) (shown tl).
Proof.
  split; [right; left; reflexivity|]. split; [reflexivity|].
  eexists. split; [vm_compute; reflexivity|].
  vm_compute. intros [H|[]]. discriminate.
Qed.

(** The scenarios of the specification, on the first of June 2024. *)
Example scenario_1 :
  timeline Date_parse_iso UTC [m_1000] [f_1001] true =
    Some [("2024-06-01", [kind_combined "2024-06-01T10:00:00Z" m_1000 f_1001])].
Proof. vm_compute. reflexivity. Qed.

Example scenario_2 :
  timeline Date_parse_iso UTC [m_1000] [f_1005] true =
    Some [("2024-06-01", [kind_moment "2024-06-01T10:00:00Z" m_1000;
                          kind_footprint "2024-06-01T10:05:00Z" f_1005])].
Proof. vm_compute. reflexivity. Qed.

Example scenario_4 :
  timeline Date_parse_iso UTC [m_1000; m_next_day; m_1030] [] false =
    Some [("2024-06-02", [kind_moment "2024-06-02T09:00:00Z" m_next_day]);
          ("2024-06-01", [kind_moment "2024-06-01T10:00:30Z" m_1030;
                          kind_moment "2024-06-01T10:00:00Z" m_1000])].
Proof. vm_compute. reflexivity. Qed.

Example scenario_5 :
  timeline Date_parse_iso UTC [m_1000; m_next_day; m_1030] [] true =
    Some [("2024-06-01", [kind_moment "2024-06-01T10:00:00Z" m_1000;
                          kind_moment "2024-06-01T10:00:30Z" m_1030]);
          ("2024-06-02", [kind_moment "2024-06-02T09:00:00Z" m_next_day])].
Proof. vm_compute. reflexivity. Qed.

Example scenario_6 : timeline Date_parse_iso UTC [] [] true = Some [].
Proof. reflexivity. Qed.

(* ===================================================================== *)
(** ** The further properties on the examples *)
(* ===================================================================== *)

(** One moment and two footprints with distinct ids, one of them within
    the window: three inputs, two entries, one of them combined. *)
Lemma entries_count_witness :
  NoDup (List.map f_id [f_1001; f_1005]) /\
  (length (entries Date_parse_iso [m_1000] [f_1001; f_1005] true) +
   length (List.filter is_combined (entries Date_parse_iso [m_1000] [f_1001; f_1005] true)) =
   length [m_1000] + length [f_1001; f_1005])%nat.
Proof.
  assert (H : NoDup (List.map f_id [f_1001; f_1005])) by distinct.
  split; [exact H|].
  exact (proj2 (entries_count Date_parse_iso [m_1000] [f_1001; f_1005] true) H).
Defined.

(** Two moments of the same instant and a footprint out of the window,
    the trip active: the two moments keep the order of the input. *)
Lemma same_instant_order_witness :
  (forall it, In it (matched Date_parse_iso [m_1000; m_1000_again] [f_1005]) ->
     exists z, stamp Date_parse_iso it = Num z) /\
  exists tl,
    timeline Date_parse_iso UTC [m_1000; m_1000_again] [f_1005] false = Some tl /\
    List.filter (at_time Date_parse_iso 1717236000000) (shown tl) =
    List.filter (at_time Date_parse_iso 1717236000000)
      (matched Date_parse_iso [m_1000; m_1000_again] [f_1005]).
Proof.
  assert (H : forall it, In it (matched Date_parse_iso [m_1000; m_1000_again] [f_1005]) ->
                exists z, stamp Date_parse_iso it = Num z).
  { intros it Hit. vm_compute in Hit.
    destruct Hit as [<-|[<-|[<-|[]]]]; eexists; vm_compute; reflexivity. }
  split; [exact H|].
  destruct (same_instant_order Date_parse_iso UTC [m_1000; m_1000_again] [f_1005] false H)
    as (tl & E & Ht).
  exists tl. split; [exact E | exact (Ht 1717236000000)].
Defined.

(** Two timestamps of 1 June 2024 have the same key. *)
Lemma same_key_same_day_witness :
  local_date Date_parse_iso UTC "2024-06-01T10:00:00Z" = Some (2024, 6, 1) /\
  local_date Date_parse_iso UTC "2024-06-01T10:05:00Z" = Some (2024, 6, 1) /\
  dayKey Date_parse_iso UTC "2024-06-01T10:00:00Z" =
  dayKey Date_parse_iso UTC "2024-06-01T10:05:00Z".
Proof.
  assert (H1 : local_date Date_parse_iso UTC "2024-06-01T10:00:00Z" = Some (2024, 6, 1))
    by (vm_compute; reflexivity).
  assert (H2 : local_date Date_parse_iso UTC "2024-06-01T10:05:00Z" = Some (2024, 6, 1))
    by (vm_compute; reflexivity).
  split; [exact H1|]. split; [exact H2|].
  exact (proj2 (same_key_same_day Date_parse_iso UTC _ _ _ _ H1 H2) eq_refl).
Defined.

(** The query of the moments fails: the error line is all that is
    rendered, the moment loaded before is kept and not shown. *)
Lemma render_after_load_witness :
  render Date_parse_iso UTC
    (loadTimeline {| res_data := None; res_error := Some "timeout" |}
       {| res_data := Some [f_1001]; res_error := None |}
       {| st_moments := [m_1000]; st_footprints := []; st_loading := false;
          st_error := "" |}) true =
  Some [part_error "timeout"].
Proof.
  refine (proj2 (proj2 (proj1 (render_after_load Date_parse_iso UTC
            {| res_data := None; res_error := Some "timeout" |}
            {| res_data := Some [f_1001]; res_error := None |}
            {| st_moments := [m_1000]; st_footprints := []; st_loading := false;
               st_error := "" |} true) "timeout" _)) _);
    [left; reflexivity | discriminate].
Defined.

(** The marker of the post left with the moment [mo1] stands on a post
    of the list. *)
Lemma markers_sound_witness :
  In {| MapSection.moment := map_moment_1; MapSection.post := post_1 |}
     (MapSection.momentMarkers [post_1; post_2] [map_moment_1]) /\
  In post_1 [post_1; post_2].
Proof.
  assert (H : In {| MapSection.moment := map_moment_1; MapSection.post := post_1 |}
                 (MapSection.momentMarkers [post_1; post_2] [map_moment_1]))
    by (left; reflexivity).
  split; [exact H|].
  exact (proj1 (markers_sound [post_1; post_2] [map_moment_1] _ H)).
Defined.

(** Two posts and a marker: the map is centred on the first post. *)
Lemma map_centred_on_first_post_witness :
  exists center dots route markers fit,
    MapSection.render map_state_1 = MapSection.view_map center dots route markers fit /\
    center = MapSection.position post_1.
Proof.
  assert (H : MapSection.render map_state_1 =
              MapSection.view_map (MapSection.position post_1)
                (List.map MapSection.position [post_1; post_2])
                (Some (List.map MapSection.position [post_1; post_2]))
                [{| MapSection.moment := map_moment_1; MapSection.post := post_1 |}]
                (Some [MapSection.position post_1; MapSection.position post_2;
                       MapSection.position post_1])) by reflexivity.
  do 5 eexists. split; [exact H|].
  destruct (map_centred_on_first_post map_state_1 _ _ _ _ _ H) as (p & rest & E & Ec & _).
  injection E as <- _. exact Ec.
Defined.

(** A town that is locality and city at once is named once, and the
    label is not empty. *)
Lemma reverseGeocode_not_empty_witness :
  MomentsSection.reverseGeocode (MomentsSection.fetch_resolved true (resolved (Some lourdes))) =
    Some "Lourdes" /\
  "Lourdes" <> "".
Proof.
  assert (H : MomentsSection.reverseGeocode
                (MomentsSection.fetch_resolved true (resolved (Some lourdes))) =
              Some "Lourdes") by reflexivity.
  split; [exact H|]. exact (reverseGeocode_not_empty _ _ H).
Defined.

(** The insert fails on the network: the run ends with [error] and a
    message that is not empty. *)
Lemma addMoment_answers_witness :
  MomentsSection.disabled props_1 = false /\
  MomentsSection.saveStatus
    (fst (MomentsSection.run (MomentsSection.addMoment lower_ascii trim_ascii props_1)
            answers_2 state_1)) = MomentsSection.error /\
  MomentsSection.saveMessage
    (fst (MomentsSection.run (MomentsSection.addMoment lower_ascii trim_ascii props_1)
            answers_2 state_1)) <> "".
Proof.
  split; [reflexivity|]. split; [reflexivity|].
  destruct (addMoment_answers lower_ascii trim_ascii props_1 state_1 answers_2 eq_refl)
    as [[_ H]|(H & _)]; [exact H | discriminate H].
Defined.

(** The moment is saved and the list takes long to load: the saved
    message is there when the list is asked for and gone when the run
    ends; with a quick answer it stays. *)
Example slow_reload_takes_message_down :
  MomentsSection.run (fun _ => MomentsSection.showSavedBriefly)
    answers_3 (MomentsSection.setSaveMessage "Saved ✓"
                 (MomentsSection.setSaveStatus MomentsSection.saved state_1)) =
    (MomentsSection.setSavedTimerRef (Some 5)
       (MomentsSection.setSaveMessage "Saved ✓"
          (MomentsSection.setSaveStatus MomentsSection.saved state_1)),
     [MomentsSection.window_clearTimeout 4; MomentsSection.window_setTimeout 5 2500]) /\
  (let w := MomentsSection.run (MomentsSection.addMoment lower_ascii trim_ascii props_1)
              answers_3 state_1 in
   MomentsSection.saveStatus (fst w) = MomentsSection.idle /\
   MomentsSection.saveMessage (fst w) = "" /\
   MomentsSection.savedTimerRef (fst w) = None /\
   snd w =
     [MomentsSection.auth_getUser; MomentsSection.crypto_randomUUID;
      MomentsSection.storage_upload "u1/t1/r1.jpg" {| MomentsSection.name := "Grotto.JPG" |};
      MomentsSection.storage_getPublicUrl "u1/t1/r1.jpg";
      MomentsSection.moments_insert "t1" "u1" "Grotto at dusk"
        (Some "https://cdn/u1/t1/r1.jpg");
      MomentsSection.getBrowserLocation; MomentsSection.fetch_reverse (43 # 1) (0 # 1);
      MomentsSection.posts_insert "t1" (43 # 1) (0 # 1) (12 # 1) (Some "Lourdes") "mo1";
      MomentsSection.URL_revokeObjectURL "blob:1"; MomentsSection.fileInput_clear;
      MomentsSection.window_clearTimeout 4; MomentsSection.window_setTimeout 5 2500;
      MomentsSection.moments_select "t1"; MomentsSection.timer_callback 5;
      MomentsSection.call_onSaved]) /\
  (let w := MomentsSection.run (MomentsSection.addMoment lower_ascii trim_ascii props_1)
              answers_1 state_1 in
   MomentsSection.saveStatus (fst w) = MomentsSection.saved /\
   MomentsSection.saveMessage (fst w) = "Saved ✓" /\
   MomentsSection.savedTimerRef (fst w) = Some 5).
Proof.
  split; [reflexivity|]. split.
  - vm_compute. repeat split.
  - vm_compute. repeat split.
Qed.

(** The insert of the footprint is rejected and the moment is saved:
    the form is cleared, and the status is [idle] at the end of the run
    because the list took long to load. *)
Lemma footprint_never_blocks_witness :
  MomentsSection.ans_insertPost answers_3 = rejected None /\
  MomentsSection.saveStatus
    (fst (MomentsSection.run (MomentsSection.addMoment lower_ascii trim_ascii props_1)
            answers_3 state_1)) = MomentsSection.idle /\
  MomentsSection.text
    (fst (MomentsSection.run (MomentsSection.addMoment lower_ascii trim_ascii props_1)
            answers_3 state_1)) = "".
Proof.
  split; [reflexivity|].
  destruct (footprint_never_blocks lower_ascii trim_ascii props_1 state_1 answers_3
              "u1" "mo1") as (Hs & Ht & _).
  - reflexivity.
  - left. vm_compute. discriminate.
  - reflexivity.
  - discriminate.
  - right. right. reflexivity.
  - reflexivity.
  - intros _. eexists. reflexivity.
  - split; [exact Hs | exact Ht].
Defined.

(** The footprint of the moment [mo1] carries its id, the position and
    the place of the geocoder. *)
Lemma footprint_of_stored_moment_witness :
  In (MomentsSection.posts_insert "t1" (43 # 1) (0 # 1) (12 # 1) (Some "Lourdes") "mo1")
     (snd (MomentsSection.run (MomentsSection.addMoment lower_ascii trim_ascii props_1)
             answers_1 state_1)) /\
  MomentsSection.ans_insert answers_1 = resolved ("mo1", None).
Proof.
  assert (H : In (MomentsSection.posts_insert "t1" (43 # 1) (0 # 1) (12 # 1)
                    (Some "Lourdes") "mo1")
                 (snd (MomentsSection.run
                         (MomentsSection.addMoment lower_ascii trim_ascii props_1)
                         answers_1 state_1)))
    by (vm_compute; tauto).
  split; [exact H|].
  exact (proj1 (footprint_of_stored_moment lower_ascii trim_ascii props_1 state_1 answers_1
                  _ _ _ _ _ _ H)).
Defined.

(** The insert fails after the upload: the URL stays in the state and
    the next run uploads nothing. *)
Lemma retry_reuses_upload_witness :
  MomentsSection.uploadedPhotoUrl
    (fst (MomentsSection.run (MomentsSection.addMoment lower_ascii trim_ascii props_1)
            answers_2 state_1)) = Some "https://cdn/u1/t1/r1.jpg" /\
  forall path f',
    ~ In (MomentsSection.storage_upload path f')
         (snd (MomentsSection.run (MomentsSection.addMoment lower_ascii trim_ascii props_1)
                 answers_1
                 (fst (MomentsSection.run
                         (MomentsSection.addMoment lower_ascii trim_ascii props_1)
                         answers_2 state_1)))).
Proof.
  destruct (retry_reuses_upload lower_ascii trim_ascii props_1 state_1 answers_2 answers_1
              {| MomentsSection.name := "Grotto.JPG" |} "u1"
              eq_refl eq_refl eq_refl eq_refl ltac:(discriminate) eq_refl
              ltac:(discriminate) ltac:(discriminate))
    as (_ & _ & _ & Hurl & Hup & _).
  split; [exact Hurl | exact Hup].
Defined.

(** A confirmed deletion lowers [deletingId] at its end. *)
Lemma deleteMoment_order_witness :
  MomentsSection.ans_confirm answers_1 = true /\
  MomentsSection.deletingId
    (fst (MomentsSection.run
            (fun snap => MomentsSection.deleteMoment props_1 snap m_1000) answers_1 state_1)) =
    None.
Proof.
  split; [reflexivity|].
  exact (proj1 (proj2 (deleteMoment_order props_1 state_1 m_1000 answers_1) eq_refl)).
Defined.

(** The timer 4 is pending and named by the ref; after the run the
    timer 5 is the one pending. *)
Lemma addMoment_one_timer_witness :
  one_timer state_1 (singleton 4) /\
  one_timer
    (fst (MomentsSection.run (MomentsSection.addMoment lower_ascii trim_ascii props_1)
            answers_1 state_1))
    (fold_left timers_after
       (snd (MomentsSection.run (MomentsSection.addMoment lower_ascii trim_ascii props_1)
               answers_1 state_1)) (singleton 4)).
Proof.
  assert (H : one_timer state_1 (singleton 4)) by (split; [discriminate | reflexivity]).
  split; [exact H|].
  exact (addMoment_one_timer lower_ascii trim_ascii props_1 state_1 answers_1 _ H
           ltac:(discriminate)).
Defined.

(** A moment and a footprint five minutes apart are both shown alone,
    and are further apart than the window. *)
Lemma no_missed_match_witness :
  exists tl,
    timeline Date_parse_iso UTC [m_1000] [f_1005] true = Some tl /\
    In (kind_moment "2024-06-01T10:00:00Z" m_1000) (shown tl) /\
    In (kind_footprint "2024-06-01T10:05:00Z" f_1005) (shown tl) /\
    120000 < Z.abs (1717236300000 - 1717236000000).
Proof.
  destruct (no_missed_match Date_parse_iso UTC [m_1000] [f_1005] true) as (tl & E & H).
  exists tl. split; [exact E|].
  assert (Hm : In (kind_moment "2024-06-01T10:00:00Z" m_1000) (shown tl))
    by (evaluate E; left; reflexivity).
  assert (Hf : In (kind_footprint "2024-06-01T10:05:00Z" f_1005) (shown tl))
    by (evaluate E; right; left; reflexivity).
  split; [exact Hm|]. split; [exact Hf|].
  exact (H _ _ _ _ 1717236000000 1717236300000 Hm Hf eq_refl eq_refl).
Defined.

(** The moment of the next day is shown under its own day. *)
Lemma moment_under_own_day_witness :
  In m_next_day [m_1000; m_next_day] /\
  exists tl items it,
    timeline Date_parse_iso UTC [m_1000; m_next_day] [f_1001] false = Some tl /\
    In ("2024-06-02", items) tl /\ In it items /\ entry_moment it = Some m_next_day.
Proof.
  assert (Hin : In m_next_day [m_1000; m_next_day]) by (right; left; reflexivity).
  split; [exact Hin|].
  destruct (moment_under_own_day Date_parse_iso UTC [m_1000; m_next_day] [f_1001] false)
    as (tl & E & H).
  destruct (H m_next_day Hin) as (items & it & Hsec & Hit & _ & Hm).
  exists tl, items, it. repeat split; assumption.
Defined.
